(** * Resumable streaming filter: [scripts/processFiles_sm.py]

    A shallow embedding of the script and the properties of its shard
    writer, checkpoint store, error log, file classifier and driver.

    Conventions of the embedding.
    - A Python [str] is a [string]: one [ascii] per code point, which covers
      the code points below 256.  [lower], [strip], [int] and [repr]
      follow CPython on that range; the limit some versions put on the
      number of digits [int] and [str] convert (a setting of the
      interpreter) is not part of the model.
    - Python integers are [Z].
    - A decoded JSON value is a [json]; a dictionary keeps its items in
      insertion order, as [dict] does.
    - The file system is a finite map from paths to nodes.  A file holds
      the sequence of chunks written to it.  Text whose exact wording is
      produced by a library ([json.dumps], [traceback.format_exc]) is kept
      symbolic: [JsonLine r] is the line [json.dumps(r) + "\n"] and
      [Traceback e] the text [traceback.format_exc() + "\n"] while [e] is
      being handled.
    - Every [open], [write] and [print] is also recorded, in order, in the
      trace of the world.
    - Code that can raise runs in the monad [M S A := S -> S * result A]:
      the state survives an exception, as the effects of a Python call do. *)

From Stdlib Require Import ZArith String Ascii List Bool Lia DecimalString DecimalZ.
From stdpp Require Import base option list gmap strings.

#[local] Open Scope string_scope.
#[local] Open Scope list_scope.
#[local] Open Scope Z_scope.

(* ================================================================== *)
(** ** Python strings *)

Module Py.

Definition code (c : ascii) : Z := Z.of_N (N_of_ascii c).

(** [str.isspace] on one code point below 256. *)
Definition is_space (c : ascii) : bool :=
  let n := code c in
  ((9 <=? n) && (n <=? 13)) || ((28 <=? n) && (n <=? 32))
  || (n =? 133) || (n =? 160).

(** Code points below 256 that [str.lower] changes: A-Z, and the
    Latin-1 capitals U+00C0..U+00DE without the multiplication sign. *)
Definition is_upper (c : ascii) : bool :=
  let n := code c in
  ((65 <=? n) && (n <=? 90))
  || ((192 <=? n) && (n <=? 222) && negb (n =? 215)).

Definition lower_char (c : ascii) : ascii :=
  if is_upper c then ascii_of_N (N_of_ascii c + 32) else c.

(** [s.lower()] *)
Fixpoint lower (s : string) : string :=
  match s with
  | EmptyString => EmptyString
  | String c r => String (lower_char c) (lower r)
  end.

(** [sub in s] *)
Fixpoint contains (sub s : string) : bool :=
  String.prefix sub s
  || match s with
     | EmptyString => false
     | String _ r => contains sub r
     end.

Fixpoint all_chars (f : ascii -> bool) (s : string) : bool :=
  match s with
  | EmptyString => true
  | String c r => f c && all_chars f r
  end.

Definition is_empty (s : string) : bool :=
  match s with EmptyString => true | _ => false end.

Fixpoint lstrip (s : string) : string :=
  match s with
  | EmptyString => EmptyString
  | String c r => if is_space c then lstrip r else s
  end.

Fixpoint rstrip (s : string) : string :=
  match s with
  | EmptyString => EmptyString
  | String c r =>
      let r' := rstrip r in
      if is_space c && is_empty r' then EmptyString else String c r'
  end.

(** [s.strip()] *)
Definition strip (s : string) : string := rstrip (lstrip s).

(** [s.split(sep)] for a one-character separator. *)
Fixpoint split (sep : ascii) (s : string) : list string :=
  match s with
  | EmptyString => [EmptyString]
  | String c r =>
      if Ascii.eqb c sep then EmptyString :: split sep r
      else match split sep r with
           | h :: t => String c h :: t
           | [] => [String c EmptyString]
           end
  end.

Definition LF : ascii := "010"%char.
Definition CR : ascii := "013"%char.
Definition TAB : ascii := "009"%char.
Definition nl : string := String LF EmptyString.
Definition tab : string := String TAB EmptyString.

(** [f.readline()] on a text file opened with the default [newline=None]:
    the first line, its terminator (LF, CR or CR LF) read as LF. *)
Fixpoint readline (s : string) : string :=
  match s with
  | EmptyString => EmptyString
  | String c r =>
      if Ascii.eqb c LF || Ascii.eqb c CR then nl
      else String c (readline r)
  end.

(** [str(n)] *)
Definition str_int (n : Z) : string := NilZero.string_of_int (Z.to_int n).

Definition is_digit (c : ascii) : bool :=
  let n := code c in (48 <=? n) && (n <=? 57).

(** The digits of an integer literal with its underscores removed: an
    underscore may only stand between two digits. *)
Fixpoint literal_digits (after_digit : bool) (s : string) : option string :=
  match s with
  | EmptyString => if after_digit then Some EmptyString else None
  | String c r =>
      if is_digit c then String c <$> literal_digits true r
      else if Ascii.eqb c "_"%char && after_digit then literal_digits false r
      else None
  end.

Definition unsigned_literal (s : string) : option Z :=
  match literal_digits false s with
  | Some ds => Z.of_uint <$> NilEmpty.uint_of_string ds
  | None => None
  end.

(** The white space [int] skips around a literal: the ASCII white space
    U+0009..U+000D and U+0020, and the spaces U+0085 and U+00A0, which
    it reads as U+0020.  The separators U+001C..U+001F, which [str.strip]
    removes, are not white space for [int]. *)
Definition is_int_space (c : ascii) : bool :=
  let n := code c in
  ((9 <=? n) && (n <=? 13)) || (n =? 32) || (n =? 133) || (n =? 160).

Fixpoint int_lstrip (s : string) : string :=
  match s with
  | EmptyString => EmptyString
  | String c r => if is_int_space c then int_lstrip r else s
  end.

Fixpoint int_rstrip (s : string) : string :=
  match s with
  | EmptyString => EmptyString
  | String c r =>
      let r' := int_rstrip r in
      if is_int_space c && is_empty r' then EmptyString else String c r'
  end.

(** [int(s)]: [None] stands for [ValueError].  White space is skipped on
    both sides, then come an optional sign and the digits. *)
Definition int (s : string) : option Z :=
  match int_rstrip (int_lstrip s) with
  | String "-" r => Z.opp <$> unsigned_literal r
  | String "+" r => unsigned_literal r
  | t => unsigned_literal t
  end.

(** [str.isprintable] on one code point below 256. *)
Definition is_printable (c : ascii) : bool :=
  let n := code c in
  ((32 <=? n) && (n <=? 126)) || ((161 <=? n) && negb (n =? 173)).

Definition hex_digit (n : N) : ascii :=
  if (n <? 10)%N then ascii_of_N (48 + n) else ascii_of_N (87 + n).

Definition squote : ascii := "039"%char.
Definition dquote : ascii := "034"%char.
Definition backslash : ascii := "092"%char.

(** One code point in [repr(s)], between quotes [quote]. *)
Definition repr_char (quote c : ascii) : string :=
  if Ascii.eqb c quote || Ascii.eqb c backslash
  then String backslash (String c EmptyString)
  else if Ascii.eqb c TAB then String backslash "t"
  else if Ascii.eqb c LF then String backslash "n"
  else if Ascii.eqb c CR then String backslash "r"
  else if is_printable c then String c EmptyString
  else String backslash
         (String "x" (String (hex_digit (N_of_ascii c / 16))
                        (String (hex_digit (N_of_ascii c mod 16)) EmptyString))).

Fixpoint repr_body (quote : ascii) (s : string) : string :=
  match s with
  | EmptyString => EmptyString
  | String c r => repr_char quote c +:+ repr_body quote r
  end.

(** [repr(s)]: between single quotes, or between double quotes when [s]
    has a single quote and no double quote. *)
Definition repr (s : string) : string :=
  let quote :=
    if contains (String squote EmptyString) s
       && negb (contains (String dquote EmptyString) s)
    then dquote else squote in
  String quote (repr_body quote s +:+ String quote EmptyString).

Fixpoint zeros (n : nat) : string :=
  match n with
  | O => EmptyString
  | S k => String "0" (zeros k)
  end.

Definition zfill (width : nat) (s : string) : string :=
  zeros (width - String.length s)%nat +:+ s.

(** [f"{n:04}"]: sign-aware zero padding to four characters. *)
Definition fmt04 (n : Z) : string :=
  if n <? 0 then String "-" (zfill 3 (str_int (- n)))
  else zfill 4 (str_int n).

(** [os.path.basename] (posixpath): what follows the last slash. *)
Fixpoint basename (p : string) : string :=
  match p with
  | EmptyString => EmptyString
  | String c r =>
      if contains "/" r then basename r
      else if Ascii.eqb c "/"%char then r
      else p
  end.

(** [os.path.join(a, b)] (posixpath, two arguments). *)
Definition path_join (a b : string) : string :=
  if String.prefix "/" b then b
  else if is_empty a || contains "/" (String.substring (String.length a - 1) 1 a)
       then a +:+ b
       else a +:+ "/" +:+ b.

End Py.

Import Py.

(* ================================================================== *)
(** ** JSON values, exceptions and results *)

(** What [json.loads] returns.  A float is carried by its [repr]: the
    script never computes with one. *)
#[warnings="-register-all"]
Inductive json :=
| JNull
| JBool (b : bool)
| JInt (n : Z)
| JFloat (repr : string)
| JStr (s : string)
| JList (items : list json)
| JDict (items : list (string * json)).

(** [type(v).__name__] *)
Definition type_name (v : json) : string :=
  match v with
  | JNull => "NoneType"
  | JBool _ => "bool"
  | JInt _ => "int"
  | JFloat _ => "float"
  | JStr _ => "str"
  | JList _ => "list"
  | JDict _ => "dict"
  end.

(** The value a dictionary holds for [key], if any. *)
Fixpoint dict_lookup (key : string) (items : list (string * json)) : option json :=
  match items with
  | [] => None
  | (k, v) :: rest => if String.eqb k key then Some v else dict_lookup key rest
  end.

(** [d.get(key, default)] *)
Definition dict_get (key : string) (default : json) (items : list (string * json)) : json :=
  match dict_lookup key items with
  | Some v => v
  | None => default
  end.

(** The exceptions the script can meet. *)
Inductive exn :=
| AttributeError (msg : string)
| ValueError (msg : string)
| KeyError (key : string)
| TypeError (msg : string)
| FileNotFoundError (filename : string)
| FileExistsError (filename : string)
| IsADirectoryError (filename : string)
| PermissionError (filename : string).

(** [type(exc).__name__] *)
Definition exn_name (e : exn) : string :=
  match e with
  | AttributeError _ => "AttributeError"
  | ValueError _ => "ValueError"
  | KeyError _ => "KeyError"
  | TypeError _ => "TypeError"
  | FileNotFoundError _ => "FileNotFoundError"
  | FileExistsError _ => "FileExistsError"
  | IsADirectoryError _ => "IsADirectoryError"
  | PermissionError _ => "PermissionError"
  end.

(** The name of a type between quotes, as the messages of
    [AttributeError] show it. *)
Definition quoted (s : string) : string := "'" +:+ s +:+ "'".

(** [str(exc)]; a key and a file name are shown by their [repr]. *)
Definition exn_str (e : exn) : string :=
  match e with
  | AttributeError m | ValueError m | TypeError m => m
  | KeyError k => repr k
  | FileNotFoundError f => "[Errno 2] No such file or directory: " +:+ repr f
  | FileExistsError f => "[Errno 17] File exists: " +:+ repr f
  | IsADirectoryError f => "[Errno 21] Is a directory: " +:+ repr f
  | PermissionError f => "[Errno 13] Permission denied: " +:+ repr f
  end.

(** The message of the [ValueError] of [int(s)]: the [repr] of [s] is cut
    after 200 characters. *)
Definition invalid_literal (s : string) : string :=
  "invalid literal for int() with base 10: "
  +:+ String.substring 0 200 (repr s).

Inductive result (A : Type) :=
| Ok (a : A)
| Raise (e : exn).
Arguments Ok {A} a.
Arguments Raise {A} e.

(* ================================================================== *)
(** ** The world: file system and trace *)

Inductive chunk :=
| Text (s : string)
| JsonLine (row : json)
| Traceback (e : exn).

Inductive node :=
| Dir
| File (writable : bool) (data : list chunk).

Inductive open_mode := ModeR | ModeRB | ModeA | ModeW.

Inductive event :=
| EvPrint (msg : string)
| EvOpen (path : string) (mode : open_mode)
| EvWrite (path : string) (c : chunk).

Record world := World {
  fs : gmap string node;
  trace : list event
}.

(** Code of the repository and of libraries that is not part of the
    script: the record stream adapter ([fileStreams.getFileJsonStream],
    [None] when the container format is not recognised),
    [os.path.abspath], and the two text producers whose output the files
    keep symbolically. *)
Class Externals := {
  getFileJsonStream : string -> list chunk -> option (list json);
  abspath : string -> string;
  json_dumps : json -> string;
  format_exc : exn -> string
}.

(* ================================================================== *)
(** ** The monad of effectful code *)

Definition M (S A : Type) : Type := S -> S * result A.

Definition ret {S A} (a : A) : M S A := fun s => (s, Ok a).

Definition raise {S A} (e : exn) : M S A := fun s => (s, Raise e).

Definition bind {S A B} (m : M S A) (k : A -> M S B) : M S B :=
  fun s =>
    match m s with
    | (s', Ok a) => k a s'
    | (s', Raise e) => (s', Raise e)
    end.

(** [try: m  except Exception as e: h e] *)
Definition try_except {S A} (m : M S A) (h : exn -> M S A) : M S A :=
  fun s =>
    match m s with
    | (s', Ok a) => (s', Ok a)
    | (s', Raise e) => h e s'
    end.

Declare Scope py_scope.
Delimit Scope py_scope with py.
Notation "x <- m ;; k" := (bind m (fun x => k))
  (at level 100, m at next level, right associativity) : py_scope.
Notation "m ;; k" := (bind m (fun _ => k))
  (at level 100, right associativity) : py_scope.
#[local] Open Scope py_scope.

(** [print(msg)] *)
Definition print (msg : string) : M world unit :=
  fun w => (World (fs w) (trace w ++ [EvPrint msg]), Ok tt).

Definition record_open (path : string) (mode : open_mode) : M world unit :=
  fun w => (World (fs w) (trace w ++ [EvOpen path mode]), Ok tt).

Definition set_node (path : string) (n : node) : M world unit :=
  fun w => (World (<[path := n]> (fs w)) (trace w), Ok tt).

Definition get_node (path : string) : M world (option node) :=
  fun w => (w, Ok (fs w !! path)).

(** [open(path, "a")] and [open(path, "w")]: the file is created when
    absent, and emptied in mode ["w"]. *)
Definition open_write (path : string) (mode : open_mode) : M world unit :=
  record_open path mode ;;
  n <- get_node path ;;
  match n with
  | Some Dir => raise (IsADirectoryError path)
  | Some (File false _) => raise (PermissionError path)
  | Some (File true d) =>
      match mode with
      | ModeW => set_node path (File true [])
      | _ => ret tt
      end
  | None => set_node path (File true [])
  end.

(** [open(path, "r")] and [open(path, "rb")]: what the file holds. *)
Definition open_read (path : string) (mode : open_mode) : M world (list chunk) :=
  record_open path mode ;;
  n <- get_node path ;;
  match n with
  | Some Dir => raise (IsADirectoryError path)
  | Some (File _ d) => ret d
  | None => raise (FileNotFoundError path)
  end.

Definition append_chunk (c : chunk) (n : node) : node :=
  match n with
  | File wr d => File wr (d ++ [c])
  | Dir => Dir
  end.

(** [f.write(c)] on an open file object for [path]. *)
Definition fwrite (path : string) (c : chunk) : M world unit :=
  fun w => (World (alter (append_chunk c) path (fs w))
                  (trace w ++ [EvWrite path c]), Ok tt).

(** [os.path.exists] and [os.path.isdir] *)
Definition path_exists (path : string) : M world bool :=
  fun w => (w, Ok (bool_decide (is_Some (fs w !! path)))).

Definition path_isdir (path : string) : M world bool :=
  fun w => (w, Ok (match fs w !! path with Some Dir => true | _ => false end)).

(** [os.makedirs(path, exist_ok=True)] *)
Definition makedirs (path : string) : M world unit :=
  n <- get_node path ;;
  match n with
  | Some Dir => ret tt
  | Some (File _ _) => raise (FileExistsError path)
  | None => set_node path Dir
  end.

(* ================================================================== *)
(** ** CONFIG *)

Record config := Config {
  fileOrFolderPath : string;
  target_subreddits : gset string;
  output_dir : string;
  submissions_prefix : string;
  comments_prefix : string;
  rows_per_file : Z;
  batch_size : Z
}.

Definition error_log_file (cfg : config) : string :=
  path_join (output_dir cfg) "errors.log".

Definition progress_file (cfg : config) : string :=
  path_join (output_dir cfg) "progress.log".

(** The values the script is shipped with. *)
Definition default_config : config := {|
  fileOrFolderPath := "../../testdata";
  target_subreddits :=
    {[ "selfhosting"; "selfhosted"; "homelab"; "homeserver"; "homenetworking" ]};
  output_dir := "../../filtered_output";
  submissions_prefix := "filtered_submissions";
  comments_prefix := "filtered_comments";
  rows_per_file := 100000;
  batch_size := 100
|}.

Definition with_rows_per_file (n : Z) (cfg : config) : config := {|
  fileOrFolderPath := fileOrFolderPath cfg;
  target_subreddits := target_subreddits cfg;
  output_dir := output_dir cfg;
  submissions_prefix := submissions_prefix cfg;
  comments_prefix := comments_prefix cfg;
  rows_per_file := n;
  batch_size := batch_size cfg
|}.

(* ================================================================== *)
(** ** class SplitWriter *)

Record file_obj := FileObj {
  fo_path : string;
  fo_closed : bool
}.

Record SplitWriter := MkSplitWriter {
  prefix : string;
  file_index : Z;
  row_count : Z;
  out : option file_obj
}.

(** The state of the row loop: the writer of the file and the world. *)
Definition pstate : Type := SplitWriter * world.

Definition lift_world {A} (m : M world A) : M pstate A :=
  fun s =>
    match m (snd s) with
    | (w', r) => ((fst s, w'), r)
    end.

Definition get_self : M pstate SplitWriter :=
  fun s => (s, Ok (fst s)).

Definition set_self (sw : SplitWriter) : M pstate unit :=
  fun s => ((sw, snd s), Ok tt).

(** Run code that uses a writer held in a local variable. *)
Definition with_local {A} (sw : SplitWriter) (m : M pstate A) : M world A :=
  fun w =>
    match m (sw, w) with
    | (s', r) => (snd s', r)
    end.

Definition shard_name (cfg : config) (pre : string) (index : Z) : string :=
  path_join (output_dir cfg) (pre +:+ "_" +:+ fmt04 index +:+ ".jsonl").

Definition close_obj (fo : file_obj) : file_obj :=
  FileObj (fo_path fo) true.

(** [SplitWriter._open_new_file] *)
Definition SplitWriter_open_new_file (cfg : config) : M pstate unit :=
  self <- get_self ;;
  match out self with
  | Some fo =>
      set_self (MkSplitWriter (prefix self) (file_index self) (row_count self)
                              (Some (close_obj fo)))
  | None => ret tt
  end ;;
  self <- get_self ;;
  let filename := shard_name cfg (prefix self) (file_index self) in
  lift_world (open_write filename ModeA) ;;
  set_self (MkSplitWriter (prefix self) (file_index self + 1) 0
                          (Some (FileObj filename false))).

(** [SplitWriter.__init__] *)
Definition SplitWriter_init (cfg : config) (pre : string) : M world SplitWriter :=
  with_local (MkSplitWriter pre 0 0 None)
    (SplitWriter_open_new_file cfg ;; get_self).

(** [SplitWriter.write] *)
Definition SplitWriter_write (cfg : config) (row : json) : M pstate unit :=
  self <- get_self ;;
  match out self with
  | None => raise (AttributeError "'NoneType' object has no attribute 'write'")
  | Some fo =>
      if fo_closed fo then raise (ValueError "I/O operation on closed file.")
      else lift_world (fwrite (fo_path fo) (JsonLine row))
  end ;;
  set_self (MkSplitWriter (prefix self) (file_index self) (row_count self + 1)
                          (out self)) ;;
  self <- get_self ;;
  if rows_per_file cfg <=? row_count self
  then SplitWriter_open_new_file cfg
  else ret tt.

(** [SplitWriter.close] *)
Definition SplitWriter_close : M pstate unit :=
  self <- get_self ;;
  match out self with
  | Some fo =>
      set_self (MkSplitWriter (prefix self) (file_index self) (row_count self)
                              (Some (close_obj fo)))
  | None => ret tt
  end.

(* ================================================================== *)
(** ** Error log and checkpoint *)

Definition error_header (file : string) (row_idx : Z) (exc : exn) : string :=
  "[" +:+ exn_name exc +:+ "] Error in " +:+ file +:+ " at row "
  +:+ str_int row_idx +:+ ": " +:+ exn_str exc +:+ nl.

(** [log_error] *)
Definition log_error (cfg : config) (file : string) (row_idx : Z) (exc : exn)
  : M world unit :=
  open_write (error_log_file cfg) ModeA ;;
  fwrite (error_log_file cfg) (Text (error_header file row_idx exc)) ;;
  fwrite (error_log_file cfg) (Traceback exc).

Definition progress_line (filename : string) (row_idx : Z) : string :=
  filename +:+ tab +:+ str_int row_idx +:+ nl.

(** [save_progress] *)
Definition save_progress (cfg : config) (filename : string) (row_idx : Z)
  : M world unit :=
  open_write (progress_file cfg) ModeW ;;
  fwrite (progress_file cfg) (Text (progress_line filename row_idx)).

Section Program.
Context {ext : Externals}.

Definition chunk_text (c : chunk) : string :=
  match c with
  | Text s => s
  | JsonLine r => json_dumps r +:+ nl
  | Traceback e => format_exc e +:+ nl
  end.

Definition text_of (data : list chunk) : string :=
  foldr (fun c acc => chunk_text c +:+ acc) EmptyString data.

(** [load_progress]: [file, row_idx = line.split("\t")] raises
    [ValueError] unless the line has exactly two fields. *)
Definition load_progress (cfg : config) : M world (option string * Z) :=
  found <- path_exists (progress_file cfg) ;;
  if found then
    data <- open_read (progress_file cfg) ModeR ;;
    let line := strip (readline (text_of data)) in
    if is_empty line then ret (None, 0)
    else
      match split TAB line with
      | [file; row_idx] =>
          match int row_idx with
          | Some n => ret (Some file, n)
          | None => raise (ValueError (invalid_literal row_idx))
          end
      | [_] => raise (ValueError "not enough values to unpack (expected 2, got 1)")
      | _ => raise (ValueError "too many values to unpack (expected 2)")
      end
  else ret (None, 0).

(* ================================================================ *)
(** ** Driver *)

(** [detect_file_type] *)
Definition detect_file_type (path : string) : string :=
  let base := lower (basename path) in
  if contains "rs_" base then "submission"
  else if contains "rc_" base then "comment"
  else "unknown".

(** [row.get("subreddit", "").lower()] *)
Definition subreddit_of (row : json) : result string :=
  match row with
  | JDict items =>
      match dict_get "subreddit" (JStr "") items with
      | JStr s => Ok (lower s)
      | v => Raise (AttributeError
                      (quoted (type_name v) +:+ " object has no attribute 'lower'"))
      end
  | v => Raise (AttributeError
                  (quoted (type_name v) +:+ " object has no attribute 'get'"))
  end.

Definition lift_result {S A} (r : result A) : M S A :=
  fun s => (s, r).

(** The body of the [try] for the row of ordinal [i].  The progress
    reporter ([utils.FileProgressLog]) only reports to the console and
    is left out. *)
Definition try_body (cfg : config) (path : string) (i : Z) (row : json)
  : M pstate unit :=
  subreddit <- lift_result (subreddit_of row) ;;
  if bool_decide (subreddit ∈ target_subreddits cfg) then
    SplitWriter_write cfg row ;;
    if i mod 1000 =? 0 then lift_world (save_progress cfg path i)
    else ret tt
  else ret tt.

(** One pass of the [for] loop at a row that is not skipped. *)
Definition handle_row (cfg : config) (path : string) (i : Z) (row : json)
  : M pstate unit :=
  try_except (try_body cfg path i row)
             (fun e => lift_world (log_error cfg path i e)).

(** [for i, row in enumerate(jsonStream)], from ordinal [i] on. *)
Fixpoint rows_loop (cfg : config) (path : string) (start_row : Z)
         (i : Z) (rows : list json) : M pstate unit :=
  match rows with
  | [] => ret tt
  | row :: rest =>
      (if i <? start_row then ret tt else handle_row cfg path i row) ;;
      rows_loop cfg path start_row (i + 1) rest
  end.

Definition prefix_map (cfg : config) : gmap string string :=
  {[ "submission" := submissions_prefix cfg; "comment" := comments_prefix cfg ]}.

(** [processFile] *)
Definition processFile (cfg : config) (path : string) (start_row : Z)
  : M world unit :=
  let ftype := detect_file_type path in
  if String.eqb ftype "unknown" then
    print ("Skipping " +:+ path +:+ " (not RC_ or RS_)")
  else
    print ("Processing " +:+ path +:+ " [" +:+ ftype +:+ "]") ;;
    data <- open_read path ModeRB ;;
    match getFileJsonStream path data with
    | None => print ("Skipping unknown format " +:+ path)
    | Some jsonStream =>
        match prefix_map cfg !! ftype with
        | None => raise (KeyError ftype)
        | Some pre =>
            writer <- SplitWriter_init cfg pre ;;
            with_local writer
              (rows_loop cfg path start_row 0 jsonStream ;;
               SplitWriter_close)
        end
    end.

(** The loop of [processFolder] over the files [iter_files] yields. *)
Fixpoint folder_loop (cfg : config) (start_file : option string)
         (start_row : Z) (started : bool) (files : list string)
  : M world unit :=
  match files with
  | [] => ret tt
  | file :: rest =>
      if started then
        processFile cfg file 0 ;;
        folder_loop cfg start_file start_row true rest
      else
        match start_file with
        | None => raise (TypeError "expected str, bytes or os.PathLike object, not NoneType")
        | Some sf =>
            if String.eqb (abspath file) (abspath sf) then
              processFile cfg file start_row ;;
              folder_loop cfg start_file start_row true rest
            else folder_loop cfg start_file start_row false rest
        end
  end.

(** [processFolder]; [listing] is what [iter_files(path)] yields. *)
Definition processFolder (cfg : config) (listing : list string)
           (start_file : option string) (start_row : Z) : M world unit :=
  folder_loop cfg start_file start_row
              (match start_file with None => true | Some _ => false end)
              listing.

(** Truth value of [last_file]: [None] and the empty string are false. *)
Definition truthy (s : option string) : bool :=
  match s with
  | Some t => negb (is_empty t)
  | None => false
  end.

(** [main]; [listing] is what the walk of [fileOrFolderPath] yields. *)
Definition main (cfg : config) (listing : list string) : M world unit :=
  p <- load_progress cfg ;;
  isdir <- path_isdir (fileOrFolderPath cfg) ;;
  (if isdir then processFolder cfg listing (fst p) (snd p)
   else processFile cfg (fileOrFolderPath cfg)
                    (if truthy (fst p) then snd p else 0)) ;;
  print "Done :>".

(** The script: the module body creates the output directory. *)
Definition script (cfg : config) (listing : list string) : M world unit :=
  makedirs (output_dir cfg) ;;
  main cfg listing.

End Program.

(* ================================================================== *)
(** ** Observations on worlds and traces *)

(** [open(path, "a")] and [open(path, "w")] succeed at [path]: nothing is
    there yet, or a regular file that may be written. *)
Definition writable_at (w : world) (path : string) : Prop :=
  match fs w !! path with
  | None | Some (File true _) => True
  | _ => False
  end.

Definition row_of_chunk (c : chunk) : option json :=
  match c with
  | JsonLine r => Some r
  | _ => None
  end.

(** What the file at [path] holds. *)
Definition file_data (w : world) (path : string) : list chunk :=
  match fs w !! path with
  | Some (File _ d) => d
  | _ => []
  end.

(** The rows a file holds, and those of the shard at [path]. *)
Definition rows_of (data : list chunk) : list json := omap row_of_chunk data.

Definition shard_rows (w : world) (path : string) : list json :=
  match fs w !! path with
  | Some (File _ d) => rows_of d
  | _ => []
  end.

(** The rows written by the events [t], each with the file it went to. *)
Definition json_writes (t : list event) : list (string * json) :=
  omap (fun ev => match ev with
                  | EvWrite p (JsonLine r) => Some (p, r)
                  | _ => None
                  end) t.

(** The paths opened by the events [t]. *)
Definition opened (t : list event) : list string :=
  omap (fun ev => match ev with EvOpen p _ => Some p | _ => None end) t.

(** The entries of the error log among the events [t]: each is a header
    line followed by the trace of the exception. *)
Definition error_entries (cfg : config) (t : list event) : list exn :=
  omap (fun ev => match ev with
                  | EvWrite p (Traceback e) =>
                      if String.eqb p (error_log_file cfg) then Some e else None
                  | _ => None
                  end) t.

(** The checkpoints saved by the events [t]. *)
Definition saved_lines (cfg : config) (t : list event) : list string :=
  omap (fun ev => match ev with
                  | EvWrite p (Text s) =>
                      if String.eqb p (progress_file cfg) then Some s else None
                  | _ => None
                  end) t.

(** The record has a [subreddit] field, a string whose lower-case form is
    one of the targets. *)
Definition category_matches (cfg : config) (row : json) : Prop :=
  exists items s,
    row = JDict items
    /\ dict_lookup "subreddit" items = Some (JStr s)
    /\ lower s ∈ target_subreddits cfg.

(** The record is an object without a [subreddit] field. *)
Definition category_missing (row : json) : Prop :=
  exists items, row = JDict items /\ dict_lookup "subreddit" items = None.

(** The filter as the loop computes it; a row on which it raises does not
    match. *)
Definition row_matches (cfg : config) (row : json) : bool :=
  match subreddit_of row with
  | Ok s => bool_decide (s ∈ target_subreddits cfg)
  | Raise _ => false
  end.

(** No row of [rows], handled in turn from ordinal [i] and state [s],
    raises in the body of the [try]. *)
Fixpoint quiet (cfg : config) (path : string) (i : Z)
         (rows : list json) (s : pstate) : Prop :=
  match rows with
  | [] => True
  | row :: rest =>
      match try_body cfg path i row s with
      | (s', Ok _) => quiet cfg path (i + 1) rest s'
      | (_, Raise _) => False
      end
  end.

(** A name contains [pat] in some mix of upper and lower case: one of the
    [variants] occurs in it. *)
Definition occurs_any (variants : list string) (s : string) : Prop :=
  exists pre m post, s = pre +:+ m +:+ post /\ In m variants.

Definition rs_variants : list string := ["rs_"; "rS_"; "Rs_"; "RS_"].
Definition rc_variants : list string := ["rc_"; "rC_"; "Rc_"; "RC_"].

Definition is_separator (c : ascii) : bool :=
  Ascii.eqb c TAB || Ascii.eqb c LF || Ascii.eqb c CR.

Definition no_separator (s : string) : bool :=
  all_chars (fun c => negb (is_separator c)) s.

(** A path the one-line checkpoint format can carry: not empty, no
    leading white space, and no tab, line feed or carriage return. *)
Definition checkpointable (path : string) : bool :=
  match path with
  | EmptyString => false
  | String c _ => negb (is_space c) && no_separator path
  end.

(** Nothing exists yet in the output directory. *)
Definition fresh_output (cfg : config) (w : world) : Prop :=
  forall p, String.prefix (path_join (output_dir cfg) "") p = true ->
            fs w !! p = None.

(** The writer for [pre] and its first two shards [p0] and [p1] after the
    rows [done], at most three, went to them two to a shard. *)
Definition filled (pre p0 p1 : string) (done : list json) (s : pstate) : Prop :=
  match done with
  | [] =>
      fst s = MkSplitWriter pre 1 0 (Some (FileObj p0 false))
      /\ fs (snd s) !! p0 = Some (File true [])
      /\ fs (snd s) !! p1 = None
  | [a] =>
      fst s = MkSplitWriter pre 1 1 (Some (FileObj p0 false))
      /\ fs (snd s) !! p0 = Some (File true [JsonLine a])
      /\ fs (snd s) !! p1 = None
  | [a; b] =>
      fst s = MkSplitWriter pre 2 0 (Some (FileObj p1 false))
      /\ fs (snd s) !! p0 = Some (File true [JsonLine a; JsonLine b])
      /\ fs (snd s) !! p1 = Some (File true [])
  | [a; b; c] =>
      fst s = MkSplitWriter pre 2 1 (Some (FileObj p1 false))
      /\ fs (snd s) !! p0 = Some (File true [JsonLine a; JsonLine b])
      /\ fs (snd s) !! p1 = Some (File true [JsonLine c])
  | _ => False
  end.

(** Classes of events: no row of a shard, no entry of the error log, and
    neither of them. *)
Definition no_json_write (ev : event) : Prop :=
  match ev with
  | EvWrite _ (JsonLine _) => False
  | _ => True
  end.

Definition no_traceback (ev : event) : Prop :=
  match ev with
  | EvWrite _ (Traceback _) => False
  | _ => True
  end.

Definition plain (ev : event) : Prop := no_json_write ev /\ no_traceback ev.

(** The code [m] only adds events of the class [C] to the trace, whether
    it returns or raises. *)
Definition emits {S A} (tr : S -> list event) (C : event -> Prop) (m : M S A)
  : Prop :=
  forall s, exists new, tr (fst (m s)) = tr s ++ new /\ Forall C new.

Definition ptrace (s : pstate) : list event := trace (snd s).

(* ================================================================== *)
(** ** Invariants of the writer, the shards and the files *)

(** The code [m] keeps the property [P] of the world, whether it returns
    or raises. *)
Definition keeps {S A X} (wd : S -> X) (P : X -> Prop) (m : M S A) : Prop :=
  forall s, P (wd s) -> P (wd (fst (m s))).

(** The writer was made for the prefix [pre], and the file it holds, if
    any, is a shard of that prefix. *)
Definition named_for (cfg : config) (pre : string) (sw : SplitWriter) : Prop :=
  prefix sw = pre
  /\ forall fo, out sw = Some fo -> exists j, fo_path fo = shard_name cfg pre j.


(** The [j]-th group of [n] rows of [rows]. *)
Definition group (n : nat) (rows : list json) (j : nat) : list json :=
  take n (drop (j * n) rows).

(** The writer for [pre] and the shards of that prefix after the rows
    [done] went to fresh shards, [n] to a shard: the shards in use hold
    the groups of [done] in order, the writer is on the last of them, and
    no other shard exists. *)
Definition sharded (cfg : config) (pre : string) (n : nat) (done : list json)
           (s : pstate) : Prop :=
  exists q r : nat,
    length done = (q * n + r)%nat /\ (r < n)%nat
    /\ fst s = MkSplitWriter pre (Z.of_nat q + 1) (Z.of_nat r)
                 (Some (FileObj (shard_name cfg pre (Z.of_nat q)) false))
    /\ forall j : nat,
         fs (snd s) !! shard_name cfg pre (Z.of_nat j)
         = if (j * n <=? length done)%nat
           then Some (File true (JsonLine <$> group n done j))
           else None.

(** An event that, if it writes text to the checkpoint file, writes the
    line of [path] for an ordinal that is a multiple of 1000 between [lo]
    and [hi]. *)
Definition checkpoint_event (cfg : config) (path : string) (lo hi : Z)
           (ev : event) : Prop :=
  match ev with
  | EvWrite p (Text s) =>
      p = progress_file cfg ->
      exists i, s = progress_line path i /\ i mod 1000 = 0 /\ lo <= i < hi
  | _ => True
  end.

(** The file at [path] still begins with the chunks [old]. *)
Definition begins_with (path : string) (old : list chunk) (w : world) : Prop :=
  exists more, file_data w path = old ++ more.

(** The event [ev], when it writes a row, writes a row that matches the
    filter to a shard named with the prefix [pre]; with no prefix no
    row may be written. *)
Definition routed (cfg : config) (pre : option string) (ev : event) : Prop :=
  match ev with
  | EvWrite p (JsonLine row) =>
      row_matches cfg row = true
      /\ exists pr j, pre = Some pr /\ p = shard_name cfg pr j
  | _ => True
  end.

(** The writer holds an open shard of the prefix [pre], every shard of
    that prefix can be opened for append, and so can the error log: the
    state in which no [write] and no [log_error] can fail. *)
Definition ready (cfg : config) (pre : string) (s : pstate) : Prop :=
  named_for cfg pre (fst s)
  /\ (exists p, out (fst s) = Some (FileObj p false))
  /\ (forall j, writable_at (snd s) (shard_name cfg pre j))
  /\ writable_at (snd s) (error_log_file cfg).

(** The state in which the loop leaves the writer and the world when it
    handles each row of [rows] in turn, from ordinal [i]; the rows below
    [start_row] are passed over. *)
Fixpoint loop_state (cfg : config) (path : string) (start_row : Z)
         (i : Z) (rows : list json) (s : pstate) : pstate :=
  match rows with
  | [] => s
  | row :: rest =>
      loop_state cfg path start_row (i + 1) rest
        (if i <? start_row then s else fst (handle_row cfg path i row s))
  end.

(** The exceptions the bodies of the [try] raise along the loop, each with
    the ordinal of its row. *)
Fixpoint raised (cfg : config) (path : string) (start_row : Z)
         (i : Z) (rows : list json) (s : pstate) : list (Z * exn) :=
  match rows with
  | [] => []
  | row :: rest =>
      if i <? start_row then raised cfg path start_row (i + 1) rest s
      else
        match snd (try_body cfg path i row s) with
        | Raise e => [(i, e)]
        | Ok _ => []
        end
        ++ raised cfg path start_row (i + 1) rest
             (fst (handle_row cfg path i row s))
  end.

(** The entry [log_error] writes for the exception [e] at ordinal [i]. *)
Definition log_entry (path : string) (ie : Z * exn) : list chunk :=
  [Text (error_header path (fst ie) (snd ie)); Traceback (snd ie)].

(** The header lines and traces written to the error log by the events
    [t], in order. *)
Definition log_writes (cfg : config) (t : list event) : list chunk :=
  omap (fun ev => match ev with
                  | EvWrite p (JsonLine _) => None
                  | EvWrite p c =>
                      if String.eqb p (error_log_file cfg) then Some c else None
                  | _ => None
                  end) t.

(** An event that writes no header and no trace to the error log. *)
Definition no_log_write (cfg : config) (ev : event) : Prop :=
  match ev with
  | EvWrite p (JsonLine _) => True
  | EvWrite p _ => p <> error_log_file cfg
  | _ => True
  end.

(** The writer and the world when the loop of [processFile] starts on the
    file [path] of a known kind: the file has been announced and opened,
    and the writer holds shard 0 of the prefix [pre], opened for append. *)
Definition loop_start (cfg : config) (pre path : string) (w : world) : pstate :=
  (MkSplitWriter pre 1 0 (Some (FileObj (shard_name cfg pre 0) false)),
   World (<[shard_name cfg pre 0 :=
              File true (file_data w (shard_name cfg pre 0))]> (fs w))
         (trace w
          ++ [EvPrint ("Processing " +:+ path +:+ " ["
                       +:+ detect_file_type path +:+ "]");
              EvOpen path ModeRB;
              EvOpen (shard_name cfg pre 0) ModeA])).

(* ================================================================== *)
(** ** A sample environment and sample inputs *)

Definition ends_with (suffix s : string) : bool :=
  (String.length suffix <=? String.length s)%nat
  && String.eqb (String.substring (String.length s - String.length suffix)
                                  (String.length suffix) s) suffix.

(** Line-delimited JSON files, absolute paths in normal form. *)
Definition sample_env : Externals := {|
  getFileJsonStream path data :=
    if ends_with ".jsonl" path then Some (rows_of data) else None;
  abspath path := if String.prefix "/" path then path else "/srv/run/" +:+ path;
  json_dumps v := "<" +:+ type_name v +:+ ">";
  format_exc e := "Traceback (most recent call last):" +:+ nl
                  +:+ exn_name e +:+ ": " +:+ exn_str e
|}.

Definition post (subreddit title : string) : json :=
  JDict [("title", JStr title); ("subreddit", JStr subreddit)].

Definition empty_world : world := World ∅ [].

Definition with_file (path : string) (n : node) (w : world) : world :=
  World (<[path := n]> (fs w)) (trace w).

Definition jsonl (rows : list json) : node := File true (map JsonLine rows).

Definition cfg2 : config := with_rows_per_file 2 default_config.

Definition sample_path : string := "../../testdata/RS_2023-01.jsonl".

Definition shard0 : string := "../../filtered_output/filtered_submissions_0000.jsonl".
Definition shard1 : string := "../../filtered_output/filtered_submissions_0001.jsonl".

(** A writer on an empty shard 0000. *)
Definition open_writer : SplitWriter :=
  MkSplitWriter "filtered_submissions" 1 0 (Some (FileObj shard0 false)).

Definition started_world : world := with_file shard0 (File true []) empty_world.

(** A row whose [subreddit] is [null]: [None.lower()] raises. *)
Definition null_row : json := JDict [("subreddit", JNull)].

Definition null_exn : exn :=
  AttributeError "'NoneType' object has no attribute 'lower'".

Definition after_first_row : pstate :=
  fst (rows_loop default_config sample_path 0 0 [post "homelab" "a"]
                 (open_writer, started_world)).

Definition five_rows : list json :=
  [post "selfhosting" "a"; post "funny" "b"; post "HomeLab" "c"; JInt 3;
   post "homelab" "d"].

Definition one_file_world : world :=
  with_file sample_path (jsonl five_rows) empty_world.

Definition read_only_log_world : world :=
  with_file (error_log_file default_config) (File false []) empty_world.

(** Shard 0000 as an earlier file of the run left it, with the shipped
    100000 rows, and one more submission file to process. *)
Definition full_shard_world : world :=
  with_file shard0
    (File true (repeat (JsonLine (post "homelab" "old")) (Z.to_nat 100000)))
    (with_file sample_path (jsonl [post "selfhosted" "new"]) empty_world).

Definition tab_path : string := "../../testdata/RS_2023" +:+ tab +:+ "01.jsonl".

Definition three_files : list string :=
  ["/data/RS_2023-01.jsonl"; "/data/RS_2023-02.jsonl"; "/data/RC_2023-01.jsonl"].


(** Further sample inputs. *)

Definition cfg1 : config := with_rows_per_file 1 default_config.

(** Shard 0000 open and empty, and a directory where shard 0001 would go. *)
Definition blocked_world : world := with_file shard1 Dir started_world.

Definition notes_path : string := "../../rs_archive/notes.txt".

(** A checkpoint file with a blank first line, and a directory in the
    place of the checkpoint file. *)
Definition blank_checkpoint_world : world :=
  with_file (progress_file default_config) (File true [Text ("   " +:+ nl)])
            empty_world.

Definition checkpoint_dir_world : world :=
  with_file (progress_file default_config) Dir empty_world.

(** Three files of a folder: the checkpoint names the second. *)
Definition resume_world : world :=
  with_file "/data/RS_2023-01.jsonl" (jsonl [post "homelab" "old"])
    (with_file "/data/RS_2023-02.jsonl" (jsonl five_rows)
       (with_file "/data/RC_2023-01.jsonl" (jsonl [post "selfhosted" "x"])
          empty_world)).

(** A checkpoint file whose second field starts with U+001F, which
    [str.strip] would remove and [int] does not accept. *)
Definition bad_ordinal : string := String "031"%char "5".

Definition bad_ordinal_world : world :=
  with_file (progress_file default_config)
            (File true [Text (sample_path +:+ tab +:+ bad_ordinal +:+ nl)])
            empty_world.

(* ================================================================== *)
(** * Properties *)

(** ** Strings *)

Lemma append_nil_l (s : string) : "" +:+ s = s.
Proof. reflexivity. Qed.

Lemma append_cons (c : ascii) (a b : string) :
  String c a +:+ b = String c (a +:+ b).
Proof. reflexivity. Qed.

Ltac str :=
  repeat (rewrite ?append_nil_l, ?append_cons in *; simpl in * );
  try discriminate.

Lemma append_nil_r (s : string) : s +:+ "" = s.
Proof. induction s; str; congruence. Qed.

Lemma append_assoc (a b c : string) : (a +:+ b) +:+ c = a +:+ (b +:+ c).
Proof. induction a; str; congruence. Qed.

Lemma prefix_true_iff (a s : string) :
  String.prefix a s = true <-> exists post, s = a +:+ post.
Proof.
  revert s. induction a as [|c a IH]; intros s.
  - destruct s; split; try reflexivity; intros _; eexists; reflexivity.
  - destruct s as [|d s].
    + split; [discriminate | intros [post H]; str].
    + simpl. destruct (ascii_dec c d) as [->|Hne].
      * rewrite IH. split; intros [post H]; exists post; str; congruence.
      * split; [discriminate | intros [post H]; str; congruence].
Qed.

Lemma contains_nil (a : string) : contains a "" = String.prefix a "".
Proof. unfold contains. apply orb_false_r. Qed.

Lemma contains_cons (a : string) c s :
  contains a (String c s) = String.prefix a (String c s) || contains a s.
Proof. reflexivity. Qed.

Lemma contains_true_iff (a s : string) :
  contains a s = true <-> exists pre post, s = pre +:+ a +:+ post.
Proof.
  induction s as [|c s IH].
  - rewrite contains_nil, prefix_true_iff. split.
    + intros [post H]. exists "", post. exact H.
    + intros (pre & post & H). destruct pre; str. exists post; exact H.
  - rewrite contains_cons, orb_true_iff, prefix_true_iff, IH. split.
    + intros [[post H] | (pre & post & H)].
      * exists "", post. exact H.
      * exists (String c pre), post. str. congruence.
    + intros (pre & post & H). destruct pre as [|d pre]; str.
      * left. exists post. exact H.
      * right. exists pre, post. congruence.
Qed.

Lemma lower_append (a b : string) : lower (a +:+ b) = lower a +:+ lower b.
Proof. induction a; str; congruence. Qed.

Lemma lower_split (s x y : string) :
  lower s = x +:+ y -> exists a b, s = a +:+ b /\ lower a = x /\ lower b = y.
Proof.
  revert s. induction x as [|c x IH]; intros s H; str.
  - exists "", s. auto.
  - destruct s as [|d s]; str.
    injection H as Hc Hs. destruct (IH _ Hs) as (a & b & -> & Ha & Hb).
    exists (String d a), b. str. rewrite Hc, Ha. auto.
Qed.

Ltac ascii_cases c :=
  destruct c as [[] [] [] [] [] [] [] []]; vm_compute; intros; try discriminate; auto.

Lemma lower_char_r c : lower_char c = "r"%char -> c = "r"%char \/ c = "R"%char.
Proof. ascii_cases c. Qed.

Lemma lower_char_s c : lower_char c = "s"%char -> c = "s"%char \/ c = "S"%char.
Proof. ascii_cases c. Qed.

Lemma lower_char_c c : lower_char c = "c"%char -> c = "c"%char \/ c = "C"%char.
Proof. ascii_cases c. Qed.

Lemma lower_char_underscore c : lower_char c = "_"%char -> c = "_"%char.
Proof. ascii_cases c. Qed.

Lemma lower_rs (m : string) : lower m = "rs_" <-> In m rs_variants.
Proof.
  split.
  - destruct m as [|a [|b [|c [|d m]]]]; simpl; try discriminate.
    intros H. injection H as Ha Hb Hc.
    apply lower_char_r in Ha. apply lower_char_s in Hb.
    apply lower_char_underscore in Hc. subst c.
    destruct Ha as [-> | ->], Hb as [-> | ->]; auto.
  - simpl. intros [<-|[<-|[<-|[<-|[]]]]]; reflexivity.
Qed.

Lemma lower_rc (m : string) : lower m = "rc_" <-> In m rc_variants.
Proof.
  split.
  - destruct m as [|a [|b [|c [|d m]]]]; simpl; try discriminate.
    intros H. injection H as Ha Hb Hc.
    apply lower_char_r in Ha. apply lower_char_c in Hb.
    apply lower_char_underscore in Hc. subst c.
    destruct Ha as [-> | ->], Hb as [-> | ->]; auto.
  - simpl. intros [<-|[<-|[<-|[<-|[]]]]]; reflexivity.
Qed.

Lemma contains_lower_iff (pat : string) (variants : list string) (s : string) :
  (forall m, lower m = pat <-> In m variants) ->
  contains pat (lower s) = true <-> occurs_any variants s.
Proof.
  intros Hv. rewrite contains_true_iff. split.
  - intros (x & y & H). apply lower_split in H as (a & b & -> & _ & Hb).
    apply lower_split in Hb as (m & c & -> & Hm & _).
    exists a, m, c. split; [reflexivity | apply Hv, Hm].
  - intros (a & m & c & -> & Hm). apply Hv in Hm.
    exists (lower a), (lower c). rewrite !lower_append, Hm. reflexivity.
Qed.

Lemma not_true_false (b : bool) : ~ b = true -> b = false.
Proof. destruct b; congruence. Qed.


(** ** Reading the checkpoint line back *)

Lemma all_chars_append f (a b : string) :
  all_chars f (a +:+ b) = all_chars f a && all_chars f b.
Proof. induction a; str; [reflexivity|]. rewrite IHa. apply andb_assoc. Qed.

Lemma all_chars_impl (f g : ascii -> bool) (s : string) :
  (forall c, f c = true -> g c = true) ->
  all_chars f s = true -> all_chars g s = true.
Proof.
  intros H. induction s as [|c s IH]; simpl; [reflexivity|].
  rewrite !andb_true_iff. intros [Hc Hs]. auto.
Qed.

Lemma readline_line (a rest : string) :
  all_chars (fun c => negb (Ascii.eqb c LF || Ascii.eqb c CR)) a = true ->
  readline (a +:+ nl +:+ rest) = a +:+ nl.
Proof.
  induction a as [|c a IH]; str; [reflexivity|].
  rewrite andb_true_iff, negb_true_iff. intros [-> Ha].
  rewrite (IH Ha). reflexivity.
Qed.

Lemma rstrip_plain (s : string) :
  all_chars (fun c => negb (is_space c)) s = true -> rstrip s = s.
Proof.
  induction s as [|c s IH]; simpl; [reflexivity|].
  rewrite andb_true_iff, negb_true_iff. intros [-> Hs].
  rewrite (IH Hs). reflexivity.
Qed.

Lemma rstrip_append (a b : string) :
  is_empty (rstrip b) = false -> rstrip (a +:+ b) = a +:+ rstrip b.
Proof.
  intros Hb. induction a as [|c a IH]; str; [reflexivity|].
  rewrite IH. destruct (a +:+ rstrip b) eqn:E.
  - destruct a; str. rewrite E in Hb. discriminate.
  - simpl. rewrite andb_false_r. reflexivity.
Qed.

Lemma rstrip_append_blank (a b : string) :
  rstrip b = "" -> rstrip (a +:+ b) = rstrip a.
Proof.
  intros Hb. induction a as [|c a IH]; str; [exact Hb|].
  rewrite IH. reflexivity.
Qed.

Lemma split_plain sep (s : string) :
  all_chars (fun c => negb (Ascii.eqb c sep)) s = true -> split sep s = [s].
Proof.
  induction s as [|c s IH]; simpl; [reflexivity|].
  rewrite andb_true_iff, negb_true_iff. intros [-> Hs].
  rewrite (IH Hs). reflexivity.
Qed.

Lemma split_append sep (a b : string) :
  all_chars (fun c => negb (Ascii.eqb c sep)) a = true ->
  split sep (a +:+ String sep b) = a :: split sep b.
Proof.
  induction a as [|c a IH]; str.
  - intros _. rewrite Ascii.eqb_refl. reflexivity.
  - rewrite andb_true_iff, negb_true_iff. intros [-> Ha].
    rewrite (IH Ha). reflexivity.
Qed.

Lemma digit_plain c :
  is_digit c = true ->
  is_space c = false /\ is_separator c = false
  /\ Ascii.eqb c "_" = false /\ Ascii.eqb c "-" = false /\ Ascii.eqb c "+" = false.
Proof. ascii_cases c. Qed.

Lemma uint_digits (d : Decimal.uint) :
  all_chars is_digit (NilEmpty.string_of_uint d) = true.
Proof. induction d; simpl; auto. Qed.

Lemma uint_digits_zero (d : Decimal.uint) :
  all_chars is_digit (NilZero.string_of_uint d) = true
  /\ is_empty (NilZero.string_of_uint d) = false.
Proof. destruct d; simpl; rewrite ?uint_digits; auto. Qed.

Lemma literal_digits_plain (s : string) :
  all_chars is_digit s = true -> literal_digits true s = Some s.
Proof.
  induction s as [|c s IH]; simpl; [reflexivity|].
  rewrite andb_true_iff. intros [-> Hs]. rewrite (IH Hs). reflexivity.
Qed.

Lemma unsigned_literal_uint (d : Decimal.uint) :
  unsigned_literal (NilZero.string_of_uint d) = Some (Z.of_uint d).
Proof.
  assert (Hne : forall u, u <> Decimal.Nil ->
            unsigned_literal (NilEmpty.string_of_uint u) = Some (Z.of_uint u)).
  { intros u Hu. unfold unsigned_literal.
    pose proof (uint_digits u) as Hd.
    destruct (NilEmpty.string_of_uint u) as [|c r] eqn:E.
    - destruct u; simpl in E; congruence.
    - simpl in Hd |- *. apply andb_true_iff in Hd as [Hc Hr].
      rewrite Hc, (literal_digits_plain _ Hr).
      change (String c <$> Some r) with (Some (String c r)). cbv beta iota.
      rewrite <- E, NilEmpty.usu. reflexivity. }
  destruct d; try (apply Hne; discriminate). reflexivity.
Qed.

Lemma int_strip_plain (s : string) :
  all_chars (fun c => negb (is_space c)) s = true ->
  int_rstrip (int_lstrip s) = s.
Proof.
  assert (Hsp : forall c, is_space c = false -> is_int_space c = false)
    by (intros c; ascii_cases c).
  assert (Hr : forall r, all_chars (fun c => negb (is_space c)) r = true ->
                         int_rstrip r = r).
  { induction r as [|c r IH]; simpl; [reflexivity|].
    rewrite andb_true_iff, negb_true_iff. intros [Hc Hs].
    rewrite (Hsp c Hc), (IH Hs). reflexivity. }
  intros H. destruct s as [|c r]; [reflexivity|].
  pose proof H as H'. simpl in H'. apply andb_true_iff in H' as [Hc _].
  apply negb_true_iff in Hc. cbn [int_lstrip]. rewrite (Hsp c Hc). apply Hr, H.
Qed.

Lemma strip_plain (s : string) :
  all_chars (fun c => negb (is_space c)) s = true -> strip s = s.
Proof.
  intros H. unfold strip. destruct s as [|c r]; [reflexivity|].
  pose proof H as H'. simpl in H'. apply andb_true_iff in H' as [Hc _].
  apply negb_true_iff in Hc. simpl. rewrite Hc. apply rstrip_plain, H.
Qed.

Lemma digits_no_space (s : string) :
  all_chars is_digit s = true -> all_chars (fun c => negb (is_space c)) s = true.
Proof.
  apply all_chars_impl. intros c Hc.
  destruct (digit_plain c Hc) as [-> _]. reflexivity.
Qed.

Lemma int_of_digits (s : string) :
  all_chars is_digit s = true -> int s = unsigned_literal s.
Proof.
  intros H. unfold int. rewrite (int_strip_plain _ (digits_no_space _ H)).
  destruct s as [|c r]; [reflexivity|].
  simpl in H. apply andb_true_iff in H as [Hc _].
  destruct (digit_plain c Hc) as (_ & _ & _ & Hm & Hp).
  revert Hm Hp. destruct c as [[] [] [] [] [] [] [] []]; vm_compute; congruence.
Qed.

Lemma int_str_int (n : Z) : int (str_int n) = Some n.
Proof.
  unfold str_int. rewrite <- (DecimalZ.of_to n) at 2.
  destruct (Z.to_int n) as [d|d]; simpl.
  - destruct (uint_digits_zero d) as [Hd _].
    rewrite (int_of_digits _ Hd), unsigned_literal_uint. reflexivity.
  - destruct (uint_digits_zero d) as [Hd _]. unfold int.
    rewrite int_strip_plain.
    + rewrite unsigned_literal_uint. reflexivity.
    + simpl. apply digits_no_space, Hd.
Qed.

(** The text of an integer has no white space and no separator, and is
    not empty. *)
Lemma str_int_plain (n : Z) :
  all_chars (fun c => negb (is_space c)) (str_int n) = true
  /\ all_chars (fun c => negb (is_separator c)) (str_int n) = true
  /\ is_empty (str_int n) = false.
Proof.
  unfold str_int.
  assert (H : forall d,
             all_chars (fun c => negb (is_space c)) (NilZero.string_of_uint d) = true
             /\ all_chars (fun c => negb (is_separator c)) (NilZero.string_of_uint d) = true
             /\ is_empty (NilZero.string_of_uint d) = false).
  { intros d. destruct (uint_digits_zero d) as [Hd He]. repeat split; auto.
    - apply digits_no_space, Hd.
    - revert Hd. apply all_chars_impl. intros c Hc.
      destruct (digit_plain c Hc) as (_ & -> & _). reflexivity. }
  destruct (Z.to_int n) as [d|d]; simpl.
  - apply H.
  - destruct (H d) as (H1 & H2 & _). rewrite H1, H2. auto.
Qed.

Lemma separator_weaken (f : ascii -> bool) (s : string) :
  (forall c, is_separator c = false -> f c = true) ->
  all_chars (fun c => negb (is_separator c)) s = true -> all_chars f s = true.
Proof.
  intros H. apply all_chars_impl. intros c Hc. apply H, negb_true_iff, Hc.
Qed.

Lemma separator_cases c :
  is_separator c = false ->
  negb (Ascii.eqb c LF || Ascii.eqb c CR) = true
  /\ negb (Ascii.eqb c TAB) = true.
Proof.
  unfold is_separator. destruct (Ascii.eqb c TAB), (Ascii.eqb c LF), (Ascii.eqb c CR);
    simpl; auto; discriminate.
Qed.

(** The line [save_progress] writes is read back as its two fields. *)
Lemma parse_progress_line (path : string) (n : Z) (rest : string) :
  checkpointable path = true ->
  strip (readline (progress_line path n +:+ rest)) = path +:+ tab +:+ str_int n
  /\ split TAB (path +:+ tab +:+ str_int n) = [path; str_int n].
Proof.
  intros Hp. destruct (str_int_plain n) as (Hsp & Hsep & Hne).
  assert (Hpath : no_separator path = true /\ exists c r, path = String c r /\ is_space c = false).
  { unfold checkpointable in Hp. destruct path as [|c r]; [discriminate|].
    apply andb_true_iff in Hp as [Hc Hs]. apply negb_true_iff in Hc. eauto. }
  destruct Hpath as (Hns & c & r & Epath & Hc). unfold no_separator in Hns.
  split.
  - unfold progress_line.
    replace ((path +:+ tab +:+ str_int n +:+ nl) +:+ rest)
      with ((path +:+ tab +:+ str_int n) +:+ nl +:+ rest)
      by (rewrite !append_assoc; reflexivity).
    rewrite readline_line.
    + unfold strip.
      assert (El : lstrip ((path +:+ tab +:+ str_int n) +:+ nl)
                   = (path +:+ tab +:+ str_int n) +:+ nl).
      { rewrite Epath. str. rewrite Hc. reflexivity. }
      rewrite El. rewrite rstrip_append_blank by reflexivity.
      rewrite <- append_assoc. rewrite rstrip_append.
      * rewrite (rstrip_plain _ Hsp). reflexivity.
      * rewrite (rstrip_plain _ Hsp). exact Hne.
    + rewrite !all_chars_append, !andb_true_iff. repeat split.
      * revert Hns. apply separator_weaken. intros d Hd.
        apply (separator_cases d Hd).
      * revert Hsep. apply separator_weaken. intros d Hd.
        apply (separator_cases d Hd).
  - unfold tab. rewrite append_cons, append_nil_l, split_append.
    + rewrite split_plain; [reflexivity|].
      revert Hsep. apply separator_weaken. intros d Hd. apply (separator_cases d Hd).
    + revert Hns. apply separator_weaken. intros d Hd. apply (separator_cases d Hd).
Qed.

(** ** The monad *)

Lemma bind_ok {S A B} (m : M S A) (k : A -> M S B) s s' a :
  m s = (s', Ok a) -> bind m k s = k a s'.
Proof. unfold bind. intros ->. reflexivity. Qed.

Lemma bind_raise {S A B} (m : M S A) (k : A -> M S B) s s' e :
  m s = (s', Raise e) -> bind m k s = (s', Raise e).
Proof. unfold bind. intros ->. reflexivity. Qed.

Lemma bind_ext {S A B} (m : M S A) (k1 k2 : A -> M S B) s :
  (forall a s', k1 a s' = k2 a s') -> bind m k1 s = bind m k2 s.
Proof. intros H. unfold bind. destruct (m s) as [s' [a|e]]; auto. Qed.


(** ** Files *)

Lemma open_write_absent path mode w :
  fs w !! path = None ->
  open_write path mode w
  = (World (<[path := File true []]> (fs w)) (trace w ++ [EvOpen path mode]), Ok tt).
Proof. intros H. unfold open_write, bind; simpl. rewrite H. reflexivity. Qed.

Lemma open_append_present path w d :
  fs w !! path = Some (File true d) ->
  open_write path ModeA w = (World (fs w) (trace w ++ [EvOpen path ModeA]), Ok tt).
Proof. intros H. unfold open_write, bind; simpl. rewrite H. reflexivity. Qed.

Lemma open_truncate_present path w d :
  fs w !! path = Some (File true d) ->
  open_write path ModeW w
  = (World (<[path := File true []]> (fs w)) (trace w ++ [EvOpen path ModeW]), Ok tt).
Proof. intros H. unfold open_write, bind; simpl. rewrite H. reflexivity. Qed.

Lemma open_write_refused path mode w :
  ~ writable_at w path ->
  exists e, open_write path mode w
            = (World (fs w) (trace w ++ [EvOpen path mode]), Raise e).
Proof.
  unfold writable_at, open_write, bind; simpl. intros H.
  destruct (fs w !! path) as [[|[] d]|]; try (exfalso; apply H; exact I);
    eexists; reflexivity.
Qed.

(** Opening for append keeps what the file holds and makes it present. *)
Lemma open_append_ok path w :
  writable_at w path ->
  open_write path ModeA w
  = (World (<[path := File true (file_data w path)]> (fs w))
           (trace w ++ [EvOpen path ModeA]), Ok tt).
Proof.
  unfold writable_at, file_data. intros H.
  destruct (fs w !! path) as [[|[] d]|] eqn:E; try contradiction.
  - rewrite (open_append_present _ _ _ E). rewrite insert_id by exact E. reflexivity.
  - apply open_write_absent, E.
Qed.

Lemma open_truncate_ok path w :
  writable_at w path ->
  open_write path ModeW w
  = (World (<[path := File true []]> (fs w)) (trace w ++ [EvOpen path ModeW]), Ok tt).
Proof.
  unfold writable_at. intros H.
  destruct (fs w !! path) as [[|[] d]|] eqn:E; try contradiction.
  - apply (open_truncate_present _ _ _ E).
  - apply open_write_absent, E.
Qed.

Lemma fwrite_inserted path c m t d :
  fwrite path c (World (<[path := File true d]> m) t)
  = (World (<[path := File true (d ++ [c])]> m) (t ++ [EvWrite path c]), Ok tt).
Proof. unfold fwrite; simpl. rewrite alter_insert_eq. reflexivity. Qed.


(** ** What code adds to the trace *)

Lemma emits_silent {S A} (tr : S -> list event) C (m : M S A) :
  (forall s, tr (fst (m s)) = tr s) -> emits tr C m.
Proof. intros H s. exists []. rewrite H, app_nil_r. auto. Qed.

Lemma emits_ret {S A} (tr : S -> list event) C (a : A) : emits tr C (ret a).
Proof. apply emits_silent. reflexivity. Qed.

Lemma emits_raise {S A} (tr : S -> list event) C e : emits tr C (@raise S A e).
Proof. apply emits_silent. reflexivity. Qed.

Lemma emits_bind {S A B} (tr : S -> list event) C (m : M S A) (k : A -> M S B) :
  emits tr C m -> (forall a, emits tr C (k a)) -> emits tr C (bind m k).
Proof.
  intros Hm Hk s. unfold bind. destruct (Hm s) as (n1 & E1 & F1).
  destruct (m s) as [s' [a|e]]; simpl in *.
  - destruct (Hk a s') as (n2 & E2 & F2). exists (n1 ++ n2).
    rewrite E2, E1, app_assoc. split; [reflexivity|]. apply Forall_app; auto.
  - exists n1. auto.
Qed.

Lemma emits_try {S A} (tr : S -> list event) C (m : M S A) (h : exn -> M S A) :
  emits tr C m -> (forall e, emits tr C (h e)) -> emits tr C (try_except m h).
Proof.
  intros Hm Hh s. unfold try_except. destruct (Hm s) as (n1 & E1 & F1).
  destruct (m s) as [s' [a|e]]; simpl in *.
  - exists n1. auto.
  - destruct (Hh e s') as (n2 & E2 & F2). exists (n1 ++ n2).
    rewrite E2, E1, app_assoc. split; [reflexivity|]. apply Forall_app; auto.
Qed.

Lemma emits_weaken {S A} (tr : S -> list event) (C D : event -> Prop) (m : M S A) :
  (forall ev, C ev -> D ev) -> emits tr C m -> emits tr D m.
Proof.
  intros H Hm s. destruct (Hm s) as (n & E & F). exists n. split; [exact E|].
  eapply Forall_impl; [exact F | exact H].
Qed.

Lemma emits_lift {A} C (m : M world A) :
  emits trace C m -> emits ptrace C (lift_world m).
Proof.
  intros Hm [sw w]. unfold lift_world, ptrace; simpl.
  destruct (Hm w) as (n & E & F). destruct (m w) as [w' r]; simpl in *. eauto.
Qed.

Lemma emits_one {S A} (tr : S -> list event) (C : event -> Prop) (m : M S A) ev :
  C ev -> (forall s, tr (fst (m s)) = tr s ++ [ev]) -> emits tr C m.
Proof. intros HC H s. exists [ev]. rewrite H. auto. Qed.

Lemma emits_open_write path mode : emits trace plain (open_write path mode).
Proof.
  intros w. exists [EvOpen path mode]. split.
  - unfold open_write, bind; simpl.
    destruct (fs w !! path) as [[|[] d]|]; try destruct mode; reflexivity.
  - repeat constructor.
Qed.

Lemma emits_fwrite C path c : C (EvWrite path c) -> emits trace C (fwrite path c).
Proof. intros H. apply (emits_one _ _ _ _ H). reflexivity. Qed.

Lemma emits_save_progress cfg path i : emits trace plain (save_progress cfg path i).
Proof.
  unfold save_progress. apply emits_bind; [apply emits_open_write|].
  intros _. apply emits_fwrite. split; exact I.
Qed.

Lemma emits_log_error cfg path i e : emits trace no_json_write (log_error cfg path i e).
Proof.
  unfold log_error. apply emits_bind.
  - apply (emits_weaken _ plain); [intros ev [H _]; exact H|apply emits_open_write].
  - intros _. apply emits_bind; [apply emits_fwrite; exact I|].
    intros _. apply emits_fwrite. exact I.
Qed.

Lemma emits_get_self C : emits ptrace C get_self.
Proof. apply emits_silent. reflexivity. Qed.

Lemma emits_set_self C sw : emits ptrace C (set_self sw).
Proof. apply emits_silent. reflexivity. Qed.

Lemma emits_open_new_file cfg : emits ptrace plain (SplitWriter_open_new_file cfg).
Proof.
  unfold SplitWriter_open_new_file.
  apply emits_bind; [apply emits_get_self|]. intros self.
  apply emits_bind.
  - destruct (out self); [apply emits_set_self | apply emits_ret].
  - intros _. apply emits_bind; [apply emits_get_self|]. intros self'.
    apply emits_bind; [apply emits_lift, emits_open_write|].
    intros _. apply emits_set_self.
Qed.

Lemma emits_write cfg row : emits ptrace no_traceback (SplitWriter_write cfg row).
Proof.
  unfold SplitWriter_write.
  apply emits_bind; [apply emits_get_self|]. intros self.
  apply emits_bind.
  - destruct (out self) as [fo|]; [|apply emits_raise].
    destruct (fo_closed fo); [apply emits_raise|].
    apply emits_lift, emits_fwrite. exact I.
  - intros _. apply emits_bind; [apply emits_set_self|].
    intros _. apply emits_bind; [apply emits_get_self|]. intros self'.
    destruct (_ <=? _); [|apply emits_ret].
    apply (emits_weaken _ plain); [intros ev [_ H]; exact H|].
    apply emits_open_new_file.
Qed.

Lemma emits_try_body cfg path i row :
  emits ptrace no_traceback (try_body cfg path i row).
Proof.
  unfold try_body. apply emits_bind.
  - apply emits_silent. reflexivity.
  - intros s. destruct (bool_decide _); [|apply emits_ret].
    apply emits_bind; [apply emits_write|]. intros _.
    destruct (_ =? _); [|apply emits_ret].
    apply emits_lift, (emits_weaken _ plain); [intros ev [_ H]; exact H|].
    apply emits_save_progress.
Qed.

Lemma json_writes_app t1 t2 : json_writes (t1 ++ t2) = json_writes t1 ++ json_writes t2.
Proof. apply omap_app. Qed.

Lemma json_writes_none new : Forall no_json_write new -> json_writes new = [].
Proof.
  induction 1 as [|ev new Hev _ IH]; [reflexivity|].
  change (ev :: new) with ([ev] ++ new). rewrite json_writes_app, IH.
  destruct ev as [| |? []]; simpl in *; try reflexivity; contradiction.
Qed.

Lemma error_entries_app cfg t1 t2 :
  error_entries cfg (t1 ++ t2) = error_entries cfg t1 ++ error_entries cfg t2.
Proof. apply omap_app. Qed.

Lemma error_entries_none cfg new :
  Forall no_traceback new -> error_entries cfg new = [].
Proof.
  induction 1 as [|ev new Hev _ IH]; [reflexivity|].
  change (ev :: new) with ([ev] ++ new). rewrite error_entries_app, IH.
  destruct ev as [| |? []]; simpl in *; try reflexivity; contradiction.
Qed.

(** ** The filter *)

Lemma subreddit_of_dict items :
  subreddit_of (JDict items)
  = match dict_get "subreddit" (JStr "") items with
    | JStr s => Ok (lower s)
    | v => Raise (AttributeError
                    (quoted (type_name v) +:+ " object has no attribute 'lower'"))
    end.
Proof. reflexivity. Qed.

Lemma category_matches_iff cfg row :
  "" ∉ target_subreddits cfg ->
  category_matches cfg row <-> row_matches cfg row = true.
Proof.
  intros Hempty. unfold row_matches. split.
  - intros (items & s & -> & Hget & Hin). rewrite subreddit_of_dict.
    unfold dict_get. rewrite Hget. apply bool_decide_eq_true_2, Hin.
  - destruct row; try discriminate. rewrite subreddit_of_dict. unfold dict_get.
    destruct (dict_lookup "subreddit" items) as [[]|] eqn:E; try discriminate.
    + intros H. apply bool_decide_eq_true_1 in H. exists items, s. auto.
    + intros H. apply bool_decide_eq_true_1 in H. contradiction.
Qed.

Lemma try_except_bind {S A B} (m : M S A) (k : A -> M S B) h s :
  try_except (bind m k) h s
  = match m s with
    | (s', Ok a) => try_except (k a) h s'
    | (s', Raise e) => h e s'
    end.
Proof. unfold try_except, bind. destruct (m s) as [s' [a|e]]; reflexivity. Qed.

Lemma handle_row_filtered cfg path i row t s :
  subreddit_of row = Ok t -> t ∉ target_subreddits cfg ->
  try_body cfg path i row s = (s, Ok tt)
  /\ handle_row cfg path i row s = (s, Ok tt).
Proof.
  intros Hs Ht.
  assert (E : try_body cfg path i row s = (s, Ok tt)).
  { unfold try_body, bind, lift_result. rewrite Hs.
    rewrite bool_decide_eq_false_2 by exact Ht. reflexivity. }
  split; [exact E|]. unfold handle_row, try_except. rewrite E. reflexivity.
Qed.

Lemma handle_row_malformed cfg path i row e s :
  subreddit_of row = Raise e ->
  try_body cfg path i row s = (s, Raise e)
  /\ handle_row cfg path i row s = lift_world (log_error cfg path i e) s.
Proof.
  intros Hs.
  assert (E : try_body cfg path i row s = (s, Raise e)).
  { unfold try_body, bind, lift_result. rewrite Hs. reflexivity. }
  split; [exact E|]. unfold handle_row, try_except. rewrite E. reflexivity.
Qed.

(** A write on an open shard records the row first; what follows (the
    rotation) adds plain events only. *)
Lemma write_records_row cfg row sw w fo :
  out sw = Some fo -> fo_closed fo = false ->
  exists new,
    ptrace (fst (SplitWriter_write cfg row (sw, w)))
    = (trace w ++ [EvWrite (fo_path fo) (JsonLine row)]) ++ new
    /\ Forall plain new.
Proof.
  intros Hout Hopen. unfold SplitWriter_write, bind, get_self; simpl.
  rewrite Hout, Hopen. unfold lift_world, fwrite, set_self; simpl.
  destruct (_ <=? _).
  - match goal with |- context [SplitWriter_open_new_file cfg ?s] =>
      destruct (emits_open_new_file cfg s) as (new & E & F) end.
    exists new. split; [exact E | exact F].
  - exists []. rewrite app_nil_r. split; [reflexivity | constructor].
Qed.


(** ** The shard writer *)

Lemma open_new_file_ok cfg sw w :
  writable_at w (shard_name cfg (prefix sw) (file_index sw)) ->
  SplitWriter_open_new_file cfg (sw, w)
  = ((MkSplitWriter (prefix sw) (file_index sw + 1) 0
        (Some (FileObj (shard_name cfg (prefix sw) (file_index sw)) false)),
      World (<[shard_name cfg (prefix sw) (file_index sw) :=
                 File true (file_data w (shard_name cfg (prefix sw) (file_index sw)))]>
               (fs w))
            (trace w ++ [EvOpen (shard_name cfg (prefix sw) (file_index sw)) ModeA])),
     Ok tt).
Proof.
  intros H. unfold SplitWriter_open_new_file, bind, get_self, set_self, lift_world.
  destruct sw as [pre idx rc [fo|]]; simpl in *;
    rewrite (open_append_ok _ _ H); reflexivity.
Qed.

Lemma write_ok cfg row sw w p d :
  out sw = Some (FileObj p false) -> fs w !! p = Some (File true d) ->
  SplitWriter_write cfg row (sw, w)
  = (if rows_per_file cfg <=? row_count sw + 1
     then SplitWriter_open_new_file cfg
     else ret tt)
      (MkSplitWriter (prefix sw) (file_index sw) (row_count sw + 1) (out sw),
       World (<[p := File true (d ++ [JsonLine row])]> (fs w))
             (trace w ++ [EvWrite p (JsonLine row)])).
Proof.
  intros Hout Hp. unfold SplitWriter_write, bind, get_self, set_self, lift_world, fwrite.
  simpl. rewrite Hout. simpl. rewrite (alter_alt_Some _ _ _ _ Hp). simpl.
  destruct (_ <=? _); reflexivity.
Qed.

Lemma writable_at_insert m p q n t :
  writable_at (World m []) q -> (p = q -> exists d, n = File true d) ->
  writable_at (World (<[p := n]> m) t) q.
Proof.
  unfold writable_at; simpl. intros H Hn.
  destruct (decide (p = q)) as [E|E].
  - destruct (Hn E) as [d ->]. subst. rewrite lookup_insert_eq. exact I.
  - rewrite lookup_insert_ne by exact E. exact H.
Qed.

Lemma writable_at_fs w q : writable_at w q -> writable_at (World (fs w) []) q.
Proof. intros H. exact H. Qed.

Ltac still_writable :=
  repeat (apply writable_at_insert;
          [|first [congruence | intros _; eexists; reflexivity]]);
  first [assumption | apply writable_at_fs; assumption].

Section Properties.
Context {ext : Externals}.

(** ** File classification *)

Lemma detect_submission path :
  occurs_any rs_variants (basename path) <-> detect_file_type path = "submission".
Proof.
  unfold detect_file_type.
  rewrite <- (contains_lower_iff "rs_" rs_variants _ lower_rs).
  destruct (contains "rs_" _); [tauto|].
  destruct (contains "rc_" _); split; discriminate.
Qed.

(** C7.  Classification depends on the base name only; a base name that
    contains rs_ in any mix of cases is a submission file, otherwise one
    that contains rc_ is a comment file, otherwise the file is unknown;
    and [processFile] leaves an unknown file alone: it prints the notice
    and opens nothing. *)
Theorem classification_by_base_name :
  (forall p q, basename p = basename q -> detect_file_type p = detect_file_type q)
  /\ (forall p, occurs_any rs_variants (basename p) ->
                detect_file_type p = "submission")
  /\ (forall p, ~ occurs_any rs_variants (basename p) ->
                occurs_any rc_variants (basename p) ->
                detect_file_type p = "comment")
  /\ (forall p, ~ occurs_any rs_variants (basename p) ->
                ~ occurs_any rc_variants (basename p) ->
                detect_file_type p = "unknown")
  /\ (forall cfg p start_row w,
        detect_file_type p = "unknown" ->
        processFile cfg p start_row w
        = (World (fs w)
                 (trace w ++ [EvPrint ("Skipping " +:+ p +:+ " (not RC_ or RS_)")]),
           Ok tt)).
Proof.
  split; [|split; [|split; [|split]]].
  - intros p q H. unfold detect_file_type. rewrite H. reflexivity.
  - intros p H. apply detect_submission, H.
  - intros p Hrs Hrc. unfold detect_file_type.
    rewrite <- (contains_lower_iff "rs_" rs_variants _ lower_rs) in Hrs.
    rewrite <- (contains_lower_iff "rc_" rc_variants _ lower_rc) in Hrc.
    apply not_true_false in Hrs. rewrite Hrs, Hrc. reflexivity.
  - intros p Hrs Hrc. unfold detect_file_type.
    rewrite <- (contains_lower_iff "rs_" rs_variants _ lower_rs) in Hrs.
    rewrite <- (contains_lower_iff "rc_" rc_variants _ lower_rc) in Hrc.
    apply not_true_false in Hrs, Hrc. rewrite Hrs, Hrc. reflexivity.
  - intros cfg p k w H. unfold processFile. rewrite H. reflexivity.
Qed.

(** ** Resuming *)

Lemma folder_loop_started cfg sf k listing w :
  folder_loop cfg sf k true listing w = processFolder cfg listing None 0 w.
Proof.
  unfold processFolder. revert w.
  induction listing as [|f rest IH]; intros w; simpl; [reflexivity|].
  apply bind_ext. intros _ w'. apply IH.
Qed.

Lemma folder_loop_waiting cfg sf k listing w :
  (forall f, In f listing -> abspath f <> abspath sf) ->
  folder_loop cfg (Some sf) k false listing w = (w, Ok tt).
Proof.
  induction listing as [|f rest IH]; intros H; simpl; [reflexivity|].
  destruct (String.eqb_spec (abspath f) (abspath sf)) as [E|_].
  - exfalso. apply (H f); [left; reflexivity | exact E].
  - apply IH. intros g Hg. apply H. right. exact Hg.
Qed.

Lemma folder_loop_resume cfg sf k pre F post w :
  (forall f, In f pre -> abspath f <> abspath sf) ->
  abspath F = abspath sf ->
  folder_loop cfg (Some sf) k false (pre ++ F :: post) w
  = (processFile cfg F k ;; processFolder cfg post None 0) w.
Proof.
  intros Hpre HF. induction pre as [|f pre IH]; simpl.
  - rewrite HF, String.eqb_refl. apply bind_ext. intros _ w'.
    apply folder_loop_started.
  - destruct (String.eqb_spec (abspath f) (abspath sf)) as [E|_].
    + exfalso. apply (Hpre f); [left; reflexivity | exact E].
    + apply IH. intros g Hg. apply Hpre. right. exact Hg.
Qed.

Lemma rows_loop_skip cfg path k i rows s :
  i <= k ->
  rows_loop cfg path k i rows s
  = rows_loop cfg path k k (drop (Z.to_nat (k - i)) rows) s.
Proof.
  revert i. induction rows as [|row rest IH]; intros i Hi.
  - rewrite drop_nil. reflexivity.
  - destruct (Z.eq_dec i k) as [->|Hne].
    + rewrite Z.sub_diag. reflexivity.
    + replace (Z.to_nat (k - i)) with (S (Z.to_nat (k - (i + 1)))) by lia.
      simpl. destruct (Z.ltb_spec i k) as [_|Hge]; [|lia].
      apply IH. lia.
Qed.

(** C10.  When no listed file is the one the checkpoint names, the
    folder loop processes nothing: it returns with the world as it
    found it, whatever the listing holds. *)
Theorem stale_checkpoint_processes_nothing cfg listing sf k w :
  (forall f, In f listing -> abspath f <> abspath sf) ->
  processFolder cfg listing (Some sf) k w = (w, Ok tt).
Proof. intros H. apply folder_loop_waiting, H. Qed.

(** ** Error log *)

Lemma log_error_ok cfg file i e w :
  writable_at w (error_log_file cfg) ->
  log_error cfg file i e w
  = (World (<[error_log_file cfg :=
                File true (file_data w (error_log_file cfg)
                           ++ [Text (error_header file i e); Traceback e])]> (fs w))
           (trace w ++ [EvOpen (error_log_file cfg) ModeA;
                        EvWrite (error_log_file cfg) (Text (error_header file i e));
                        EvWrite (error_log_file cfg) (Traceback e)]),
     Ok tt).
Proof.
  intros H. unfold log_error.
  rewrite (bind_ok _ _ _ _ _ (open_append_ok _ _ H)).
  rewrite (bind_ok _ _ _ _ _ (fwrite_inserted _ _ _ _ _)).
  rewrite fwrite_inserted. rewrite <- !app_assoc. reflexivity.
Qed.

(** C9, as the code has it.  When the error log is absent or a regular
    file that may be written, [log_error] appends one entry, a header
    line and the trace of the exception, and returns; in any other state
    of that file the exception of [open] leaves [log_error] and nothing
    is appended. *)
Theorem log_error_appends_or_propagates cfg file i e w :
  (writable_at w (error_log_file cfg) ->
   exists w',
     log_error cfg file i e w = (w', Ok tt)
     /\ file_data w' (error_log_file cfg)
        = file_data w (error_log_file cfg)
          ++ [Text (error_header file i e); Traceback e]
     /\ forall p, p <> error_log_file cfg -> fs w' !! p = fs w !! p)
  /\ (~ writable_at w (error_log_file cfg) ->
      exists e', log_error cfg file i e w
                 = (World (fs w) (trace w ++ [EvOpen (error_log_file cfg) ModeA]),
                    Raise e')).
Proof.
  split; intros H.
  - eexists. split; [apply log_error_ok, H|]. split.
    + unfold file_data at 1; simpl. rewrite lookup_insert_eq. reflexivity.
    + intros p Hp. simpl. apply lookup_insert_ne. congruence.
  - destruct (open_write_refused _ ModeA _ H) as [e' He'].
    exists e'. unfold log_error. apply (bind_raise _ _ _ _ _ He').
Qed.

(** ** Checkpoint *)

Lemma save_progress_ok cfg path n w :
  writable_at w (progress_file cfg) ->
  save_progress cfg path n w
  = (World (<[progress_file cfg := File true [Text (progress_line path n)]]> (fs w))
           (trace w ++ [EvOpen (progress_file cfg) ModeW;
                        EvWrite (progress_file cfg) (Text (progress_line path n))]),
     Ok tt).
Proof.
  intros H. unfold save_progress.
  rewrite (bind_ok _ _ _ _ _ (open_truncate_ok _ _ H)).
  rewrite fwrite_inserted, <- app_assoc. reflexivity.
Qed.

Lemma save_progress_returns cfg path n w w' :
  save_progress cfg path n w = (w', Ok tt) -> writable_at w (progress_file cfg).
Proof.
  intros H. unfold writable_at.
  destruct (fs w !! progress_file cfg) as [[|[] d]|] eqn:E; try exact I.
  - destruct (open_write_refused (progress_file cfg) ModeW w) as [e He].
    + unfold writable_at. rewrite E. auto.
    + unfold save_progress in H. rewrite (bind_raise _ _ _ _ _ He) in H.
      discriminate.
  - destruct (open_write_refused (progress_file cfg) ModeW w) as [e He].
    + unfold writable_at. rewrite E. auto.
    + unfold save_progress in H. rewrite (bind_raise _ _ _ _ _ He) in H.
      discriminate.
Qed.

Lemma load_progress_saved cfg path n m t :
  checkpointable path = true ->
  load_progress cfg
    (World (<[progress_file cfg := File true [Text (progress_line path n)]]> m) t)
  = (World (<[progress_file cfg := File true [Text (progress_line path n)]]> m)
           (t ++ [EvOpen (progress_file cfg) ModeR]),
     Ok (Some path, n)).
Proof.
  intros Hp. destruct (parse_progress_line path n "" Hp) as [Hline Hsplit].
  unfold load_progress, bind, path_exists, open_read, record_open, get_node, bind;
    simpl.
  rewrite lookup_insert_eq.
  rewrite bool_decide_eq_true_2 by eauto. simpl.
  rewrite lookup_insert_eq. unfold ret at 1. cbv beta iota.
  change (text_of [Text (progress_line path n)])
    with (progress_line path n +:+ "").
  rewrite Hline.
  destruct path as [|c r]; [discriminate|].
  rewrite append_cons. cbn [is_empty]. rewrite <- append_cons.
  rewrite Hsplit, int_str_int. reflexivity.
Qed.

(** C8, as the code has it.  For a path the one-line format can carry
    (not empty, no leading white space, no tab, line feed or carriage
    return) and any row ordinal, [load_progress] after a [save_progress]
    that returned gives back that path and ordinal, whatever the
    checkpoint file held before, and the file then holds the one saved
    line; and [load_progress] with no checkpoint file returns
    [(None, 0)]. *)
Theorem checkpoint_round_trip cfg path n w w' :
  checkpointable path = true ->
  save_progress cfg path n w = (w', Ok tt) ->
  load_progress cfg w'
  = (World (fs w') (trace w' ++ [EvOpen (progress_file cfg) ModeR]),
     Ok (Some path, n))
  /\ file_data w' (progress_file cfg) = [Text (progress_line path n)]
  /\ (forall w0, fs w0 !! progress_file cfg = None ->
                 load_progress cfg w0 = (w0, Ok (None, 0))).
Proof.
  intros Hp Hsave.
  pose proof (save_progress_returns _ _ _ _ _ Hsave) as Hw.
  rewrite (save_progress_ok _ _ _ _ Hw) in Hsave. injection Hsave as <-.
  split; [|split].
  - apply load_progress_saved, Hp.
  - unfold file_data; simpl. rewrite lookup_insert_eq. reflexivity.
  - intros w0 H0. unfold load_progress, bind, path_exists.
    rewrite H0. rewrite bool_decide_eq_false_2; [reflexivity|].
    intros [x Hx]. discriminate.
Qed.

(** ** Filter *)

Lemma handler_keeps_rows cfg path i (m : M pstate unit) s :
  emits ptrace no_json_write m ->
  json_writes
    (ptrace (fst (try_except m (fun e => lift_world (log_error cfg path i e)) s)))
  = json_writes (ptrace s).
Proof.
  intros Hm.
  destruct (emits_try ptrace no_json_write m
              (fun e => lift_world (log_error cfg path i e)) Hm
              (fun e => emits_lift _ _ (emits_log_error cfg path i e)) s)
    as (new & E & F).
  rewrite E, json_writes_app, (json_writes_none _ F), app_nil_r. reflexivity.
Qed.

Lemma handle_row_matching cfg path i row t sw w fo :
  subreddit_of row = Ok t -> t ∈ target_subreddits cfg ->
  out sw = Some fo -> fo_closed fo = false ->
  json_writes (ptrace (fst (handle_row cfg path i row (sw, w))))
  = json_writes (trace w) ++ [(fo_path fo, row)].
Proof.
  intros Hs Ht Hout Hopen. unfold handle_row, try_body.
  rewrite try_except_bind. unfold lift_result. rewrite Hs.
  rewrite bool_decide_eq_true_2 by exact Ht. rewrite try_except_bind.
  destruct (write_records_row cfg row sw w fo Hout Hopen) as (new & E & F).
  destruct (SplitWriter_write cfg row (sw, w)) as [s1 [[]|e]]; simpl in E.
  - rewrite handler_keeps_rows.
    + rewrite E, !json_writes_app, (json_writes_none new).
      * rewrite app_nil_r. reflexivity.
      * eapply Forall_impl; [exact F | intros ev [H _]; exact H].
    + destruct (_ =? _); [|apply emits_ret].
      apply emits_lift, (emits_weaken _ plain); [intros ev [H _]; exact H|].
      apply emits_save_progress.
  - destruct (emits_lift _ _ (emits_log_error cfg path i e) s1) as (n2 & E2 & F2).
    rewrite E2, E, !json_writes_app, (json_writes_none n2 F2), (json_writes_none new).
    + rewrite !app_nil_r. reflexivity.
    + eapply Forall_impl; [exact F | intros ev [H _]; exact H].
Qed.

(** The row the loop handles while a shard is open is written to that
    shard, once, exactly when it matches the filter. *)
Lemma handle_row_writes cfg path i row sw w fo :
  out sw = Some fo -> fo_closed fo = false ->
  json_writes (ptrace (fst (handle_row cfg path i row (sw, w))))
  = json_writes (trace w)
    ++ (if row_matches cfg row then [(fo_path fo, row)] else []).
Proof.
  intros Hout Hopen. unfold row_matches.
  destruct (subreddit_of row) as [t|e] eqn:Hs.
  - destruct (decide (t ∈ target_subreddits cfg)) as [Ht|Ht].
    + rewrite bool_decide_eq_true_2 by exact Ht.
      apply (handle_row_matching _ _ _ _ t); assumption.
    + rewrite bool_decide_eq_false_2 by exact Ht.
      destruct (handle_row_filtered cfg path i row t (sw, w) Hs Ht) as [_ ->].
      rewrite app_nil_r. reflexivity.
  - destruct (handle_row_malformed cfg path i row e (sw, w) Hs) as [_ ->].
    destruct (emits_lift _ _ (emits_log_error cfg path i e) (sw, w))
      as (new & E & F).
    rewrite E, json_writes_app, (json_writes_none _ F), !app_nil_r. reflexivity.
Qed.

(** A row without the field is handled without any effect. *)
Lemma handle_row_missing cfg path i row s :
  "" ∉ target_subreddits cfg -> category_missing row ->
  row_matches cfg row = false /\ handle_row cfg path i row s = (s, Ok tt).
Proof.
  intros Hempty (items & -> & Hnone).
  assert (Hs : subreddit_of (JDict items) = Ok "")
    by (rewrite subreddit_of_dict; unfold dict_get; rewrite Hnone; reflexivity).
  split.
  - unfold row_matches. rewrite Hs. apply bool_decide_eq_false_2, Hempty.
  - apply (handle_row_filtered cfg path i _ "" s Hs Hempty).
Qed.

(** ** Error isolation *)

Lemma rows_loop_app cfg path k i a b s :
  rows_loop cfg path k i (a ++ b) s
  = match rows_loop cfg path k i a s with
    | (s', Ok _) => rows_loop cfg path k (i + Z.of_nat (length a)) b s'
    | (s', Raise e) => (s', Raise e)
    end.
Proof.
  revert i s. induction a as [|row a IH]; intros i s.
  - simpl. rewrite Z.add_0_r. reflexivity.
  - change ((row :: a) ++ b) with (row :: (a ++ b)).
    cbn [rows_loop].
    destruct ((if i <? k then ret tt else handle_row cfg path i row) s)
      as [s' [[]|e]] eqn:E.
    + rewrite !(bind_ok _ _ _ _ _ E), IH.
      replace (i + 1 + Z.of_nat (length a))
        with (i + Z.of_nat (length (row :: a))); [reflexivity|].
      cbn [length]. lia.
    + rewrite !(bind_raise _ _ _ _ _ E). reflexivity.
Qed.

Lemma quiet_loop cfg path i rows s :
  0 <= i -> quiet cfg path i rows s ->
  exists s', rows_loop cfg path 0 i rows s = (s', Ok tt)
             /\ error_entries cfg (ptrace s') = error_entries cfg (ptrace s).
Proof.
  revert i s. induction rows as [|row rows IH]; intros i s Hi Hq.
  - exists s. split; reflexivity.
  - simpl in Hq. cbn [rows_loop]. unfold bind.
    destruct (Z.ltb_spec i 0) as [Hlt|_]; [lia|].
    destruct (emits_try_body cfg path i row s) as (new & E & F).
    unfold handle_row, try_except.
    destruct (try_body cfg path i row s) as [s1 [[]|e]]; [|contradiction].
    destruct (IH (i + 1) s1 ltac:(lia) Hq) as (s' & Hloop & Herr).
    exists s'. split; [exact Hloop|].
    simpl in E. rewrite Herr, E, error_entries_app, (error_entries_none _ _ F).
    apply app_nil_r.
Qed.

(** C5.  In a file whose rows [pre] and [post] are handled without an
    exception and whose row [bad], of ordinal [length pre], raises [e]
    while it is handled: when the error log can be opened for append,
    the row is answered by one entry of the error log, made of the
    header with its ordinal and the trace of [e], and by nothing else;
    the loop goes on with the rows of [post] at the ordinals that
    follow, returns without an exception, and the run has added that
    one entry to the error log. *)
Theorem bad_row_is_logged_and_skipped cfg path pre bad post s0 s1 s1' e :
  quiet cfg path 0 pre s0 ->
  rows_loop cfg path 0 0 pre s0 = (s1, Ok tt) ->
  try_body cfg path (Z.of_nat (length pre)) bad s1 = (s1', Raise e) ->
  writable_at (snd s1') (error_log_file cfg) ->
  let n := Z.of_nat (length pre) in
  let s2 : pstate :=
    (fst s1',
     World (<[error_log_file cfg :=
               File true (file_data (snd s1') (error_log_file cfg)
                          ++ [Text (error_header path n e); Traceback e])]>
              (fs (snd s1')))
           (trace (snd s1')
            ++ [EvOpen (error_log_file cfg) ModeA;
                EvWrite (error_log_file cfg) (Text (error_header path n e));
                EvWrite (error_log_file cfg) (Traceback e)])) in
  quiet cfg path (n + 1) post s2 ->
  handle_row cfg path n bad s1 = (s2, Ok tt)
  /\ exists sfin,
       rows_loop cfg path 0 0 (pre ++ bad :: post) s0 = (sfin, Ok tt)
       /\ rows_loop cfg path 0 (n + 1) post s2 = (sfin, Ok tt)
       /\ error_entries cfg (ptrace sfin) = error_entries cfg (ptrace s0) ++ [e].
Proof.
  intros Hpre Hloop Hbad Hlog n s2 Hpost.
  assert (Hrow : handle_row cfg path n bad s1 = (s2, Ok tt)).
  { unfold handle_row, try_except. fold n in Hbad. rewrite Hbad.
    unfold lift_world. rewrite (log_error_ok _ _ _ _ _ Hlog). reflexivity. }
  split; [exact Hrow|].
  destruct (quiet_loop cfg path 0 pre s0 ltac:(lia) Hpre) as (s1x & L1 & E1).
  rewrite Hloop in L1. injection L1 as <-.
  destruct (quiet_loop cfg path (n + 1) post s2 ltac:(lia) Hpost) as (sfin & L2 & E2).
  exists sfin. split; [|split].
  - rewrite rows_loop_app, Hloop. cbn [rows_loop]. unfold bind at 1.
    change (0 + Z.of_nat (length pre)) with n.
    destruct (Z.ltb_spec n 0) as [Hlt|_]; [lia|]. rewrite Hrow. exact L2.
  - exact L2.
  - rewrite E2. unfold s2, ptrace at 1. cbn [snd trace].
    rewrite error_entries_app.
    destruct (emits_try_body cfg path n bad s1) as (new & E & F).
    fold n in Hbad. rewrite Hbad in E. simpl in E. unfold ptrace in E.
    rewrite E, error_entries_app, (error_entries_none _ _ F), app_nil_r.
    unfold ptrace in E1. rewrite E1. f_equal.
    unfold error_entries. simpl. rewrite String.eqb_refl. reflexivity.
Qed.

(** ** Rotation *)

Lemma handle_row_written cfg path i row t s s1 :
  subreddit_of row = Ok t -> t ∈ target_subreddits cfg ->
  SplitWriter_write cfg row s = (s1, Ok tt) ->
  writable_at (snd s1) (progress_file cfg) ->
  handle_row cfg path i row s
  = (if i mod 1000 =? 0
     then (fst s1,
           World (<[progress_file cfg := File true [Text (progress_line path i)]]>
                    (fs (snd s1)))
                 (trace (snd s1)
                  ++ [EvOpen (progress_file cfg) ModeW;
                      EvWrite (progress_file cfg) (Text (progress_line path i))]))
     else s1,
     Ok tt).
Proof.
  intros Hs Ht Hw Hp. unfold handle_row, try_body.
  rewrite try_except_bind. unfold lift_result. rewrite Hs.
  rewrite bool_decide_eq_true_2 by exact Ht. rewrite try_except_bind, Hw.
  destruct (_ =? _); [|reflexivity].
  unfold try_except, lift_world. rewrite (save_progress_ok _ _ _ _ Hp). reflexivity.
Qed.


Section TwoPerShard.
Variables (cfg : config) (path pre p0 p1 : string).
Hypothesis Hcap : rows_per_file cfg = 2.
Hypothesis Hp0 : shard_name cfg pre 0 = p0.
Hypothesis Hp1 : shard_name cfg pre 1 = p1.
Hypothesis Hdistinct : NoDup [p0; p1; error_log_file cfg; progress_file cfg].

Let healthy (s : pstate) : Prop :=
  writable_at (snd s) (error_log_file cfg)
  /\ writable_at (snd s) (progress_file cfg).

Lemma distinct_paths :
  p0 <> p1 /\ p0 <> error_log_file cfg /\ p0 <> progress_file cfg
  /\ p1 <> error_log_file cfg /\ p1 <> progress_file cfg
  /\ error_log_file cfg <> progress_file cfg.
Proof.
  clear healthy. pose proof Hdistinct as H.
  apply NoDup_cons in H as [N0 H]. apply NoDup_cons in H as [N1 H].
  apply NoDup_cons in H as [N2 _].
  apply not_elem_of_cons in N0 as [? N0]. apply not_elem_of_cons in N0 as [? N0].
  apply not_elem_of_cons in N0 as [? _]. apply not_elem_of_cons in N1 as [? N1].
  apply not_elem_of_cons in N1 as [? _]. apply not_elem_of_cons in N2 as [? _].
  auto 10.
Qed.

Lemma filled_step i row done s :
  filled pre p0 p1 done s -> healthy s -> (length done < 3)%nat ->
  row_matches cfg row = true ->
  exists s', handle_row cfg path i row s = (s', Ok tt)
             /\ filled pre p0 p1 (done ++ [row]) s' /\ healthy s'.
Proof.
  destruct distinct_paths as (D01 & D0e & D0p & D1e & D1p & Dep).
  intros Hf [He Hp] Hlen Hm. unfold row_matches in Hm.
  destruct (subreddit_of row) as [t|] eqn:Hs; [|discriminate].
  apply bool_decide_eq_true_1 in Hm.
  destruct s as [sw w]. unfold healthy. simpl in He, Hp.
  destruct done as [|a [|b [|c [|]]]]; simpl in Hlen; try lia;
    destruct Hf as (Hsw & H0 & H1); simpl in Hsw, H0, H1; subst sw.
  - eexists. split; [|split].
    + eapply handle_row_written; eauto.
      * erewrite write_ok by (simpl; eauto). simpl. rewrite Hcap. reflexivity.
      * simpl. still_writable.
    + destruct (_ =? _); simpl; simplify_map_eq; auto.
    + destruct (_ =? _); simpl; split; still_writable.
  - eexists. split; [|split].
    + eapply handle_row_written; eauto.
      * erewrite write_ok by (simpl; eauto). simpl. rewrite Hcap. simpl.
        rewrite open_new_file_ok; simpl; rewrite Hp1.
        -- reflexivity.
        -- unfold writable_at; simpl. rewrite lookup_insert_ne by congruence.
           rewrite H1. exact I.
      * simpl. still_writable.
    + unfold file_data; simpl. rewrite lookup_insert_ne by congruence. rewrite H1.
      destruct (_ =? _); simpl; simplify_map_eq; auto.
    + destruct (_ =? _); simpl; split; still_writable.
  - eexists. split; [|split].
    + eapply handle_row_written; eauto.
      * erewrite write_ok by (simpl; eauto). simpl. rewrite Hcap. reflexivity.
      * simpl. still_writable.
    + destruct (_ =? _); simpl; simplify_map_eq; auto.
    + destruct (_ =? _); simpl; split; still_writable.
Qed.

Lemma filled_keep i row done s :
  filled pre p0 p1 done s -> healthy s ->
  row_matches cfg row = false ->
  exists s', handle_row cfg path i row s = (s', Ok tt)
             /\ filled pre p0 p1 done s' /\ healthy s'.
Proof.
  destruct distinct_paths as (D01 & D0e & D0p & D1e & D1p & Dep).
  intros Hf [He Hp] Hm. unfold row_matches in Hm.
  destruct (subreddit_of row) as [t|e] eqn:Hs.
  - apply bool_decide_eq_false_1 in Hm.
    destruct (handle_row_filtered cfg path i row t s Hs Hm) as [_ ->].
    exists s. unfold healthy. auto.
  - destruct (handle_row_malformed cfg path i row e s Hs) as [_ ->].
    destruct s as [sw w]. unfold lift_world, healthy in *. simpl in *.
    rewrite (log_error_ok _ _ _ _ _ He). eexists. split; [reflexivity|].
    split.
    + destruct done as [|a [|b [|c [|]]]]; simpl in *; try contradiction;
        destruct Hf as (Hsw & H0 & H1); simplify_map_eq; auto.
    + split; still_writable.
Qed.

Lemma filled_loop rows : forall i done todo s,
  0 <= i ->
  filled pre p0 p1 done s -> healthy s ->
  List.filter (row_matches cfg) rows = todo ->
  (length done + length todo <= 3)%nat ->
  exists s', rows_loop cfg path 0 i rows s = (s', Ok tt)
             /\ filled pre p0 p1 (done ++ todo) s'.
Proof.
  induction rows as [|row rows IH]; intros i done todo s Hi Hf Hh Hrows Hlen.
  - simpl in Hrows. subst todo. rewrite app_nil_r. exists s. auto.
  - cbn [rows_loop]. destruct (Z.ltb_spec i 0) as [?|_]; [lia|].
    simpl in Hrows. destruct (row_matches cfg row) eqn:Hm.
    + subst todo. simpl in Hlen.
      destruct (filled_step i row done s Hf Hh ltac:(lia) Hm)
        as (s1 & Hrow & Hf1 & Hh1).
      rewrite (bind_ok _ _ _ _ _ Hrow).
      destruct (IH (i + 1) (done ++ [row]) _ s1 ltac:(lia) Hf1 Hh1 eq_refl)
        as (s' & Hloop & Hf').
      * rewrite length_app. simpl. lia.
      * exists s'. split; [exact Hloop|]. rewrite <- app_assoc in Hf'. exact Hf'.
    + destruct (filled_keep i row done s Hf Hh Hm) as (s1 & Hrow & Hf1 & Hh1).
      rewrite (bind_ok _ _ _ _ _ Hrow).
      apply (IH (i + 1) done todo s1); auto; lia.
Qed.

End TwoPerShard.

Lemma prefix_map_submission cfg :
  prefix_map cfg !! "submission" = Some (submissions_prefix cfg).
Proof. unfold prefix_map. apply lookup_insert_eq. Qed.

Lemma init_ok cfg pre w :
  fs w !! shard_name cfg pre 0 = None ->
  SplitWriter_init cfg pre w
  = (World (<[shard_name cfg pre 0 := File true []]> (fs w))
           (trace w ++ [EvOpen (shard_name cfg pre 0) ModeA]),
     Ok (MkSplitWriter pre 1 0 (Some (FileObj (shard_name cfg pre 0) false)))).
Proof.
  intros H. unfold SplitWriter_init, with_local.
  assert (Hw : writable_at w (shard_name cfg pre 0))
    by (unfold writable_at; rewrite H; exact I).
  rewrite (bind_ok _ _ _ _ _
             (open_new_file_ok cfg (MkSplitWriter pre 0 0 None) w Hw)).
  unfold file_data; simpl. rewrite H. reflexivity.
Qed.

Lemma open_read_file path mode w wr data :
  fs w !! path = Some (File wr data) ->
  open_read path mode w = (World (fs w) (trace w ++ [EvOpen path mode]), Ok data).
Proof. intros H. unfold open_read, bind; simpl. rewrite H. reflexivity. Qed.

(** A submission file that can be read, before a shard 0000 exists. *)
Lemma processFile_submission cfg path k wr data rows w :
  detect_file_type path = "submission" ->
  fs w !! path = Some (File wr data) ->
  getFileJsonStream path data = Some rows ->
  fs w !! shard_name cfg (submissions_prefix cfg) 0 = None ->
  processFile cfg path k w
  = with_local
      (MkSplitWriter (submissions_prefix cfg) 1 0
         (Some (FileObj (shard_name cfg (submissions_prefix cfg) 0) false)))
      (rows_loop cfg path k 0 rows ;; SplitWriter_close)
      (World (<[shard_name cfg (submissions_prefix cfg) 0 := File true []]> (fs w))
             (trace w
              ++ [EvPrint ("Processing " +:+ path +:+ " [submission]");
                  EvOpen path ModeRB;
                  EvOpen (shard_name cfg (submissions_prefix cfg) 0) ModeA])).
Proof.
  intros Htype Hfile Hstream Hnew. unfold processFile. rewrite Htype.
  cbn [String.eqb Ascii.eqb Bool.eqb].
  set (w1 := World (fs w)
               (trace w ++ [EvPrint ("Processing " +:+ path +:+ " [submission]")])).
  rewrite (bind_ok _ _ w w1 tt) by reflexivity.
  rewrite (bind_ok _ _ _ _ _ (open_read_file path ModeRB w1 wr data Hfile)).
  rewrite Hstream, prefix_map_submission.
  set (w2 := World (fs w1) (trace w1 ++ [EvOpen path ModeRB])).
  rewrite (bind_ok _ _ _ _ _ (init_ok cfg _ w2 Hnew)).
  unfold w2, w1. simpl. rewrite <- !app_assoc. reflexivity.
Qed.

(** C6.  With two rows to a shard and nothing yet in the output
    directory, a submission file whose stream has exactly three matching
    rows leaves the first two in [filtered_submissions_0000.jsonl] and
    the third in [filtered_submissions_0001.jsonl], and [processFile]
    returns; and a [write] that fills the open shard appends the row to
    it, opens the next shard and returns like any other [write]. *)
Theorem three_rows_make_two_shards cfg path wr data rows r1 r2 r3 w :
  rows_per_file cfg = 2 ->
  output_dir cfg = "../../filtered_output" ->
  submissions_prefix cfg = "filtered_submissions" ->
  fresh_output cfg w ->
  detect_file_type path = "submission" ->
  fs w !! path = Some (File wr data) ->
  getFileJsonStream path data = Some rows ->
  List.filter (row_matches cfg) rows = [r1; r2; r3] ->
  (exists w',
      processFile cfg path 0 w = (w', Ok tt)
      /\ fs w' !! "../../filtered_output/filtered_submissions_0000.jsonl"
         = Some (File true [JsonLine r1; JsonLine r2])
      /\ fs w' !! "../../filtered_output/filtered_submissions_0001.jsonl"
         = Some (File true [JsonLine r3]))
  /\ (forall row sw w0 p d,
         out sw = Some (FileObj p false) ->
         fs w0 !! p = Some (File true d) ->
         row_count sw + 1 = 2 ->
         fs w0 !! shard_name cfg (prefix sw) (file_index sw) = None ->
         SplitWriter_write cfg row (sw, w0)
         = ((MkSplitWriter (prefix sw) (file_index sw + 1) 0
               (Some (FileObj (shard_name cfg (prefix sw) (file_index sw)) false)),
             World (<[shard_name cfg (prefix sw) (file_index sw) := File true []]>
                      (<[p := File true (d ++ [JsonLine row])]> (fs w0)))
                   (trace w0
                    ++ [EvWrite p (JsonLine row);
                        EvOpen (shard_name cfg (prefix sw) (file_index sw)) ModeA])),
            Ok tt)).
Proof.
  intros Hcap Hod Hsp Hfresh Htype Hfile Hstream Hrows.
  assert (E0 : shard_name cfg (submissions_prefix cfg) 0
               = "../../filtered_output/filtered_submissions_0000.jsonl")
    by (unfold shard_name; rewrite Hod, Hsp; reflexivity).
  assert (E1 : shard_name cfg (submissions_prefix cfg) 1
               = "../../filtered_output/filtered_submissions_0001.jsonl")
    by (unfold shard_name; rewrite Hod, Hsp; reflexivity).
  assert (Ee : error_log_file cfg = "../../filtered_output/errors.log")
    by (unfold error_log_file; rewrite Hod; reflexivity).
  assert (Ep : progress_file cfg = "../../filtered_output/progress.log")
    by (unfold progress_file; rewrite Hod; reflexivity).
  unfold fresh_output in Hfresh. rewrite Hod in Hfresh.
  assert (F0 : fs w !! shard_name cfg (submissions_prefix cfg) 0 = None)
    by (rewrite E0; apply Hfresh; reflexivity).
  assert (F1 : fs w !! shard_name cfg (submissions_prefix cfg) 1 = None)
    by (rewrite E1; apply Hfresh; reflexivity).
  assert (Fe : fs w !! error_log_file cfg = None)
    by (rewrite Ee; apply Hfresh; reflexivity).
  assert (Fp : fs w !! progress_file cfg = None)
    by (rewrite Ep; apply Hfresh; reflexivity).
  split.
  - rewrite (processFile_submission cfg path 0 wr data rows w Htype Hfile Hstream F0).
    unfold with_local.
    match goal with |- context [bind _ _ ?s] =>
      destruct (filled_loop cfg path (submissions_prefix cfg) _ _ Hcap E0 E1
                  ltac:(rewrite Ee, Ep; compute_done)
                  rows 0 [] [r1; r2; r3] s)
        as (s' & Hloop & Hfilled)
    end; try reflexivity.
    + simpl. rewrite E0, E1 in *. simplify_map_eq. auto.
    + split; simpl; unfold writable_at; simpl.
      * rewrite lookup_insert_ne by (rewrite E0, Ee; discriminate).
        rewrite Fe. exact I.
      * rewrite lookup_insert_ne by (rewrite E0, Ep; discriminate).
        rewrite Fp. exact I.
    + exact Hrows.
    + rewrite (bind_ok _ _ _ _ _ Hloop). simpl in Hfilled.
      destruct Hfilled as (Hsw & H0 & H1).
      exists (snd s'). split; [|split; assumption].
      unfold SplitWriter_close, bind, get_self, set_self. simpl.
      rewrite Hsw. reflexivity.
  - intros row sw w0 p d Hout Hp Hfull Hnext.
    rewrite (write_ok _ _ _ _ _ _ Hout Hp), Hcap, Hfull. simpl.
    destruct (decide (p = shard_name cfg (prefix sw) (file_index sw))) as [E|E];
      [congruence|].
    rewrite open_new_file_ok; simpl.
    + unfold file_data; simpl. rewrite lookup_insert_ne by exact E.
      rewrite Hnext, <- app_assoc. reflexivity.
    + unfold writable_at; simpl. rewrite lookup_insert_ne by exact E.
      rewrite Hnext. exact I.
Qed.

End Properties.

(* ================================================================== *)
(** * Further properties *)

(** ** What code keeps *)

Lemma keeps_silent {S A X} (wd : S -> X) P (m : M S A) :
  (forall s, wd (fst (m s)) = wd s) -> keeps wd P m.
Proof. intros H s Hs. rewrite H. exact Hs. Qed.

Lemma keeps_ret {S A X} (wd : S -> X) P (a : A) : keeps wd P (ret a).
Proof. apply keeps_silent. reflexivity. Qed.

Lemma keeps_raise {S A X} (wd : S -> X) P e : keeps wd P (@raise S A e).
Proof. apply keeps_silent. reflexivity. Qed.

Lemma keeps_bind {S A B X} (wd : S -> X) P (m : M S A) (k : A -> M S B) :
  keeps wd P m -> (forall a, keeps wd P (k a)) -> keeps wd P (bind m k).
Proof.
  intros Hm Hk s Hs. unfold bind. specialize (Hm s Hs).
  destruct (m s) as [s' [a|e]]; simpl in *; [apply Hk, Hm | exact Hm].
Qed.

Lemma keeps_try {S A X} (wd : S -> X) P (m : M S A) (h : exn -> M S A) :
  keeps wd P m -> (forall e, keeps wd P (h e)) -> keeps wd P (try_except m h).
Proof.
  intros Hm Hh s Hs. unfold try_except. specialize (Hm s Hs).
  destruct (m s) as [s' [a|e]]; simpl in *; [exact Hm | apply Hh, Hm].
Qed.

Lemma keeps_lift {A} (P : world -> Prop) (m : M world A) :
  keeps id P m -> keeps snd P (lift_world m).
Proof.
  intros Hm [sw w] Hs. unfold lift_world; simpl in *.
  specialize (Hm w Hs). destruct (m w) as [w' r]. exact Hm.
Qed.

(** Nothing the script does takes a path away from [open] for writing. *)
Lemma keeps_open_write p path mode :
  keeps id (fun w => writable_at w p) (open_write path mode).
Proof.
  intros w Hw. unfold open_write, bind, record_open, get_node; simpl.
  destruct (fs w !! path) as [[|[] d]|] eqn:E; simpl; try exact Hw.
  - destruct mode; simpl; try exact Hw;
      apply writable_at_insert; [exact Hw | intros _; eexists; reflexivity].
  - apply writable_at_insert; [exact Hw | intros _; eexists; reflexivity].
Qed.

Lemma keeps_fwrite p path c :
  keeps id (fun w => writable_at w p) (fwrite path c).
Proof.
  intros w Hw. unfold fwrite, writable_at, id in *; simpl.
  rewrite lookup_alter. case_decide; [subst|exact Hw].
  destruct (fs w !! p) as [[|[] d]|]; simpl; auto.
Qed.

Lemma keeps_log_error p cfg path i e :
  keeps id (fun w => writable_at w p) (log_error cfg path i e).
Proof.
  unfold log_error. apply keeps_bind; [apply keeps_open_write|]. intros _.
  apply keeps_bind; [apply keeps_fwrite|]. intros _. apply keeps_fwrite.
Qed.

Lemma keeps_save_progress p cfg path i :
  keeps id (fun w => writable_at w p) (save_progress cfg path i).
Proof.
  unfold save_progress. apply keeps_bind; [apply keeps_open_write|]. intros _.
  apply keeps_fwrite.
Qed.

Lemma keeps_open_new_file p cfg :
  keeps snd (fun w => writable_at w p) (SplitWriter_open_new_file cfg).
Proof.
  unfold SplitWriter_open_new_file.
  apply keeps_bind; [apply keeps_silent; reflexivity|]. intros self.
  apply keeps_bind.
  - destruct (out self); apply keeps_silent; reflexivity.
  - intros _. apply keeps_bind; [apply keeps_silent; reflexivity|]. intros self'.
    apply keeps_bind; [apply keeps_lift, keeps_open_write|].
    intros _. apply keeps_silent. reflexivity.
Qed.

Lemma keeps_write p cfg row :
  keeps snd (fun w => writable_at w p) (SplitWriter_write cfg row).
Proof.
  unfold SplitWriter_write.
  apply keeps_bind; [apply keeps_silent; reflexivity|]. intros self.
  apply keeps_bind.
  - destruct (out self) as [fo|]; [|apply keeps_raise].
    destruct (fo_closed fo); [apply keeps_raise|].
    apply keeps_lift, keeps_fwrite.
  - intros _. apply keeps_bind; [apply keeps_silent; reflexivity|].
    intros _. apply keeps_bind; [apply keeps_silent; reflexivity|]. intros self'.
    destruct (_ <=? _); [apply keeps_open_new_file | apply keeps_ret].
Qed.

Lemma keeps_try_body p cfg path i row :
  keeps snd (fun w => writable_at w p) (try_body cfg path i row).
Proof.
  unfold try_body. apply keeps_bind; [apply keeps_silent; reflexivity|].
  intros t. destruct (bool_decide _); [|apply keeps_ret].
  apply keeps_bind; [apply keeps_write|]. intros _.
  destruct (_ =? _); [|apply keeps_ret].
  apply keeps_lift, keeps_save_progress.
Qed.

Lemma handle_row_returns cfg path i row s :
  writable_at (snd s) (error_log_file cfg) ->
  exists s', handle_row cfg path i row s = (s', Ok tt)
             /\ writable_at (snd s') (error_log_file cfg).
Proof.
  intros Hw. unfold handle_row, try_except.
  pose proof (keeps_try_body (error_log_file cfg) cfg path i row s Hw) as H1.
  destruct (try_body cfg path i row s) as [s1 [[]|e]]; simpl in H1.
  - exists s1. auto.
  - unfold lift_world. rewrite (log_error_ok _ _ _ _ _ H1).
    eexists. split; [reflexivity|]. simpl.
    apply writable_at_insert; [apply writable_at_fs, H1 | intros _; eexists; reflexivity].
Qed.


(** ** What reaches the shards *)

Lemma keeps_writer_lift {A} (P : SplitWriter -> Prop) (m : M world A) :
  keeps fst P (lift_world m).
Proof.
  intros [sw w] Hs. unfold lift_world; simpl in *.
  destruct (m w) as [w' r]. exact Hs.
Qed.

Lemma keeps_named_open_new_file cfg pre :
  keeps fst (named_for cfg pre) (SplitWriter_open_new_file cfg).
Proof.
  intros [sw w] [Hpre Hout]. simpl in *.
  unfold SplitWriter_open_new_file, bind, get_self, set_self, lift_world.
  simpl. destruct (out sw) as [fo|] eqn:Efo; simpl;
    match goal with |- context [open_write ?p ModeA w] =>
      destruct (open_write p ModeA w) as [w' [[]|e]] end; simpl;
    (split; [exact Hpre|]); simpl; intros fo' E.
  - injection E as <-. simpl. rewrite <- Hpre. eexists. reflexivity.
  - injection E as <-. simpl. apply Hout. reflexivity.
  - injection E as <-. simpl. rewrite <- Hpre. eexists. reflexivity.
  - rewrite Efo in E. discriminate.
Qed.

Lemma keeps_named_write cfg pre row :
  keeps fst (named_for cfg pre) (SplitWriter_write cfg row).
Proof.
  unfold SplitWriter_write. intros s Hs.
  unfold bind at 1, get_self at 1. cbv beta iota.
  set (self := fst s) in *.
  assert (Hstep : keeps fst (named_for cfg pre)
            (match out self with
             | None => raise (AttributeError "'NoneType' object has no attribute 'write'")
             | Some fo =>
                 if fo_closed fo then raise (ValueError "I/O operation on closed file.")
                 else lift_world (fwrite (fo_path fo) (JsonLine row))
             end)).
  { destruct (out self) as [fo|]; [|apply keeps_raise].
    destruct (fo_closed fo); [apply keeps_raise | apply keeps_writer_lift]. }
  apply (keeps_bind fst (named_for cfg pre) _ _ Hstep); [|exact Hs].
  intros _ s1 Hs1. unfold bind at 1, set_self at 1. cbv beta iota.
  unfold bind at 1, get_self at 1. cbv beta iota. cbn [fst snd].
  assert (Hnew : named_for cfg pre
            (MkSplitWriter (prefix self) (file_index self) (row_count self + 1)
                           (out self))).
  { destruct Hs as [Hp Ho]. split; [exact Hp | exact Ho]. }
  destruct (_ <=? _).
  - apply (keeps_named_open_new_file cfg pre (_, snd s1)), Hnew.
  - exact Hnew.
Qed.

Lemma keeps_named_try_body cfg pre path i row :
  keeps fst (named_for cfg pre) (try_body cfg path i row).
Proof.
  unfold try_body. apply keeps_bind; [apply keeps_silent; reflexivity|].
  intros t. destruct (bool_decide _); [|apply keeps_ret].
  apply keeps_bind; [apply keeps_named_write|]. intros _.
  destruct (_ =? _); [apply keeps_writer_lift | apply keeps_ret].
Qed.

Lemma keeps_named_handle_row cfg pre path i row :
  keeps fst (named_for cfg pre) (handle_row cfg path i row).
Proof.
  unfold handle_row. apply keeps_try; [apply keeps_named_try_body|].
  intros e. apply keeps_writer_lift.
Qed.

(** What one [write] adds to the trace: nothing, or the row on the file
    the writer holds open. *)
Lemma write_events cfg row s :
  exists new,
    ptrace (fst (SplitWriter_write cfg row s)) = ptrace s ++ new
    /\ (json_writes new = []
        \/ exists fo, out (fst s) = Some fo
                      /\ json_writes new = [(fo_path fo, row)]).
Proof.
  destruct s as [sw w].
  destruct (out sw) as [[p closed]|] eqn:Eout.
  - destruct closed.
    + exists []. split; [|left; reflexivity].
      unfold SplitWriter_write, bind, get_self; simpl. rewrite Eout. simpl.
      apply eq_sym, app_nil_r.
    + destruct (write_records_row cfg row sw w (FileObj p false) Eout eq_refl)
        as (new & E & F).
      exists (EvWrite p (JsonLine row) :: new). split.
      * rewrite E, <- app_assoc. reflexivity.
      * right. exists (FileObj p false). split; [exact Eout|].
        change (EvWrite p (JsonLine row) :: new)
          with ([EvWrite p (JsonLine row)] ++ new).
        rewrite json_writes_app, (json_writes_none new); [reflexivity|].
        eapply Forall_impl; [exact F | intros ev [H _]; exact H].
  - exists []. split; [|left; reflexivity].
    unfold SplitWriter_write, bind, get_self; simpl. rewrite Eout. simpl.
    apply eq_sym, app_nil_r.
Qed.

Lemma handle_row_events cfg path i row s :
  exists new,
    ptrace (fst (handle_row cfg path i row s)) = ptrace s ++ new
    /\ (json_writes new = []
        \/ row_matches cfg row = true
           /\ exists fo, out (fst s) = Some fo
                         /\ json_writes new = [(fo_path fo, row)]).
Proof.
  unfold row_matches. destruct (subreddit_of row) as [t|e] eqn:Hs.
  - destruct (decide (t ∈ target_subreddits cfg)) as [Ht|Ht].
    + unfold handle_row, try_body. rewrite try_except_bind. unfold lift_result.
      rewrite Hs, bool_decide_eq_true_2 by exact Ht. rewrite try_except_bind.
      destruct (write_events cfg row s) as (n1 & E1 & W1).
      assert (Hrest : forall (r : result unit) (s1 : pstate),
                exists n2,
                  ptrace (fst (match r with
                               | Ok a =>
                                   try_except
                                     (if i mod 1000 =? 0
                                      then lift_world (save_progress cfg path i)
                                      else ret tt)
                                     (fun e => lift_world (log_error cfg path i e)) s1
                               | Raise e => lift_world (log_error cfg path i e) s1
                               end))
                  = ptrace s1 ++ n2
                  /\ json_writes n2 = []).
      { intros [a|e] s1.
        - destruct (emits_try ptrace no_json_write
                      (if i mod 1000 =? 0
                       then lift_world (save_progress cfg path i) else ret tt)
                      (fun e => lift_world (log_error cfg path i e))) with (s := s1)
            as (n2 & E2 & F2).
          + destruct (_ =? _); [|apply emits_ret].
            apply emits_lift, (emits_weaken _ plain); [intros ev [H _]; exact H|].
            apply emits_save_progress.
          + intros e. apply emits_lift, emits_log_error.
          + exists n2. split; [exact E2 | apply json_writes_none, F2].
        - destruct (emits_lift _ _ (emits_log_error cfg path i e) s1)
            as (n2 & E2 & F2).
          exists n2. split; [exact E2 | apply json_writes_none, F2]. }
      destruct (SplitWriter_write cfg row s) as [s1 r]. simpl in E1.
      destruct (Hrest r s1) as (n2 & E2 & J2).
      exists (n1 ++ n2). split.
      * destruct r; rewrite E2, E1, app_assoc; reflexivity.
      * rewrite json_writes_app, J2, app_nil_r.
        destruct W1 as [W1|(fo & Hfo & W1)]; [left; exact W1|].
        right. split; [reflexivity|].
        exists fo. auto.
    + destruct (handle_row_filtered cfg path i row t s Hs Ht) as [_ ->].
      exists []. split; [apply eq_sym, app_nil_r | left; reflexivity].
  - destruct (handle_row_malformed cfg path i row e s Hs) as [_ ->].
    destruct (emits_lift _ _ (emits_log_error cfg path i e) s) as (new & E & F).
    exists new. split; [exact E | left; apply json_writes_none, F].
Qed.

Lemma rows_loop_writes cfg pre path k i rows s :
  named_for cfg pre (fst s) ->
  exists new,
    ptrace (fst (rows_loop cfg path k i rows s)) = ptrace s ++ new
    /\ sublist (map snd (json_writes new)) (List.filter (row_matches cfg) rows)
    /\ Forall (fun pr => exists j, fst pr = shard_name cfg pre j) (json_writes new).
Proof.
  revert i s. induction rows as [|row rows IH]; intros i s Hn.
  - exists []. simpl. rewrite app_nil_r. repeat split; constructor.
  - cbn [rows_loop]. destruct (i <? k).
    + rewrite (bind_ok _ _ s s tt) by reflexivity.
      destruct (IH (i + 1) s Hn) as (new & E & Hsub & Hall).
      exists new. split; [exact E|]. split; [|exact Hall].
      simpl. destruct (row_matches cfg row); [apply sublist_cons|]; exact Hsub.
    + destruct (handle_row_events cfg path i row s) as (n1 & E1 & W1).
      pose proof (keeps_named_handle_row cfg pre path i row s Hn) as Hn1.
      unfold bind. destruct (handle_row cfg path i row s) as [s1 [[]|e]];
        simpl in E1, Hn1.
      * destruct (IH (i + 1) s1 Hn1) as (n2 & E2 & Hsub & Hall).
        exists (n1 ++ n2). split; [rewrite E2, E1, app_assoc; reflexivity|].
        rewrite json_writes_app, map_app.
        destruct W1 as [->|(Hm & fo & Hfo & ->)]; simpl.
        -- split; [|exact Hall].
           destruct (row_matches cfg row); [apply sublist_cons|]; exact Hsub.
        -- rewrite Hm. split; [apply sublist_skip, Hsub|].
           constructor; [|exact Hall]. simpl. apply Hn, Hfo.
      * exists n1. split; [exact E1|].
        destruct W1 as [->|(Hm & fo & Hfo & ->)]; simpl.
        -- split; [apply sublist_nil_l | constructor].
        -- rewrite Hm. split; [apply sublist_skip, sublist_nil_l|].
           constructor; [|constructor]. simpl. apply Hn, Hfo.
Qed.

(** X2.  Whatever the state of the files, the rows the loop writes are
    rows of the stream that match the filter, in the order of the stream
    and none of them twice (a sublist of the matching rows), and each goes
    to a shard named with the prefix the writer was made for. *)
Theorem only_matching_rows_reach_the_shards cfg pre path k i rows s :
  named_for cfg pre (fst s) ->
  exists new,
    ptrace (fst (rows_loop cfg path k i rows s)) = ptrace s ++ new
    /\ sublist (map snd (json_writes new)) (List.filter (row_matches cfg) rows)
    /\ Forall (fun pr => exists j, fst pr = shard_name cfg pre j) (json_writes new).
Proof. apply rows_loop_writes. Qed.

(** ** Shard names *)

Lemma length_append (a b : string) :
  String.length (a +:+ b) = (String.length a + String.length b)%nat.
Proof. induction a; str; [reflexivity|]. rewrite IHa. reflexivity. Qed.

Lemma append_inj_l (a x y : string) : a +:+ x = a +:+ y -> x = y.
Proof. induction a; str; intros H; [exact H|]. injection H as H. auto. Qed.

Lemma append_inj_r (s x y : string) : x +:+ s = y +:+ s -> x = y.
Proof.
  revert y. induction x as [|c x IH]; intros [|d y] H; str.
  - reflexivity.
  - apply (f_equal String.length) in H. simpl in H. rewrite length_append in H. lia.
  - apply (f_equal String.length) in H. simpl in H. rewrite length_append in H. lia.
  - injection H as -> H. f_equal. apply IH, H.
Qed.

Lemma literal_digits_first (s : string) :
  all_chars is_digit s = true -> is_empty s = false ->
  literal_digits false s = Some s.
Proof.
  destruct s as [|c r]; [discriminate|]. simpl.
  rewrite andb_true_iff. intros [-> Hr] _.
  rewrite (literal_digits_plain _ Hr). reflexivity.
Qed.

Lemma unsigned_literal_zeros k (s : string) :
  all_chars is_digit s = true -> is_empty s = false ->
  unsigned_literal (zeros k +:+ s) = unsigned_literal s.
Proof.
  intros Hd Hne. induction k as [|k IH]; [reflexivity|].
  cbn [zeros]. rewrite append_cons, <- IH.
  assert (Hz : all_chars is_digit (zeros k +:+ s) = true).
  { rewrite all_chars_append, Hd, andb_true_r. clear. induction k; simpl; auto. }
  assert (Hn : is_empty (zeros k +:+ s) = false).
  { destruct k; str; [exact Hne | reflexivity]. }
  unfold unsigned_literal.
  rewrite (literal_digits_first _ Hz Hn).
  change (literal_digits false (String "0" (zeros k +:+ s)))
    with (String "0" <$> literal_digits true (zeros k +:+ s)).
  rewrite (literal_digits_plain _ Hz). cbn [fmap option_fmap option_map].
  change (NilEmpty.uint_of_string (String "0" (zeros k +:+ s)))
    with (uint_of_char "0" (NilEmpty.uint_of_string (zeros k +:+ s))).
  destruct (NilEmpty.uint_of_string (zeros k +:+ s)); reflexivity.
Qed.

Lemma int_zfill_uint width (d : Decimal.uint) :
  unsigned_literal (zfill width (NilZero.string_of_uint d)) = Some (Z.of_uint d)
  /\ all_chars is_digit (zfill width (NilZero.string_of_uint d)) = true.
Proof.
  destruct (uint_digits_zero d) as [Hd Hne]. unfold zfill. split.
  - rewrite (unsigned_literal_zeros _ _ Hd Hne). apply unsigned_literal_uint.
  - rewrite all_chars_append, Hd, andb_true_r.
    generalize (width - String.length (NilZero.string_of_uint d))%nat.
    intros k. induction k; simpl; auto.
Qed.

(** The index field of a shard name reads back as the index. *)
Lemma int_fmt04 (n : Z) : int (fmt04 n) = Some n.
Proof.
  unfold fmt04. destruct (Z.ltb_spec n 0) as [Hneg|Hpos].
  - unfold str_int. pose proof (DecimalZ.of_to (- n)) as Hn.
    destruct (Z.to_int (- n)) as [d|d] eqn:E.
    + simpl in Hn. destruct (int_zfill_uint 3 d) as [Hu Hd].
      cbn [NilZero.string_of_int]. unfold int. rewrite int_strip_plain.
      * rewrite Hu. simpl. f_equal. lia.
      * simpl. apply digits_no_space, Hd.
    + destruct n; simpl in E; discriminate || lia.
  - unfold str_int. pose proof (DecimalZ.of_to n) as Hn.
    destruct (Z.to_int n) as [d|d] eqn:E.
    + simpl in Hn. destruct (int_zfill_uint 4 d) as [Hu Hd].
      cbn [NilZero.string_of_int]. rewrite (int_of_digits _ Hd), Hu. congruence.
    + destruct n; simpl in E; discriminate || lia.
Qed.

Lemma slash_prefix_of_name (pre a b : string) :
  String.prefix "/" (pre +:+ "_" +:+ a) = String.prefix "/" (pre +:+ "_" +:+ b).
Proof.
  assert (Hc : forall c s, String.prefix "/" (String c s)
                           = if ascii_dec "/"%char c then true else false).
  { intros c s.
    change (String.prefix "/" (String c s))
      with (if ascii_dec "/"%char c then String.prefix "" s else false).
    destruct (ascii_dec "/"%char c); [destruct s|]; reflexivity. }
  destruct pre as [|c pre]; [reflexivity|].
  rewrite !append_cons, !Hc. reflexivity.
Qed.

Lemma shard_name_inj cfg pre a b :
  shard_name cfg pre a = shard_name cfg pre b -> a = b.
Proof.
  unfold shard_name, path_join.
  rewrite (slash_prefix_of_name pre (fmt04 a +:+ ".jsonl") (fmt04 b +:+ ".jsonl")).
  intros H.
  assert (E : pre +:+ "_" +:+ fmt04 a +:+ ".jsonl"
              = pre +:+ "_" +:+ fmt04 b +:+ ".jsonl").
  { destruct (String.prefix "/" _); [exact H|].
    destruct (_ || _); apply append_inj_l in H; [exact H|].
    apply append_inj_l in H. exact H. }
  apply append_inj_l, append_inj_l, append_inj_r in E.
  pose proof (int_fmt04 a) as Ha. rewrite E, int_fmt04 in Ha. congruence.
Qed.

(** X3.  The index field of a shard name, four digits or more, reads back
    as the index, so two shards of one prefix with different indices
    never have the same file name. *)
Theorem shard_names_are_distinct :
  (forall n, int (fmt04 n) = Some n)
  /\ (forall cfg pre a b, shard_name cfg pre a = shard_name cfg pre b -> a = b).
Proof. split; [exact int_fmt04 | exact shard_name_inj]. Qed.

(** ** Shards of a run on a fresh output directory *)

Lemma group_full n (l : list json) x j :
  (j * n + n <= length l)%nat -> group n (l ++ [x]) j = group n l j.
Proof.
  intros H. unfold group. rewrite drop_app_le by lia.
  apply take_app_le. rewrite length_drop. lia.
Qed.

Lemma group_last n (l : list json) x q r :
  length l = (q * n + r)%nat -> (r < n)%nat ->
  group n (l ++ [x]) q = group n l q ++ [x].
Proof.
  intros Hl Hr. unfold group. rewrite drop_app_le by lia.
  assert (Hd : length (drop (q * n) l) = r) by (rewrite length_drop; lia).
  rewrite (take_ge (drop (q * n) l)) by lia.
  apply take_ge. rewrite length_app, Hd. simpl. lia.
Qed.

Lemma group_beyond n (l : list json) j :
  (length l <= j * n)%nat -> group n l j = [].
Proof. intros H. unfold group. rewrite drop_ge by lia. apply take_nil. Qed.

Lemma last_char_differs (a b x y : string) c d :
  c <> d -> a +:+ x +:+ String c "" <> b +:+ y +:+ String d "".
Proof.
  intros Hcd H. rewrite <- !append_assoc in H.
  assert (Hlen : String.length (a +:+ x) = String.length (b +:+ y)).
  { apply (f_equal String.length) in H.
    rewrite (length_append (a +:+ x)), (length_append (b +:+ y)) in H.
    simpl in H. lia. }
  revert H Hlen. generalize (a +:+ x) (b +:+ y). clear a b x y.
  intros u. induction u as [|e u IH]; intros [|f v] H Hlen; str; try lia.
  - congruence.
  - injection H as _ H. apply (IH v H). lia.
Qed.

Lemma path_join_suffix (a b : string) : exists u, path_join a b = u +:+ b.
Proof.
  unfold path_join. destruct (String.prefix "/" b); [exists ""; reflexivity|].
  destruct (_ || _); [exists a; reflexivity|].
  exists (a +:+ "/"). rewrite append_assoc. reflexivity.
Qed.

Lemma shard_is_no_log cfg pre j :
  shard_name cfg pre j <> error_log_file cfg
  /\ shard_name cfg pre j <> progress_file cfg.
Proof.
  unfold shard_name, error_log_file, progress_file.
  destruct (path_join_suffix (output_dir cfg) (pre +:+ "_" +:+ fmt04 j +:+ ".jsonl"))
    as [u ->].
  destruct (path_join_suffix (output_dir cfg) "errors.log") as [v ->].
  destruct (path_join_suffix (output_dir cfg) "progress.log") as [v' ->].
  replace (pre +:+ "_" +:+ fmt04 j +:+ ".jsonl")
    with ((pre +:+ "_" +:+ fmt04 j) +:+ ".jsonl")
    by (rewrite !append_assoc; reflexivity).
  split; intros H.
  - apply (last_char_differs u v ((pre +:+ "_" +:+ fmt04 j) +:+ ".json") "errors.lo"
                              "l" "g"); [discriminate|].
    rewrite (append_assoc _ ".json" "l"). exact H.
  - apply (last_char_differs u v' ((pre +:+ "_" +:+ fmt04 j) +:+ ".json") "progress.lo"
                              "l" "g"); [discriminate|].
    rewrite (append_assoc _ ".json" "l"). exact H.
Qed.

Lemma logs_differ cfg : error_log_file cfg <> progress_file cfg.
Proof.
  unfold error_log_file, progress_file, path_join.
  change (String.prefix "/" "errors.log") with false.
  change (String.prefix "/" "progress.log") with false. cbv iota.
  destruct (_ || _); intros H; apply append_inj_l in H;
    [|apply append_inj_l in H]; discriminate.
Qed.

Section Sharding.
Variables (cfg : config) (pre : string) (n : nat).
Hypothesis Hcap : rows_per_file cfg = Z.of_nat n.
Hypothesis Hpos : (1 <= n)%nat.

Lemma shard_nat_ne (j q : nat) :
  j <> q -> shard_name cfg pre (Z.of_nat j) <> shard_name cfg pre (Z.of_nat q).
Proof. intros Hne H. apply shard_name_inj in H. lia. Qed.

Lemma sharded_frame done sw w w' :
  sharded cfg pre n done (sw, w) ->
  (forall j : nat, fs w' !! shard_name cfg pre (Z.of_nat j)
                   = fs w !! shard_name cfg pre (Z.of_nat j)) ->
  sharded cfg pre n done (sw, w').
Proof.
  intros (q & r & Hlen & Hr & Hsw & Hfs) Hsame.
  exists q, r. repeat split; try assumption.
  intros j. simpl. rewrite Hsame. apply Hfs.
Qed.

Lemma sharded_write row done sw w :
  sharded cfg pre n done (sw, w) ->
  exists sw1 w1,
    SplitWriter_write cfg row (sw, w) = ((sw1, w1), Ok tt)
    /\ sharded cfg pre n (done ++ [row]) (sw1, w1)
    /\ forall p, (forall j : nat, p <> shard_name cfg pre (Z.of_nat j)) ->
                 fs w1 !! p = fs w !! p.
Proof.
  intros (q & r & Hlen & Hr & Hsw & Hfs). simpl in Hsw, Hfs. subst sw.
  assert (Hq : fs w !! shard_name cfg pre (Z.of_nat q)
               = Some (File true (JsonLine <$> group n done q))).
  { rewrite Hfs. destruct (Nat.leb_spec (q * n) (length done)); [reflexivity|lia]. }
  rewrite (write_ok cfg row
             (MkSplitWriter pre (Z.of_nat q + 1) (Z.of_nat r)
                (Some (FileObj (shard_name cfg pre (Z.of_nat q)) false)))
             w _ _ eq_refl Hq).
  cbn [prefix file_index row_count out].
  rewrite Hcap.
  assert (Hlen' : length (done ++ [row]) = S (length done))
    by (rewrite length_app; simpl; lia).
  destruct (Z.leb_spec (Z.of_nat n) (Z.of_nat r + 1)) as [Hfull|Hroom].
  - assert (Hnext : fs w !! shard_name cfg pre (Z.of_nat (S q)) = None).
    { rewrite Hfs. destruct (Nat.leb_spec (S q * n) (length done)); [nia|reflexivity]. }
    rewrite open_new_file_ok; cbn [prefix file_index row_count out fs trace];
      replace (Z.of_nat q + 1) with (Z.of_nat (S q)) by lia.
    + eexists _, _. split; [reflexivity|]. split.
      * exists (S q), 0%nat. rewrite Hlen'. repeat split; try lia.
        intros j. cbn [fst snd fs]. unfold file_data. cbn [fs].
        rewrite (lookup_insert_ne _ (shard_name cfg pre (Z.of_nat q)))
          by (apply shard_nat_ne; lia).
        rewrite Hnext.
        destruct (decide (j = S q)) as [->|Hj1].
        -- rewrite lookup_insert_eq.
           destruct (Nat.leb_spec (S q * n) (S (length done))); [|nia].
           rewrite group_beyond by (rewrite Hlen'; nia). reflexivity.
        -- rewrite lookup_insert_ne by (apply shard_nat_ne; lia).
           destruct (decide (j = q)) as [->|Hj2].
           ++ rewrite lookup_insert_eq.
              destruct (Nat.leb_spec (q * n) (S (length done))); [|nia].
              rewrite (group_last n done row q r Hlen Hr), fmap_app. reflexivity.
           ++ rewrite lookup_insert_ne by (apply shard_nat_ne; lia). rewrite Hfs.
              destruct (Nat.leb_spec (j * n) (length done)),
                       (Nat.leb_spec (j * n) (S (length done))); try nia; try reflexivity.
              rewrite group_full by nia. reflexivity.
      * intros p Hp. cbn [fs]. rewrite !lookup_insert_ne; auto.
    + unfold writable_at. cbn [fs].
      rewrite lookup_insert_ne by (apply shard_nat_ne; lia). rewrite Hnext. exact I.
  - eexists _, _. split; [reflexivity|]. split.
    + exists q, (S r). rewrite Hlen'. repeat split; try lia.
      * cbn [fst]. f_equal. lia.
      * intros j. cbn [fst snd fs].
        destruct (decide (j = q)) as [->|Hj2].
        -- rewrite lookup_insert_eq.
           destruct (Nat.leb_spec (q * n) (S (length done))); [|nia].
           rewrite (group_last n done row q r Hlen Hr), fmap_app. reflexivity.
        -- rewrite lookup_insert_ne by (apply shard_nat_ne; lia). rewrite Hfs.
           destruct (Nat.leb_spec (j * n) (length done)),
                    (Nat.leb_spec (j * n) (S (length done))); try nia; try reflexivity.
           rewrite group_full by nia. reflexivity.
    + intros p Hp. cbn [fs]. rewrite lookup_insert_ne; auto.
Qed.

Lemma keeps_writable_handle_row p path i row :
  keeps snd (fun w => writable_at w p) (handle_row cfg path i row).
Proof.
  unfold handle_row. apply keeps_try; [apply keeps_try_body|].
  intros e. apply keeps_lift, keeps_log_error.
Qed.

Lemma sharded_handle_row path i row done s :
  sharded cfg pre n done s ->
  writable_at (snd s) (error_log_file cfg) ->
  writable_at (snd s) (progress_file cfg) ->
  exists s',
    handle_row cfg path i row s = (s', Ok tt)
    /\ sharded cfg pre n (done ++ (if row_matches cfg row then [row] else [])) s'.
Proof.
  intros Hsh He Hp. destruct s as [sw w]. simpl in He, Hp.
  unfold row_matches. destruct (subreddit_of row) as [t|e] eqn:Hs.
  - destruct (decide (t ∈ target_subreddits cfg)) as [Ht|Ht].
    + rewrite bool_decide_eq_true_2 by exact Ht.
      destruct (sharded_write row done sw w Hsh) as (sw1 & w1 & Hw & Hsh1 & Hframe).
      assert (Hp1 : writable_at w1 (progress_file cfg)).
      { unfold writable_at. rewrite Hframe; [exact Hp|].
        intros j E. symmetry in E. apply (shard_is_no_log cfg pre _) in E. exact E. }
      rewrite (handle_row_written cfg path i row t (sw, w) (sw1, w1) Hs Ht Hw Hp1).
      eexists. split; [reflexivity|].
      destruct (_ =? _); [|exact Hsh1].
      apply (sharded_frame _ _ w1); [exact Hsh1|].
      intros j. cbn [snd fs]. apply lookup_insert_ne.
      intros E. symmetry in E. apply (shard_is_no_log cfg pre _) in E. exact E.
    + rewrite bool_decide_eq_false_2 by exact Ht.
      destruct (handle_row_filtered cfg path i row t (sw, w) Hs Ht) as [_ ->].
      exists (sw, w). rewrite app_nil_r. auto.
  - destruct (handle_row_malformed cfg path i row e (sw, w) Hs) as [_ ->].
    unfold lift_world. cbn [fst snd]. rewrite (log_error_ok _ _ _ _ _ He).
    eexists. split; [reflexivity|]. rewrite app_nil_r.
    apply (sharded_frame _ _ w); [exact Hsh|].
    intros j. cbn [fs]. apply lookup_insert_ne.
    intros E. symmetry in E. apply (shard_is_no_log cfg pre _) in E. exact E.
Qed.

Lemma sharded_loop path rows : forall i done s,
  0 <= i ->
  sharded cfg pre n done s ->
  writable_at (snd s) (error_log_file cfg) ->
  writable_at (snd s) (progress_file cfg) ->
  exists s',
    rows_loop cfg path 0 i rows s = (s', Ok tt)
    /\ sharded cfg pre n (done ++ List.filter (row_matches cfg) rows) s'.
Proof.
  induction rows as [|row rows IH]; intros i done s Hi Hsh He Hp.
  - exists s. simpl. rewrite app_nil_r. auto.
  - cbn [rows_loop]. destruct (Z.ltb_spec i 0) as [?|_]; [lia|].
    destruct (sharded_handle_row path i row done s Hsh He Hp) as (s1 & Hrow & Hsh1).
    pose proof (keeps_writable_handle_row (error_log_file cfg) path i row s He) as He1.
    pose proof (keeps_writable_handle_row (progress_file cfg) path i row s Hp) as Hp1.
    rewrite Hrow in He1, Hp1. cbn [fst] in He1, Hp1.
    rewrite (bind_ok _ _ _ _ _ Hrow).
    destruct (IH (i + 1) _ s1 ltac:(lia) Hsh1 He1 Hp1) as (s' & Hloop & Hsh').
    exists s'. split; [exact Hloop|].
    rewrite <- app_assoc in Hsh'. cbn [List.filter].
    destruct (row_matches cfg row); exact Hsh'.
Qed.

Lemma sharded_start w t :
  (forall j : nat, fs w !! shard_name cfg pre (Z.of_nat j) = None) ->
  sharded cfg pre n []
    (MkSplitWriter pre 1 0 (Some (FileObj (shard_name cfg pre 0) false)),
     World (<[shard_name cfg pre 0 := File true []]> (fs w)) t).
Proof.
  intros Hfresh. exists 0%nat, 0%nat. repeat split; try lia.
  intros j. cbn [snd fs length]. destruct j as [|j].
  - change (Z.of_nat 0) with 0. rewrite lookup_insert_eq.
    unfold group. rewrite drop_nil, take_nil. reflexivity.
  - rewrite lookup_insert_ne by (apply (shard_nat_ne 0 (S j)); lia).
    rewrite Hfresh. destruct (Nat.leb_spec (S j * n) 0); [nia|reflexivity].
Qed.

End Sharding.

(** ** The counters of the writer *)

(** X5.  A [write] that returns keeps the row count of the writer within
    its bounds: from a count of at least 0 and below [rows_per_file] it
    leaves a count of at least 0 and below [rows_per_file], either one
    more on the same shard or 0 on the shard of the next index; the
    prefix never changes. *)
Theorem write_keeps_the_row_count_in_bounds cfg row sw w sw' w' :
  0 <= row_count sw < rows_per_file cfg ->
  SplitWriter_write cfg row (sw, w) = ((sw', w'), Ok tt) ->
  0 <= row_count sw' < rows_per_file cfg
  /\ prefix sw' = prefix sw
  /\ (file_index sw' = file_index sw /\ row_count sw' = row_count sw + 1
      /\ out sw' = out sw
      \/ file_index sw' = file_index sw + 1 /\ row_count sw' = 0
         /\ row_count sw + 1 = rows_per_file cfg
         /\ out sw' = Some (FileObj (shard_name cfg (prefix sw) (file_index sw)) false)).
Proof.
  intros Hb. destruct sw as [pre idx rc o]. cbn [row_count prefix file_index out] in *.
  unfold SplitWriter_write, bind, get_self, set_self. cbn [fst snd out].
  destruct o as [[p closed]|]; [|discriminate].
  destruct closed; [discriminate|]. unfold lift_world, fwrite.
  cbn [fst snd row_count prefix file_index out fo_closed fo_path].
  destruct (Z.leb_spec (rows_per_file cfg) (rc + 1)) as [Hfull|Hroom].
  - unfold SplitWriter_open_new_file, bind, get_self, set_self, lift_world.
    cbn [fst snd out prefix file_index row_count].
    match goal with |- context [open_write ?q ModeA ?x] =>
      destruct (open_write q ModeA x) as [w2 [[]|e]] end; [|discriminate].
    intros H. injection H as <- <-. cbn [row_count prefix file_index out].
    repeat split; try lia. right. repeat split; lia.
  - intros H. injection H as <- <-. cbn [row_count prefix file_index out].
    repeat split; try lia. left. auto.
Qed.

(** X6.  A [write] that raises on an open shard has appended the row to
    that shard all the same (the failure is the opening of the next
    shard), and leaves the writer with a closed file: every later [write]
    raises [ValueError] and changes nothing. *)
Theorem failed_rotation_closes_the_writer cfg row sw w p s1 e :
  out sw = Some (FileObj p false) ->
  SplitWriter_write cfg row (sw, w) = (s1, Raise e) ->
  json_writes (ptrace s1) = json_writes (trace w) ++ [(p, row)]
  /\ out (fst s1) = Some (FileObj p true)
  /\ forall row',
       SplitWriter_write cfg row' s1
       = (s1, Raise (ValueError "I/O operation on closed file.")).
Proof.
  destruct sw as [pre idx rc o]. cbn [out]. intros ->.
  unfold SplitWriter_write at 1.
  unfold bind, get_self, set_self. cbn [fst snd out fo_closed fo_path].
  unfold lift_world, fwrite.
  cbn [fst snd row_count prefix file_index out fo_closed fo_path].
  destruct (_ <=? _); [|discriminate].
  unfold SplitWriter_open_new_file, bind, get_self, set_self, lift_world.
  cbn [fst snd out prefix file_index row_count].
  destruct (emits_open_write (shard_name cfg pre idx) ModeA
              (World (alter (append_chunk (JsonLine row)) p (fs w))
                     (trace w ++ [EvWrite p (JsonLine row)])))
    as (new & E & F).
  match goal with |- context [open_write ?q ModeA ?x] =>
    destruct (open_write q ModeA x) as [w2 [[]|e2]] end; [discriminate|].
  intros H. injection H as <- <-. cbn [fst snd] in *. split; [|split].
  - unfold ptrace. cbn [snd]. rewrite E. cbn [trace].
    rewrite !json_writes_app, (json_writes_none new).
    + rewrite app_nil_r. reflexivity.
    + eapply Forall_impl; [exact F | intros ev [H _]; exact H].
  - reflexivity.
  - intros row'. reflexivity.
Qed.

Section MoreProperties.
Context {ext : Externals}.

Lemma prefix_map_unknown cfg : prefix_map cfg !! "unknown" = None.
Proof.
  unfold prefix_map. rewrite lookup_insert_ne by discriminate.
  apply lookup_singleton_ne. discriminate.
Qed.

(** A file of a known kind that can be read, before a shard 0 exists. *)
Lemma processFile_recognised cfg path k wr data rows w pre :
  prefix_map cfg !! detect_file_type path = Some pre ->
  fs w !! path = Some (File wr data) ->
  getFileJsonStream path data = Some rows ->
  fs w !! shard_name cfg pre 0 = None ->
  processFile cfg path k w
  = with_local
      (MkSplitWriter pre 1 0 (Some (FileObj (shard_name cfg pre 0) false)))
      (rows_loop cfg path k 0 rows ;; SplitWriter_close)
      (World (<[shard_name cfg pre 0 := File true []]> (fs w))
             (trace w
              ++ [EvPrint ("Processing " +:+ path +:+ " ["
                           +:+ detect_file_type path +:+ "]");
                  EvOpen path ModeRB;
                  EvOpen (shard_name cfg pre 0) ModeA])).
Proof.
  intros Hkind Hfile Hstream Hnew. unfold processFile.
  destruct (String.eqb_spec (detect_file_type path) "unknown") as [E|_].
  - rewrite E, prefix_map_unknown in Hkind. discriminate.
  - set (w1 := World (fs w)
                 (trace w ++ [EvPrint ("Processing " +:+ path +:+ " ["
                                       +:+ detect_file_type path +:+ "]")])).
    rewrite (bind_ok _ _ w w1 tt) by reflexivity.
    rewrite (bind_ok _ _ _ _ _ (open_read_file path ModeRB w1 wr data Hfile)).
    rewrite Hstream, Hkind.
    set (w2 := World (fs w1) (trace w1 ++ [EvOpen path ModeRB])).
    rewrite (bind_ok _ _ _ _ _ (init_ok cfg _ w2 Hnew)).
    unfold w2, w1. simpl. rewrite <- !app_assoc. reflexivity.
Qed.

(** X4.  A run over one file on fresh shards.  For a file of a known kind
    whose stream is [rows], with [n] rows to a shard ([n] at least 1), no
    shard of that kind yet, and the error log and the checkpoint file
    openable: [processFile] returns, and for every index the shard of
    that index holds the group of that index of the matching rows, [n]
    rows in each shard but the last, in the order of the stream; a shard
    exists exactly when its index times [n] is at most the number of
    matching rows, so a count that is a multiple of [n] leaves an empty
    last shard. *)
Theorem fresh_run_fills_shards_in_order cfg path wr data rows w pre n :
  rows_per_file cfg = Z.of_nat n -> (1 <= n)%nat ->
  prefix_map cfg !! detect_file_type path = Some pre ->
  fs w !! path = Some (File wr data) ->
  getFileJsonStream path data = Some rows ->
  (forall j : nat, fs w !! shard_name cfg pre (Z.of_nat j) = None) ->
  writable_at w (error_log_file cfg) ->
  writable_at w (progress_file cfg) ->
  exists w',
    processFile cfg path 0 w = (w', Ok tt)
    /\ (forall j : nat,
          fs w' !! shard_name cfg pre (Z.of_nat j)
          = if (j * n <=? length (List.filter (row_matches cfg) rows))%nat
            then Some (File true
                         (JsonLine <$> group n (List.filter (row_matches cfg) rows) j))
            else None)
    /\ (forall j : nat,
          (length (file_data w' (shard_name cfg pre (Z.of_nat j))) <= n)%nat).
Proof.
  intros Hcap Hpos Hkind Hfile Hstream Hfresh He Hp.
  rewrite (processFile_recognised cfg path 0 wr data rows w pre Hkind Hfile Hstream
             (Hfresh 0%nat)).
  unfold with_local.
  match goal with |- context [bind _ _ ?s] => set (s0 := s) end.
  assert (Hlog : forall p, (forall j, shard_name cfg pre j <> p) ->
                           writable_at w p -> writable_at (snd s0) p).
  { intros p Hne Hw. unfold s0, writable_at. cbn [snd fs].
    rewrite lookup_insert_ne by apply Hne. exact Hw. }
  destruct (sharded_loop cfg pre n Hcap Hpos path rows 0 [] s0 ltac:(lia))
    as (s' & Hloop & q & r & _ & _ & Hsw & Hfs).
  - apply sharded_start; assumption.
  - apply Hlog; [intros j; apply shard_is_no_log | exact He].
  - apply Hlog; [intros j; apply shard_is_no_log | exact Hp].
  - rewrite (bind_ok _ _ _ _ _ Hloop).
    exists (snd s'). split; [|split; [exact Hfs|]].
    + unfold SplitWriter_close, bind, get_self, set_self. rewrite Hsw. reflexivity.
    + intros j. unfold file_data. rewrite Hfs.
      destruct (_ <=? _)%nat; [|simpl; lia].
      rewrite length_fmap. unfold group. rewrite length_take. lia.
Qed.

(** ** Files that cannot be streamed, and exceptions between files *)

(** X7.  A file of a known kind that cannot be streamed leaves every file
    as it was and opens no shard: a missing file and a directory make
    [processFile] raise the exception of [open], a file whose format the
    stream adapter does not recognise is skipped with a notice. *)
Theorem unstreamable_file_leaves_no_output cfg path k w :
  detect_file_type path <> "unknown" ->
  let notice := EvPrint ("Processing " +:+ path +:+ " ["
                         +:+ detect_file_type path +:+ "]") in
  (fs w !! path = None ->
   processFile cfg path k w
   = (World (fs w) (trace w ++ [notice; EvOpen path ModeRB]),
      Raise (FileNotFoundError path)))
  /\ (fs w !! path = Some Dir ->
      processFile cfg path k w
      = (World (fs w) (trace w ++ [notice; EvOpen path ModeRB]),
         Raise (IsADirectoryError path)))
  /\ (forall wr data,
         fs w !! path = Some (File wr data) ->
         getFileJsonStream path data = None ->
         processFile cfg path k w
         = (World (fs w)
                  (trace w ++ [notice; EvOpen path ModeRB;
                               EvPrint ("Skipping unknown format " +:+ path)]),
            Ok tt)).
Proof.
  intros Hkind notice. unfold processFile.
  destruct (String.eqb_spec (detect_file_type path) "unknown") as [E|_];
    [contradiction|].
  set (w1 := World (fs w) (trace w ++ [notice])).
  rewrite (bind_ok _ _ w w1 tt) by reflexivity.
  split; [|split].
  - intros H. unfold bind, open_read, record_open, get_node, bind. cbn [fst snd fs].
    unfold w1. cbn [fs trace]. rewrite H. unfold raise. rewrite <- app_assoc. reflexivity.
  - intros H. unfold bind, open_read, record_open, get_node, bind. cbn [fst snd fs].
    unfold w1. cbn [fs trace]. rewrite H. unfold raise. rewrite <- app_assoc. reflexivity.
  - intros wr data Hfile Hstream.
    rewrite (bind_ok _ _ _ _ _ (open_read_file path ModeRB w1 wr data Hfile)).
    rewrite Hstream. unfold print, w1. cbn [fs trace].
    rewrite <- !app_assoc. reflexivity.
Qed.

Lemma processFolder_app cfg a b w :
  processFolder cfg (a ++ b) None 0 w
  = match processFolder cfg a None 0 w with
    | (w1, Ok _) => processFolder cfg b None 0 w1
    | (w1, Raise e) => (w1, Raise e)
    end.
Proof.
  unfold processFolder. revert w. induction a as [|f a IH]; intros w; [reflexivity|].
  change ((f :: a) ++ b) with (f :: (a ++ b)). cbn [folder_loop].
  destruct (processFile cfg f 0 w) as [w1 [[]|e]] eqn:E.
  - rewrite !(bind_ok _ _ _ _ _ E). apply IH.
  - rewrite !(bind_raise _ _ _ _ _ E). reflexivity.
Qed.

(** X8.  An exception that leaves [processFile] ends the run: when the
    files listed before [f] are processed and [processFile] raises on
    [f], [processFolder] raises that exception from the state [f] left,
    and the files listed after [f] are not processed. *)
Theorem exception_in_a_file_ends_the_run cfg before f after w w1 w2 e :
  processFolder cfg before None 0 w = (w1, Ok tt) ->
  processFile cfg f 0 w1 = (w2, Raise e) ->
  processFolder cfg (before ++ f :: after) None 0 w = (w2, Raise e).
Proof.
  intros Hbefore Hf. rewrite processFolder_app, Hbefore.
  unfold processFolder. cbn [folder_loop].
  apply (bind_raise _ _ _ _ _ Hf).
Qed.

(** ** Start-up *)

(** X9.  In a run on a single file, the checkpoint is used whatever file
    it names: after a [save_progress] for any path [f] and ordinal [k],
    [main] on a [fileOrFolderPath] that is not a directory processes that
    file from row [k]. *)
Theorem single_file_run_resumes_at_any_checkpoint cfg listing f k w :
  checkpointable f = true ->
  writable_at w (progress_file cfg) ->
  fs w !! fileOrFolderPath cfg <> Some Dir ->
  main cfg listing (fst (save_progress cfg f k w))
  = (processFile cfg (fileOrFolderPath cfg) k ;; print "Done :>")
      (World (<[progress_file cfg := File true [Text (progress_line f k)]]> (fs w))
             (trace w ++ [EvOpen (progress_file cfg) ModeW;
                          EvWrite (progress_file cfg) (Text (progress_line f k));
                          EvOpen (progress_file cfg) ModeR])).
Proof.
  intros Hf Hw Hroot. rewrite (save_progress_ok _ _ _ _ Hw). cbn [fst].
  unfold main. rewrite (bind_ok _ _ _ _ _ (load_progress_saved cfg f k _ _ Hf)).
  cbn [fst snd].
  assert (Hdir : forall t, path_isdir (fileOrFolderPath cfg)
                   (World (<[progress_file cfg := File true [Text (progress_line f k)]]>
                             (fs w)) t)
                 = (World (<[progress_file cfg := File true [Text (progress_line f k)]]>
                             (fs w)) t, Ok false)).
  { intros t. unfold path_isdir. cbn [fs]. rewrite lookup_insert.
    case_decide; [reflexivity|].
    destruct (fs w !! fileOrFolderPath cfg) as [[]|]; try reflexivity.
    contradiction. }
  rewrite (bind_ok _ _ _ _ _ (Hdir _)).
  assert (Ht : truthy (Some f) = true).
  { destruct f; [discriminate | reflexivity]. }
  rewrite Ht, <- app_assoc. reflexivity.
Qed.

Lemma load_progress_reads cfg w wr data :
  fs w !! progress_file cfg = Some (File wr data) ->
  load_progress cfg w
  = (let line := strip (readline (text_of data)) in
     if is_empty line then ret (None, 0)
     else
       match split TAB line with
       | [file; row_idx] =>
           match int row_idx with
           | Some n => ret (Some file, n)
           | None =>
               raise (ValueError (invalid_literal row_idx))
           end
       | [_] => raise (ValueError "not enough values to unpack (expected 2, got 1)")
       | _ => raise (ValueError "too many values to unpack (expected 2)")
       end)
      (World (fs w) (trace w ++ [EvOpen (progress_file cfg) ModeR])).
Proof.
  intros H. unfold load_progress.
  rewrite (bind_ok _ _ w w true).
  - rewrite (bind_ok _ _ _ _ _ (open_read_file _ ModeR w wr data H)). reflexivity.
  - unfold path_exists. rewrite H, bool_decide_eq_true_2 by eauto. reflexivity.
Qed.

Lemma load_progress_dir cfg w :
  fs w !! progress_file cfg = Some Dir ->
  load_progress cfg w
  = (World (fs w) (trace w ++ [EvOpen (progress_file cfg) ModeR]),
     Raise (IsADirectoryError (progress_file cfg))).
Proof.
  intros H. unfold load_progress.
  rewrite (bind_ok _ _ w w true).
  - apply bind_raise. unfold open_read, bind, record_open, get_node. cbn [fs].
    rewrite H. reflexivity.
  - unfold path_exists. rewrite H, bool_decide_eq_true_2 by eauto. reflexivity.
Qed.

Lemma load_progress_fs cfg w : fs (fst (load_progress cfg w)) = fs w.
Proof.
  destruct (fs w !! progress_file cfg) as [[|wr data]|] eqn:E.
  - rewrite (load_progress_dir cfg w E). reflexivity.
  - rewrite (load_progress_reads cfg w wr data E). cbv zeta.
    destruct (is_empty _); [reflexivity|].
    destruct (split TAB _) as [|a [|b [|c l]]]; try reflexivity.
    destruct (int b); reflexivity.
  - unfold load_progress, bind, path_exists. rewrite E.
    rewrite bool_decide_eq_false_2; [reflexivity|]. intros [x Hx]. discriminate.
Qed.

(** X10.  [load_progress] never changes a file.  A checkpoint file whose
    first line is empty or blank (as after a save cut short) counts as no
    checkpoint; one whose first line has text but no tab makes
    [load_progress] raise [ValueError], and so does one whose second
    field [int] rejects, with the message of [int] (the [repr] of the
    field, cut after 200 characters); and a directory in its place makes
    it raise [IsADirectoryError]. *)
Theorem load_progress_edge_cases cfg w :
  fs (fst (load_progress cfg w)) = fs w
  /\ (forall wr data,
         fs w !! progress_file cfg = Some (File wr data) ->
         is_empty (strip (readline (text_of data))) = true ->
         snd (load_progress cfg w) = Ok (None, 0))
  /\ (forall wr data,
         fs w !! progress_file cfg = Some (File wr data) ->
         is_empty (strip (readline (text_of data))) = false ->
         all_chars (fun c => negb (Ascii.eqb c TAB)) (strip (readline (text_of data)))
         = true ->
         snd (load_progress cfg w)
         = Raise (ValueError "not enough values to unpack (expected 2, got 1)"))
  /\ (forall wr data file row_idx,
         fs w !! progress_file cfg = Some (File wr data) ->
         is_empty (strip (readline (text_of data))) = false ->
         split TAB (strip (readline (text_of data))) = [file; row_idx] ->
         int row_idx = None ->
         snd (load_progress cfg w)
         = Raise (ValueError (invalid_literal row_idx)))
  /\ (fs w !! progress_file cfg = Some Dir ->
      snd (load_progress cfg w) = Raise (IsADirectoryError (progress_file cfg))).
Proof.
  split; [|split; [|split; [|split]]].
  - apply load_progress_fs.
  - intros wr data E Hblank. rewrite (load_progress_reads cfg w wr data E).
    cbv zeta. rewrite Hblank. reflexivity.
  - intros wr data E Hne Htab. rewrite (load_progress_reads cfg w wr data E).
    cbv zeta. rewrite Hne, (split_plain _ _ Htab). reflexivity.
  - intros wr data file row_idx E Hne Hsplit Hint.
    rewrite (load_progress_reads cfg w wr data E).
    cbv zeta. rewrite Hne, Hsplit, Hint. reflexivity.
  - intros E. rewrite (load_progress_dir cfg w E). reflexivity.
Qed.

End MoreProperties.

(** ** Checkpoints of the loop *)

Lemma emits_open_write_any C path mode :
  (forall p m, C (EvOpen p m)) -> emits trace C (open_write path mode).
Proof.
  intros HC. apply (emits_weaken _ (fun ev => exists p m, ev = EvOpen p m)).
  - intros ev (p & m & ->). apply HC.
  - intros w. exists [EvOpen path mode]. split.
    + unfold open_write, bind; simpl.
      destruct (fs w !! path) as [[|[] d]|]; try destruct mode; reflexivity.
    + repeat constructor. eauto.
Qed.

Lemma emits_open_new_file_any C cfg :
  (forall p m, C (EvOpen p m)) -> emits ptrace C (SplitWriter_open_new_file cfg).
Proof.
  intros HC. unfold SplitWriter_open_new_file.
  apply emits_bind; [apply emits_get_self|]. intros self.
  apply emits_bind.
  - destruct (out self); [apply emits_set_self | apply emits_ret].
  - intros _. apply emits_bind; [apply emits_get_self|]. intros self'.
    apply emits_bind; [apply emits_lift, emits_open_write_any, HC|].
    intros _. apply emits_set_self.
Qed.

Lemma emits_checkpoint_handle_row cfg path lo hi i row :
  lo <= i < hi ->
  emits ptrace (checkpoint_event cfg path lo hi) (handle_row cfg path i row).
Proof.
  intros Hi. unfold handle_row. apply emits_try.
  - unfold try_body. apply emits_bind; [apply emits_silent; reflexivity|].
    intros t. destruct (bool_decide _); [|apply emits_ret].
    apply emits_bind.
    + unfold SplitWriter_write.
      apply emits_bind; [apply emits_get_self|]. intros self.
      apply emits_bind.
      * destruct (out self) as [fo|]; [|apply emits_raise].
        destruct (fo_closed fo); [apply emits_raise|].
        apply emits_lift, emits_fwrite. exact I.
      * intros _. apply emits_bind; [apply emits_set_self|].
        intros _. apply emits_bind; [apply emits_get_self|]. intros self'.
        destruct (_ <=? _); [|apply emits_ret].
        apply emits_open_new_file_any. intros p m. exact I.
    + intros _. destruct (Z.eqb_spec (i mod 1000) 0) as [Hmod|_]; [|apply emits_ret].
      apply emits_lift. unfold save_progress.
      apply emits_bind; [apply emits_open_write_any; intros p m; exact I|].
      intros _. apply emits_fwrite. intros _. exists i. auto.
  - intros e. apply emits_lift. unfold log_error.
    apply emits_bind; [apply emits_open_write_any; intros p m; exact I|].
    intros _. apply emits_bind.
    + apply emits_fwrite. intros E. exfalso. exact (logs_differ cfg E).
    + intros _. apply emits_fwrite. exact I.
Qed.

Lemma saved_lines_app cfg t1 t2 :
  saved_lines cfg (t1 ++ t2) = saved_lines cfg t1 ++ saved_lines cfg t2.
Proof. apply omap_app. Qed.

(** X11.  Every checkpoint the row loop saves names the file being
    processed and the ordinal of one of the rows it handled, a multiple
    of 1000 that is not below the row the run started from. *)
Theorem checkpoints_name_the_file_and_a_handled_row cfg path k i0 rows s :
  exists new,
    ptrace (fst (rows_loop cfg path k i0 rows s)) = ptrace s ++ new
    /\ Forall (fun line =>
                 exists i, line = progress_line path i /\ i mod 1000 = 0
                           /\ k <= i /\ i0 <= i < i0 + Z.of_nat (length rows))
              (saved_lines cfg new).
Proof.
  assert (H : forall rows i0,
             emits ptrace
               (checkpoint_event cfg path (Z.max i0 k) (i0 + Z.of_nat (length rows)))
               (rows_loop cfg path k i0 rows)).
  { clear. intros rows. induction rows as [|row rows IH]; intros i0.
    - apply emits_ret.
    - cbn [rows_loop]. apply emits_bind.
      + destruct (Z.ltb_spec i0 k); [apply emits_ret|].
        apply emits_checkpoint_handle_row. cbn [length]. lia.
      + intros _. eapply emits_weaken; [|apply (IH (i0 + 1))].
        intros ev. destruct ev as [| |p [line| |]]; simpl; auto.
        intros Hev E. destruct (Hev E) as (i & Hline & Hmod & Hi).
        exists i. repeat split; try assumption; lia. }
  destruct (H rows i0 s) as (new & E & F). exists new. split; [exact E|].
  clear E. induction F as [|ev new Hev _ IH]; [constructor|].
  change (ev :: new) with ([ev] ++ new). rewrite saved_lines_app.
  apply Forall_app. split; [|exact IH].
  destruct ev as [| |p [line| |]]; unfold saved_lines; simpl; try constructor.
  destruct (String.eqb_spec p (progress_file cfg)) as [->|_]; [|constructor].
  constructor; [|constructor].
  destruct (Hev eq_refl) as (i & -> & Hmod & Hi). exists i. repeat split; lia.
Qed.

(** ** Appending only *)

Lemma begins_with_insert_other p old path nd m t t' :
  path <> p -> begins_with p old (World m t') ->
  begins_with p old (World (<[path := nd]> m) t).
Proof.
  intros Hne (more & H). exists more. unfold file_data in *. cbn [fs] in *.
  rewrite lookup_insert_ne by exact Hne. exact H.
Qed.

Lemma keeps_data_open_write p old path mode :
  (mode = ModeW -> path <> p) ->
  keeps id (begins_with p old) (open_write path mode).
Proof.
  intros Hmode w (more & Hw). unfold id in *.
  unfold open_write, bind, record_open, get_node. cbn [fst snd fs].
  destruct (fs w !! path) as [[|[] d]|] eqn:E; cbn [fst];
    try (exists more; exact Hw).
  - destruct mode; cbn [fst]; try (exists more; exact Hw).
    unfold set_node. cbn [fst].
    apply (begins_with_insert_other p old path _ _ _ (trace w)); [auto|].
    exists more. exact Hw.
  - unfold set_node. cbn [fst].
    destruct (decide (path = p)) as [->|Hne].
    + unfold file_data in Hw. rewrite E in Hw.
      exists more. unfold file_data. cbn [fs]. rewrite lookup_insert_eq. exact Hw.
    + apply (begins_with_insert_other p old path _ _ _ (trace w)); [exact Hne|].
      exists more. exact Hw.
Qed.

Lemma keeps_data_fwrite p old path c :
  keeps id (begins_with p old) (fwrite path c).
Proof.
  intros w (more & Hw). unfold id, fwrite, begins_with, file_data in *. cbn [fst fs].
  rewrite lookup_alter. case_decide; [subst|eauto].
  destruct (fs w !! p) as [[|wr d]|]; cbn; eauto.
  exists (more ++ [c]). rewrite Hw, app_assoc. reflexivity.
Qed.

Lemma keeps_data_log_error p old cfg path i e :
  keeps id (begins_with p old) (log_error cfg path i e).
Proof.
  unfold log_error. apply keeps_bind; [apply keeps_data_open_write; discriminate|].
  intros _. apply keeps_bind; [apply keeps_data_fwrite|]. intros _.
  apply keeps_data_fwrite.
Qed.

Lemma keeps_data_save_progress p old cfg path i :
  p <> progress_file cfg ->
  keeps id (begins_with p old) (save_progress cfg path i).
Proof.
  intros Hp. unfold save_progress.
  apply keeps_bind; [apply keeps_data_open_write; congruence|]. intros _.
  apply keeps_data_fwrite.
Qed.

Lemma keeps_data_open_new_file p old cfg :
  keeps snd (begins_with p old) (SplitWriter_open_new_file cfg).
Proof.
  unfold SplitWriter_open_new_file.
  apply keeps_bind; [apply keeps_silent; reflexivity|]. intros self.
  apply keeps_bind.
  - destruct (out self); apply keeps_silent; reflexivity.
  - intros _. apply keeps_bind; [apply keeps_silent; reflexivity|]. intros self'.
    apply keeps_bind; [apply keeps_lift, keeps_data_open_write; discriminate|].
    intros _. apply keeps_silent. reflexivity.
Qed.

Lemma keeps_data_handle_row p old cfg path i row :
  p <> progress_file cfg ->
  keeps snd (begins_with p old) (handle_row cfg path i row).
Proof.
  intros Hp. unfold handle_row. apply keeps_try.
  - unfold try_body. apply keeps_bind; [apply keeps_silent; reflexivity|].
    intros t. destruct (bool_decide _); [|apply keeps_ret].
    apply keeps_bind.
    + unfold SplitWriter_write.
      apply keeps_bind; [apply keeps_silent; reflexivity|]. intros self.
      apply keeps_bind.
      * destruct (out self) as [fo|]; [|apply keeps_raise].
        destruct (fo_closed fo); [apply keeps_raise|].
        apply keeps_lift, keeps_data_fwrite.
      * intros _. apply keeps_bind; [apply keeps_silent; reflexivity|].
        intros _. apply keeps_bind; [apply keeps_silent; reflexivity|]. intros self'.
        destruct (_ <=? _); [apply keeps_data_open_new_file | apply keeps_ret].
    + intros _. destruct (_ =? _); [|apply keeps_ret].
      apply keeps_lift, keeps_data_save_progress, Hp.
  - intros e. apply keeps_lift, keeps_data_log_error.
Qed.

Lemma keeps_data_rows_loop p old cfg path k rows : forall i,
  p <> progress_file cfg ->
  keeps snd (begins_with p old) (rows_loop cfg path k i rows).
Proof.
  induction rows as [|row rows IH]; intros i Hp; [apply keeps_ret|].
  cbn [rows_loop]. apply keeps_bind.
  - destruct (_ <? _); [apply keeps_ret | apply keeps_data_handle_row, Hp].
  - intros _. apply IH, Hp.
Qed.

Lemma keeps_with_local {A} (P : world -> Prop) sw (m : M pstate A) :
  keeps snd P m -> keeps id P (with_local sw m).
Proof.
  intros Hm w Hw. unfold with_local, id in *. specialize (Hm (sw, w) Hw).
  destruct (m (sw, w)) as [s' r]. exact Hm.
Qed.

Lemma keeps_data_same_fs {S A} (wd : S -> world) p old (m : M S A) :
  (forall s, fs (wd (fst (m s))) = fs (wd s)) -> keeps wd (begins_with p old) m.
Proof.
  intros H s (more & Hs). exists more. unfold file_data in *. rewrite H. exact Hs.
Qed.

Section Whole.
Context {ext : Externals}.

Lemma keeps_data_processFile p old cfg path k :
  p <> progress_file cfg ->
  keeps id (begins_with p old) (processFile cfg path k).
Proof.
  intros Hp. unfold processFile.
  destruct (String.eqb _ _); [apply keeps_data_same_fs; reflexivity|].
  apply keeps_bind; [apply keeps_data_same_fs; reflexivity|]. intros _.
  apply keeps_bind.
  - apply keeps_data_same_fs. intros w. unfold open_read, bind, record_open, get_node.
    cbn [fst snd fs]. destruct (fs w !! path) as [[|wr d]|]; reflexivity.
  - intros data. destruct (getFileJsonStream path data) as [rows|];
      [|apply keeps_data_same_fs; reflexivity].
    destruct (prefix_map cfg !! _) as [pre|]; [|apply keeps_raise].
    apply keeps_bind.
    + unfold SplitWriter_init. apply keeps_with_local.
      apply keeps_bind; [apply keeps_data_open_new_file|].
      intros _. apply keeps_silent. reflexivity.
    + intros writer. apply keeps_with_local.
      apply keeps_bind; [apply keeps_data_rows_loop, Hp|].
      intros _. apply keeps_silent. intros s. unfold SplitWriter_close, bind, get_self.
      cbn [fst snd]. destruct (out (fst s)); reflexivity.
Qed.

Lemma keeps_data_folder_loop p old cfg sf k files : forall started,
  p <> progress_file cfg ->
  keeps id (begins_with p old) (folder_loop cfg sf k started files).
Proof.
  induction files as [|f files IH]; intros started Hp; [apply keeps_ret|].
  cbn [folder_loop]. destruct started.
  - apply keeps_bind; [apply keeps_data_processFile, Hp|]. intros _. apply IH, Hp.
  - destruct sf as [sf|]; [|apply keeps_raise].
    destruct (String.eqb _ _); [|apply IH, Hp].
    apply keeps_bind; [apply keeps_data_processFile, Hp|]. intros _. apply IH, Hp.
Qed.

Lemma keeps_data_makedirs p old path : keeps id (begins_with p old) (makedirs path).
Proof.
  intros w (more & Hw). unfold makedirs, bind, get_node, set_node, begins_with,
    file_data, id in *. cbn [fst snd].
  destruct (fs w !! path) as [[|wr d]|] eqn:E; cbn [fst fs]; [exists more; exact Hw ..|].
  destruct (decide (path = p)) as [->|Hne].
  - rewrite E in Hw. rewrite lookup_insert_eq. exists more. exact Hw.
  - rewrite lookup_insert_ne by exact Hne. exists more. exact Hw.
Qed.

Lemma keeps_data_main p old cfg listing :
  p <> progress_file cfg ->
  keeps id (begins_with p old) (main cfg listing).
Proof.
  intros Hp. unfold main. apply keeps_bind.
  - apply keeps_data_same_fs. intros w0. apply load_progress_fs.
  - intros ck. apply keeps_bind; [apply keeps_data_same_fs; reflexivity|].
    intros isdir. apply keeps_bind.
    + destruct isdir; [apply keeps_data_folder_loop, Hp
                      | apply keeps_data_processFile, Hp].
    + intros _. apply keeps_data_same_fs. reflexivity.
Qed.

(** X12.  A run only ever appends.  Whatever the files hold and whether
    the script returns or raises, every file other than the checkpoint
    file still begins, after the run, with all it held before: no shard,
    no error log entry and no input is truncated or rewritten. *)
Theorem run_only_appends cfg listing w p :
  p <> progress_file cfg ->
  exists more, file_data (fst (script cfg listing w)) p = file_data w p ++ more.
Proof.
  intros Hp.
  apply (fun H : keeps id (begins_with p (file_data w p)) (script cfg listing) =>
           H w (ex_intro _ [] (eq_sym (app_nil_r _)))).
  unfold script. apply keeps_bind; [apply keeps_data_makedirs|].
  intros _. apply keeps_data_main, Hp.
Qed.

Lemma routed_plain cfg pre ev : plain ev -> routed cfg pre ev.
Proof.
  destruct ev as [m|p md|p [x|r|e]]; intros [H _]; simpl in *; try exact I; contradiction.
Qed.

Lemma routed_of_json_writes cfg pre new :
  Forall (fun pr => row_matches cfg (snd pr) = true
                    /\ exists j, fst pr = shard_name cfg pre j) (json_writes new) ->
  Forall (routed cfg (Some pre)) new.
Proof.
  induction new as [|ev new IH]; intros H; [constructor|].
  change (ev :: new) with ([ev] ++ new) in H. rewrite json_writes_app in H.
  destruct ev as [m|p md|p [x|r|e]]; cbn in H;
    try (constructor; [exact I | apply IH, H]).
  inversion H as [|pr l [Hm [j Hj]] Hl]; subst. constructor; [|apply IH, Hl].
  simpl in *. split; [exact Hm|]. exists pre, j. split; [reflexivity | exact Hj].
Qed.

Lemma Forall_of_sublist {A} (P : A -> Prop) (l1 l2 : list A) :
  sublist l1 l2 -> Forall P l2 -> Forall P l1.
Proof.
  induction 1 as [|x l1 l2 _ IH|x l1 l2 _ IH]; intros H; [constructor| |];
    inversion H; subst; [constructor|]; auto.
Qed.

Lemma rows_loop_routed cfg pre path k i rows s :
  named_for cfg pre (fst s) ->
  exists new,
    ptrace (fst (rows_loop cfg path k i rows s)) = ptrace s ++ new
    /\ Forall (routed cfg (Some pre)) new.
Proof.
  intros Hn. destruct (rows_loop_writes cfg pre path k i rows s Hn)
    as (new & E & Hsub & Hall).
  exists new. split; [exact E|]. apply routed_of_json_writes.
  apply List.Forall_and; [|exact Hall].
  apply (Forall_map snd (fun r => row_matches cfg r = true)).
  apply (Forall_of_sublist _ _ _ Hsub).
  apply List.Forall_forall. intros r Hr. apply List.filter_In in Hr. apply Hr.
Qed.

Lemma init_named cfg pre w :
  exists new,
    trace (fst (SplitWriter_init cfg pre w)) = trace w ++ new
    /\ Forall plain new
    /\ forall sw, snd (SplitWriter_init cfg pre w) = Ok sw -> named_for cfg pre sw.
Proof.
  unfold SplitWriter_init, with_local.
  set (s0 := (MkSplitWriter pre 0 0 None, w)).
  destruct (emits_bind ptrace plain (SplitWriter_open_new_file cfg)
              (fun _ => get_self) (emits_open_new_file cfg)
              (fun _ => emits_get_self plain) s0) as (n1 & E1 & F1).
  assert (Hnamed : named_for cfg pre
                     (fst (fst (bind (SplitWriter_open_new_file cfg)
                                     (fun _ => get_self) s0)))).
  { apply (keeps_bind fst (named_for cfg pre)
             (SplitWriter_open_new_file cfg) (fun _ => get_self)).
    - apply keeps_named_open_new_file.
    - intros _. apply keeps_silent. reflexivity.
    - split; [reflexivity | discriminate]. }
  assert (Hself : forall s1 sw,
            bind (SplitWriter_open_new_file cfg) (fun _ => get_self) s0
            = (s1, Ok sw) -> sw = fst s1).
  { intros s1 sw. unfold bind, get_self.
    destruct (SplitWriter_open_new_file cfg s0) as [s2 [[]|e]];
      intros H; [injection H as <- <-; reflexivity | discriminate]. }
  destruct (bind (SplitWriter_open_new_file cfg) (fun _ => get_self) s0)
    as [s1 r] eqn:Einit.
  exists n1. cbn [fst snd] in *. split; [exact E1|]. split; [exact F1|].
  intros sw ->. rewrite (Hself s1 sw eq_refl). exact Hnamed.
Qed.

Lemma loop_close_routed cfg pre path k rows sw w :
  named_for cfg pre sw ->
  exists new,
    trace (fst (with_local sw
                  (bind (rows_loop cfg path k 0 rows) (fun _ => SplitWriter_close))
                  w)) = trace w ++ new
    /\ Forall (routed cfg (Some pre)) new.
Proof.
  intros Hn. destruct (rows_loop_routed cfg pre path k 0 rows (sw, w) Hn)
    as (new & E & F).
  exists new. split; [|exact F]. unfold with_local, bind.
  destruct (rows_loop cfg path k 0 rows (sw, w)) as [s2 [[]|e]]; [|exact E].
  unfold SplitWriter_close, bind, get_self. cbn [fst snd].
  destruct (out (fst s2)); exact E.
Qed.

(** X13.  [processFile] routes by kind.  Every row it writes matches the
    filter and goes to a shard named with the prefix that [prefix_map]
    gives for the kind of the file: the rows of a submission file never
    reach a comment shard, nor the reverse, and a file of unknown kind
    writes no row at all. *)
Theorem processFile_writes_to_its_kind cfg path k w :
  exists new,
    trace (fst (processFile cfg path k w)) = trace w ++ new
    /\ Forall (routed cfg (prefix_map cfg !! detect_file_type path)) new.
Proof.
  revert w.
  change (emits trace (routed cfg (prefix_map cfg !! detect_file_type path))
                (processFile cfg path k)).
  assert (Hprint : forall msg,
            emits trace (routed cfg (prefix_map cfg !! detect_file_type path))
                  (print msg)).
  { intros msg. apply (emits_one _ _ _ (EvPrint msg)); [exact I | reflexivity]. }
  unfold processFile. destruct (String.eqb _ _); [apply Hprint|].
  apply emits_bind; [apply Hprint|]. intros _.
  apply emits_bind.
  - apply (emits_one _ _ _ (EvOpen path ModeRB)); [exact I|].
    intros w. unfold open_read, bind, record_open, get_node. cbn [fst snd fs].
    destruct (fs w !! path) as [[|wr d]|]; reflexivity.
  - intros data. destruct (getFileJsonStream path data) as [rows|]; [|apply Hprint].
    destruct (prefix_map cfg !! detect_file_type path) as [pre|]; [|apply emits_raise].
    intros w. unfold bind at 1.
    destruct (init_named cfg pre w) as (n1 & E1 & F1 & Hn).
    destruct (SplitWriter_init cfg pre w) as [w1 [sw|e]]; cbn [fst snd] in *.
    + destruct (loop_close_routed cfg pre path k rows sw w1 (Hn sw eq_refl))
        as (n2 & E2 & F2).
      exists (n1 ++ n2). rewrite E2, E1, app_assoc. split; [reflexivity|].
      apply Forall_app. split; [|exact F2].
      eapply Forall_impl; [exact F1 | apply routed_plain].
    + exists n1. split; [exact E1|].
      eapply Forall_impl; [exact F1 | apply routed_plain].
Qed.

End Whole.

(* ================================================================== *)
(** * The filter and the checkpoint over a whole stream *)

(** ** A writer that cannot fail *)

Lemma keeps_ready_lift {A} cfg pre (m : M world A) :
  (forall q, keeps id (fun w => writable_at w q) m) ->
  keeps id (ready cfg pre) (lift_world m).
Proof.
  intros Hm [sw w] (Hn & Ho & Hsh & Hlog). unfold id in *. cbn [fst snd] in *.
  pose proof (fun q => Hm q w) as Hq. unfold lift_world. cbn [snd fst].
  destruct (m w) as [w' r]. cbn [fst snd] in *.
  split; [exact Hn|]. split; [exact Ho|]. split.
  - intros j. apply Hq, Hsh.
  - apply Hq, Hlog.
Qed.

Lemma write_ready cfg pre row s :
  ready cfg pre s ->
  exists s', SplitWriter_write cfg row s = (s', Ok tt) /\ ready cfg pre s'.
Proof.
  destruct s as [sw w]. intros (Hn & (p & Hp) & Hsh & Hlog). cbn [fst snd] in *.
  set (sw1 := MkSplitWriter (prefix sw) (file_index sw) (row_count sw + 1) (out sw)).
  set (w1 := fst (fwrite p (JsonLine row) w)).
  assert (E : SplitWriter_write cfg row (sw, w)
              = (if rows_per_file cfg <=? row_count sw + 1
                 then SplitWriter_open_new_file cfg else ret tt) (sw1, w1)).
  { subst sw1 w1.
    unfold SplitWriter_write, bind, get_self, set_self, lift_world, fwrite.
    cbn [fst snd]. rewrite Hp. reflexivity. }
  assert (Hw1 : forall q, writable_at w q -> writable_at w1 q)
    by (intros q; apply (keeps_fwrite q p (JsonLine row) w)).
  assert (Hn1 : named_for cfg pre sw1) by (destruct Hn as [H1 H2]; split; assumption).
  rewrite E. destruct (_ <=? _).
  - assert (Hpre : prefix sw1 = pre) by apply Hn.
    rewrite (open_new_file_ok cfg sw1 w1)
      by (rewrite Hpre; apply Hw1, Hsh).
    eexists. split; [reflexivity|]. cbn [fst snd]. rewrite Hpre.
    split; [|split; [|split]].
    + split; [reflexivity|]. cbn [out]. intros fo Hfo. injection Hfo as <-.
      eexists. reflexivity.
    + eexists. reflexivity.
    + intros j. apply writable_at_insert;
        [apply writable_at_fs, Hw1, Hsh | intros _; eexists; reflexivity].
    + apply writable_at_insert;
        [apply writable_at_fs, Hw1, Hlog | intros _; eexists; reflexivity].
  - exists (sw1, w1). split; [reflexivity|]. cbn [fst snd].
    split; [exact Hn1|]. split; [exists p; exact Hp|].
    split; [intros j; apply Hw1, Hsh | apply Hw1, Hlog].
Qed.

Lemma keeps_ready_write cfg pre row :
  keeps id (ready cfg pre) (SplitWriter_write cfg row).
Proof.
  intros s Hs. destruct (write_ready cfg pre row s Hs) as (s' & -> & H). exact H.
Qed.

Lemma keeps_ready_handle_row cfg pre path i row :
  keeps id (ready cfg pre) (handle_row cfg path i row).
Proof.
  unfold handle_row. apply keeps_try.
  - unfold try_body. apply keeps_bind; [apply keeps_silent; reflexivity|].
    intros t. destruct (bool_decide _); [|apply keeps_ret].
    apply keeps_bind; [apply keeps_ready_write|]. intros _.
    destruct (_ =? _); [|apply keeps_ret].
    apply keeps_ready_lift. intros q. apply keeps_save_progress.
  - intros e. apply keeps_ready_lift. intros q. apply keeps_log_error.
Qed.

(** In that state a row is handled without an exception leaving the
    loop, and it is written, to the open shard, exactly when it matches
    the filter. *)
Lemma handle_row_ready cfg pre path i row s :
  ready cfg pre s ->
  exists s' new,
    handle_row cfg path i row s = (s', Ok tt)
    /\ ready cfg pre s'
    /\ ptrace s' = ptrace s ++ new
    /\ map snd (json_writes new) = (if row_matches cfg row then [row] else [])
    /\ Forall (fun pr => exists j, fst pr = shard_name cfg pre j) (json_writes new).
Proof.
  intros Hr. pose proof (keeps_ready_handle_row cfg pre path i row s Hr) as Hr'.
  destruct Hr as (Hn & (p & Hp) & Hsh & Hlog).
  destruct (handle_row_returns cfg path i row s Hlog) as (s' & E & _).
  destruct (handle_row_events cfg path i row s) as (new & Et & _).
  pose proof (handle_row_writes cfg path i row (fst s) (snd s) (FileObj p false)
                Hp eq_refl) as Hw.
  destruct s as [sw w]. cbn [fst snd] in *. rewrite E in *. cbn [fst] in *.
  unfold id in Hr'. exists s', new. split; [reflexivity|]. split; [exact Hr'|].
  split; [exact Et|].
  rewrite Et in Hw. unfold ptrace in Hw. cbn [snd] in Hw.
  rewrite json_writes_app in Hw. apply app_inv_head in Hw. rewrite Hw.
  destruct (row_matches cfg row); cbn [map snd fo_path].
  - split; [reflexivity|]. constructor; [|constructor]. cbn [fst].
    apply (proj2 Hn (FileObj p false) Hp).
  - split; [reflexivity | constructor].
Qed.

Lemma rows_loop_ready cfg pre path k rows : forall i s,
  ready cfg pre s ->
  exists s' new,
    rows_loop cfg path k i rows s = (s', Ok tt)
    /\ ready cfg pre s'
    /\ ptrace s' = ptrace s ++ new
    /\ map snd (json_writes new)
       = List.filter (row_matches cfg) (drop (Z.to_nat (k - i)) rows)
    /\ Forall (fun pr => exists j, fst pr = shard_name cfg pre j) (json_writes new).
Proof.
  induction rows as [|row rows IH]; intros i s Hr.
  - exists s, []. rewrite drop_nil, app_nil_r.
    split; [reflexivity|]. split; [exact Hr|]. split; [reflexivity|].
    split; [reflexivity | constructor].
  - cbn [rows_loop]. destruct (Z.ltb_spec i k) as [Hlt|Hge].
    + rewrite (bind_ok _ _ s s tt) by reflexivity.
      destruct (IH (i + 1) s Hr) as (s' & new & E & Hr' & Et & Hw & Hall).
      exists s', new. split; [exact E|]. split; [exact Hr'|]. split; [exact Et|].
      split; [|exact Hall].
      replace (Z.to_nat (k - i)) with (S (Z.to_nat (k - (i + 1)))) by lia.
      exact Hw.
    + destruct (handle_row_ready cfg pre path i row s Hr)
        as (s1 & n1 & E1 & Hr1 & Et1 & Hw1 & Hall1).
      rewrite (bind_ok _ _ _ _ _ E1).
      destruct (IH (i + 1) s1 Hr1) as (s' & n2 & E & Hr' & Et & Hw & Hall).
      exists s', (n1 ++ n2). split; [exact E|]. split; [exact Hr'|].
      split; [rewrite Et, Et1, app_assoc; reflexivity|].
      rewrite json_writes_app, map_app, Hw1, Hw.
      replace (Z.to_nat (k - i)) with 0%nat by lia.
      replace (Z.to_nat (k - (i + 1))) with 0%nat by lia.
      rewrite !drop_0. split; [|apply Forall_app; split; assumption].
      cbn [List.filter]. destruct (row_matches cfg row); reflexivity.
Qed.

(** ** The entries of the error log *)

Lemma log_writes_app cfg t1 t2 :
  log_writes cfg (t1 ++ t2) = log_writes cfg t1 ++ log_writes cfg t2.
Proof. apply omap_app. Qed.

Lemma log_writes_none cfg new :
  Forall (no_log_write cfg) new -> log_writes cfg new = [].
Proof.
  induction 1 as [|ev new Hev _ IH]; [reflexivity|].
  change (ev :: new) with ([ev] ++ new). rewrite log_writes_app, IH.
  destruct ev as [m|p md|p [x|r|e]]; cbn in *; try reflexivity;
    apply String.eqb_neq in Hev; rewrite Hev; reflexivity.
Qed.

Lemma emits_quiet_try_body cfg path i row :
  emits ptrace (no_log_write cfg) (try_body cfg path i row).
Proof.
  unfold try_body. apply emits_bind; [apply emits_silent; reflexivity|].
  intros t. destruct (bool_decide _); [|apply emits_ret].
  apply emits_bind.
  - unfold SplitWriter_write.
    apply emits_bind; [apply emits_get_self|]. intros self.
    apply emits_bind.
    + destruct (out self) as [fo|]; [|apply emits_raise].
      destruct (fo_closed fo); [apply emits_raise|].
      apply emits_lift, emits_fwrite. exact I.
    + intros _. apply emits_bind; [apply emits_set_self|].
      intros _. apply emits_bind; [apply emits_get_self|]. intros self'.
      destruct (_ <=? _); [|apply emits_ret].
      apply emits_open_new_file_any. intros p m. exact I.
  - intros _. destruct (_ =? _); [|apply emits_ret].
    apply emits_lift. unfold save_progress.
    apply emits_bind; [apply emits_open_write_any; intros p m; exact I|].
    intros _. apply emits_fwrite. intros E. exact (logs_differ cfg (eq_sym E)).
Qed.

(** With the error log openable a row is handled without an exception
    leaving the loop, and what its [try] raises is logged: the header
    with the ordinal of the row, then the trace. *)
Lemma handle_row_logged cfg path i row s :
  writable_at (snd s) (error_log_file cfg) ->
  exists s',
    handle_row cfg path i row s = (s', Ok tt)
    /\ writable_at (snd s') (error_log_file cfg)
    /\ log_writes cfg (ptrace s')
       = log_writes cfg (ptrace s)
         ++ flat_map (log_entry path)
              match snd (try_body cfg path i row s) with
              | Raise e => [(i, e)]
              | Ok _ => []
              end.
Proof.
  intros Hw. unfold handle_row, try_except.
  pose proof (keeps_try_body (error_log_file cfg) cfg path i row s Hw) as H1.
  destruct (emits_quiet_try_body cfg path i row s) as (new & E & F).
  destruct (try_body cfg path i row s) as [s1 [[]|e]]; cbn [fst snd] in *.
  - exists s1. split; [reflexivity|]. split; [exact H1|].
    rewrite E, log_writes_app, (log_writes_none _ _ F). reflexivity.
  - unfold lift_world. rewrite (log_error_ok _ _ _ _ _ H1).
    eexists. split; [reflexivity|]. split.
    + cbn [snd]. apply writable_at_insert;
        [apply writable_at_fs, H1 | intros _; eexists; reflexivity].
    + unfold ptrace in *. cbn [snd trace]. rewrite E.
      rewrite !log_writes_app, (log_writes_none _ _ F), app_nil_r.
      f_equal. cbn. rewrite String.eqb_refl. reflexivity.
Qed.

Lemma rows_loop_logged cfg path k rows : forall i s,
  writable_at (snd s) (error_log_file cfg) ->
  rows_loop cfg path k i rows s = (loop_state cfg path k i rows s, Ok tt)
  /\ writable_at (snd (loop_state cfg path k i rows s)) (error_log_file cfg)
  /\ log_writes cfg (ptrace (loop_state cfg path k i rows s))
     = log_writes cfg (ptrace s)
       ++ flat_map (log_entry path) (raised cfg path k i rows s).
Proof.
  induction rows as [|row rows IH]; intros i s Hw.
  - cbn. rewrite app_nil_r. auto.
  - cbn [rows_loop loop_state raised]. destruct (i <? k).
    + rewrite (bind_ok _ _ s s tt) by reflexivity. apply IH, Hw.
    + destruct (handle_row_logged cfg path i row s Hw) as (s1 & E & H1 & L1).
      rewrite (bind_ok _ _ _ _ _ E), E. cbn [fst].
      destruct (IH (i + 1) s1 H1) as (E2 & H2 & L2).
      split; [exact E2|]. split; [exact H2|].
      rewrite L2, L1, flat_map_app, app_assoc. reflexivity.
Qed.

(** X1.  While the error log can be opened for append, the row loop never
    raises, whatever the rows, the writer, the shards and the checkpoint
    file are: it handles every row from [start_row] on, one after the
    other, and returns in the state that leaves; the error log can still
    be opened afterwards; and the error log has received one entry, the
    header with the ordinal and the trace, for each exception raised in
    the body of the [try], in the order of the rows, and nothing else. *)
Theorem rows_loop_always_returns cfg path k i rows s :
  writable_at (snd s) (error_log_file cfg) ->
  rows_loop cfg path k i rows s = (loop_state cfg path k i rows s, Ok tt)
  /\ writable_at (snd (loop_state cfg path k i rows s)) (error_log_file cfg)
  /\ log_writes cfg (ptrace (loop_state cfg path k i rows s))
     = log_writes cfg (ptrace s)
       ++ flat_map (log_entry path) (raised cfg path k i rows s).
Proof. apply rows_loop_logged. Qed.

Lemma rows_loop_without cfg path k i before row after s :
  "" ∉ target_subreddits cfg -> category_missing row ->
  rows_loop cfg path k i (before ++ row :: after) s
  = (rows_loop cfg path k i before ;;
     rows_loop cfg path k (i + Z.of_nat (length before) + 1) after) s.
Proof.
  intros Hempty Hmiss. rewrite rows_loop_app. unfold bind at 1.
  destruct (rows_loop cfg path k i before s) as [s1 [[]|e]]; [|reflexivity].
  cbn [rows_loop]. destruct (_ <? _).
  - rewrite (bind_ok _ _ s1 s1 tt) by reflexivity. reflexivity.
  - destruct (handle_row_missing cfg path (i + Z.of_nat (length before)) row s1
                Hempty Hmiss) as [_ E].
    rewrite (bind_ok _ _ _ _ _ E). reflexivity.
Qed.

Lemma init_writable cfg pre w :
  writable_at w (shard_name cfg pre 0) ->
  SplitWriter_init cfg pre w
  = (World (<[shard_name cfg pre 0 :=
                File true (file_data w (shard_name cfg pre 0))]> (fs w))
           (trace w ++ [EvOpen (shard_name cfg pre 0) ModeA]),
     Ok (MkSplitWriter pre 1 0 (Some (FileObj (shard_name cfg pre 0) false)))).
Proof.
  intros Hw. unfold SplitWriter_init, with_local.
  rewrite (bind_ok _ _ _ _ _
             (open_new_file_ok cfg (MkSplitWriter pre 0 0 None) w Hw)).
  reflexivity.
Qed.

Section Streams.
Context {ext : Externals}.

(** ** A whole file *)

(** A file of a known kind that can be read, with shard 0 openable:
    [processFile] runs the loop over the stream of the file, from
    ordinal 0 and with its [start_row], and closes the writer. *)
Lemma processFile_known cfg path k wr data rows w pre :
  prefix_map cfg !! detect_file_type path = Some pre ->
  fs w !! path = Some (File wr data) ->
  getFileJsonStream path data = Some rows ->
  writable_at w (shard_name cfg pre 0) ->
  processFile cfg path k w
  = with_local (fst (loop_start cfg pre path w))
      (rows_loop cfg path k 0 rows ;; SplitWriter_close)
      (snd (loop_start cfg pre path w)).
Proof.
  intros Hkind Hfile Hstream Hnew. unfold processFile.
  destruct (String.eqb_spec (detect_file_type path) "unknown") as [E|_].
  - rewrite E, prefix_map_unknown in Hkind. discriminate.
  - set (w1 := World (fs w)
                 (trace w ++ [EvPrint ("Processing " +:+ path +:+ " ["
                                       +:+ detect_file_type path +:+ "]")])).
    rewrite (bind_ok _ _ w w1 tt) by reflexivity.
    rewrite (bind_ok _ _ _ _ _ (open_read_file path ModeRB w1 wr data Hfile)).
    rewrite Hstream, Hkind.
    set (w2 := World (fs w1) (trace w1 ++ [EvOpen path ModeRB])).
    rewrite (bind_ok _ _ _ _ _ (init_writable cfg _ w2 Hnew)).
    unfold loop_start, w2, w1, file_data. cbn [fst snd fs trace].
    rewrite <- !app_assoc. reflexivity.
Qed.

Lemma loop_start_ready cfg pre path w :
  (forall j, writable_at w (shard_name cfg pre j)) ->
  writable_at w (error_log_file cfg) ->
  ready cfg pre (loop_start cfg pre path w).
Proof.
  intros Hsh Hlog. unfold loop_start. split; [|split; [|split]]; cbn [fst snd].
  - split; [reflexivity|]. cbn [out]. intros fo Hfo. injection Hfo as <-.
    eexists. reflexivity.
  - eexists. reflexivity.
  - intros j. apply writable_at_insert;
      [apply writable_at_fs, Hsh | intros _; eexists; reflexivity].
  - apply writable_at_insert;
      [apply writable_at_fs, Hlog | intros _; eexists; reflexivity].
Qed.

(** With the shards of its kind and the error log openable, [processFile]
    returns, and the rows it has written are the rows of the stream from
    [start_row] on that match the filter, each once, in the order of the
    stream. *)
Lemma processFile_filtered cfg path k wr data rows w pre :
  prefix_map cfg !! detect_file_type path = Some pre ->
  fs w !! path = Some (File wr data) ->
  getFileJsonStream path data = Some rows ->
  (forall j, writable_at w (shard_name cfg pre j)) ->
  writable_at w (error_log_file cfg) ->
  exists w' new,
    processFile cfg path k w = (w', Ok tt)
    /\ trace w' = trace w ++ new
    /\ map snd (json_writes new)
       = List.filter (row_matches cfg) (drop (Z.to_nat k) rows)
    /\ Forall (fun pr => exists j, fst pr = shard_name cfg pre j) (json_writes new).
Proof.
  intros Hkind Hfile Hstream Hsh Hlog.
  rewrite (processFile_known cfg path k wr data rows w pre Hkind Hfile Hstream (Hsh 0)).
  destruct (rows_loop_ready cfg pre path k rows 0 (loop_start cfg pre path w)
              (loop_start_ready cfg pre path w Hsh Hlog))
    as (s' & new & E & (_ & (p & Hp) & _) & Et & Hw & Hall).
  rewrite Z.sub_0_r in Hw.
  unfold with_local. rewrite <- surjective_pairing.
  rewrite (bind_ok _ _ _ _ _ E).
  exists (snd s'), ([EvPrint ("Processing " +:+ path +:+ " ["
                             +:+ detect_file_type path +:+ "]");
                    EvOpen path ModeRB;
                    EvOpen (shard_name cfg pre 0) ModeA] ++ new).
  split; [|split; [|split]].
  - unfold SplitWriter_close, bind, get_self, set_self. rewrite Hp. reflexivity.
  - unfold ptrace in Et. rewrite Et. unfold loop_start. cbn [snd trace].
    rewrite <- app_assoc. reflexivity.
  - rewrite json_writes_app. exact Hw.
  - rewrite json_writes_app. exact Hall.
Qed.

(** C1.  For a file of a known kind that can be read, with the shards of
    its kind and the error log openable: [processFile] runs the loop
    over the stream of the file and returns, and the rows it has written
    are exactly the rows of the stream, from [start_row] on (every row
    in a run from scratch), that match the filter, each once, in the
    order of the stream, and each to a shard of the kind.  A row matches
    exactly when it has a [subreddit] string whose lower-case form is a
    target.  A row without the field does not match, and wherever it
    stands in the stream the loop passes it without any effect: the
    loop over the stream is the loop over the rows before it followed
    by the loop over the rows after it, so the row is neither written
    nor logged as an error. *)
Theorem filter_writes_iff_target cfg path k wr data rows w pre :
  "" ∉ target_subreddits cfg ->
  prefix_map cfg !! detect_file_type path = Some pre ->
  fs w !! path = Some (File wr data) ->
  getFileJsonStream path data = Some rows ->
  (forall j, writable_at w (shard_name cfg pre j)) ->
  writable_at w (error_log_file cfg) ->
  processFile cfg path k w
  = with_local (fst (loop_start cfg pre path w))
      (rows_loop cfg path k 0 rows ;; SplitWriter_close)
      (snd (loop_start cfg pre path w))
  /\ (exists w' new,
         processFile cfg path k w = (w', Ok tt)
         /\ trace w' = trace w ++ new
         /\ map snd (json_writes new)
            = List.filter (row_matches cfg) (drop (Z.to_nat k) rows)
         /\ Forall (fun pr => exists j, fst pr = shard_name cfg pre j)
                   (json_writes new))
  /\ (forall row, row_matches cfg row = true <-> category_matches cfg row)
  /\ (forall row, category_missing row -> row_matches cfg row = false)
  /\ (forall i before row after s,
         category_missing row ->
         rows_loop cfg path k i (before ++ row :: after) s
         = (rows_loop cfg path k i before ;;
            rows_loop cfg path k (i + Z.of_nat (length before) + 1) after) s).
Proof.
  intros Hempty Hkind Hfile Hstream Hsh Hlog.
  split; [|split; [|split; [|split]]].
  - apply (processFile_known cfg path k wr data rows w pre Hkind Hfile Hstream (Hsh 0)).
  - apply (processFile_filtered cfg path k wr data rows w pre); assumption.
  - intros row. symmetry. apply category_matches_iff, Hempty.
  - intros row Hmiss.
    apply (handle_row_missing cfg path 0 row (loop_start cfg pre path w) Hempty Hmiss).
  - intros i before row after s Hmiss. apply rows_loop_without; assumption.
Qed.

(** C4.  With the checkpoint [(sf, k)], when the file [F] the checkpoint
    names can be read and the shards of its kind and the error log can
    be opened: the files listed before [F] are passed over without any
    effect, [F] is processed in the world the run started in and the
    files after it are processed from row 0; processing [F] runs the
    loop over the stream of [F] with [start_row] [k], in which a row of
    ordinal below [k] is skipped and a row of ordinal [k] or more is
    handled, so that the rows written for [F] are the matching rows of
    its stream without the first [k] rows; and [main] starts the folder
    at the checkpoint it loads. *)
Theorem resume_from_checkpoint cfg before F after sf k wr data rows pre w :
  (forall f, In f before -> abspath f <> abspath sf) ->
  abspath F = abspath sf ->
  prefix_map cfg !! detect_file_type F = Some pre ->
  fs w !! F = Some (File wr data) ->
  getFileJsonStream F data = Some rows ->
  (forall j, writable_at w (shard_name cfg pre j)) ->
  writable_at w (error_log_file cfg) ->
  (forall w0,
      processFolder cfg (before ++ F :: after) (Some sf) k w0
      = (processFile cfg F k ;; processFolder cfg after None 0) w0)
  /\ (forall f rest w0,
         processFolder cfg (f :: rest) None 0 w0
         = (processFile cfg f 0 ;; processFolder cfg rest None 0) w0)
  /\ processFile cfg F k w
     = with_local (fst (loop_start cfg pre F w))
         (rows_loop cfg F k 0 rows ;; SplitWriter_close)
         (snd (loop_start cfg pre F w))
  /\ (forall i row rest s,
         i < k ->
         rows_loop cfg F k i (row :: rest) s = rows_loop cfg F k (i + 1) rest s)
  /\ (forall i row rest s,
         k <= i ->
         rows_loop cfg F k i (row :: rest) s
         = (handle_row cfg F i row ;; rows_loop cfg F k (i + 1) rest) s)
  /\ (exists w1 new,
         processFile cfg F k w = (w1, Ok tt)
         /\ trace w1 = trace w ++ new
         /\ map snd (json_writes new)
            = List.filter (row_matches cfg) (drop (Z.to_nat k) rows)
         /\ processFolder cfg (before ++ F :: after) (Some sf) k w
            = processFolder cfg after None 0 w1)
  /\ (forall listing w0 w1,
         load_progress cfg w0 = (w1, Ok (Some sf, k)) ->
         fs w1 !! fileOrFolderPath cfg = Some Dir ->
         main cfg listing w0
         = (processFolder cfg listing (Some sf) k ;; print "Done :>") w1).
Proof.
  intros Hpre HF Hkind Hfile Hstream Hsh Hlog.
  split; [|split; [|split; [|split; [|split; [|split]]]]].
  - intros w0. apply folder_loop_resume; assumption.
  - intros f rest w0. reflexivity.
  - apply (processFile_known cfg F k wr data rows w pre Hkind Hfile Hstream (Hsh 0)).
  - intros i row rest s Hi. cbn [rows_loop].
    destruct (Z.ltb_spec i k) as [_|Hge]; [reflexivity|lia].
  - intros i row rest s Hi. cbn [rows_loop].
    destruct (Z.ltb_spec i k) as [Hlt|_]; [lia|reflexivity].
  - destruct (processFile_filtered cfg F k wr data rows w pre Hkind Hfile Hstream
                Hsh Hlog) as (w1 & new & E & Et & Hw & _).
    exists w1, new. split; [exact E|]. split; [exact Et|]. split; [exact Hw|].
    unfold processFolder at 1. rewrite (folder_loop_resume cfg sf k before F after w Hpre HF).
    rewrite (bind_ok _ _ _ _ _ E). reflexivity.
  - intros listing w0 w1 Hload Hdir. unfold main.
    rewrite (bind_ok _ _ _ _ _ Hload).
    rewrite (bind_ok _ _ w1 w1 true); [reflexivity|].
    unfold path_isdir. rewrite Hdir. reflexivity.
Qed.

End Streams.

(* ================================================================== *)
(** * The properties at sample inputs *)

Lemma no_empty_target : "" ∉ target_subreddits default_config.
Proof. compute_done. Qed.


(** C2, at two submission files of two matching rows each, two rows to a
    shard: the first file fills shard 0000 and the writer moves on to
    shard 0001; the writer of the second file starts again at shard 0000,
    opened for append, and leaves it with four rows.  With the shipped
    100000 rows to a shard it is the same: a shard 0000 that already has
    its 100000 rows gets the matching row of the next file. *)
Theorem second_file_overfills_sealed_shard :
  let a := "../../testdata/RS_2023-01.jsonl" in
  let b := "../../testdata/RS_2023-02.jsonl" in
  let w0 :=
    with_file a (jsonl [post "homelab" "a1"; post "selfhosted" "a2"])
      (with_file b (jsonl [post "homelab" "b1"; post "HomeServer" "b2"])
         empty_world) in
  let w1 := fst (processFile (ext := sample_env) cfg2 a 0 w0) in
  let w2 := fst (processFile (ext := sample_env) cfg2 b 0 w1) in
  let w3 := fst (processFile (ext := sample_env) default_config sample_path 0
                             full_shard_world) in
  rows_per_file cfg2 = 2
  /\ shard_rows w1 shard0 = [post "homelab" "a1"; post "selfhosted" "a2"]
  /\ opened (trace w1) = [a; shard0; progress_file cfg2; shard1]
  /\ shard_rows w2 shard0
     = [post "homelab" "a1"; post "selfhosted" "a2";
        post "homelab" "b1"; post "HomeServer" "b2"]
  /\ processFolder (ext := sample_env) cfg2 [a; b] None 0 w0 = (w2, Ok tt)
  /\ rows_per_file default_config = 100000
  /\ Z.of_nat (length (shard_rows full_shard_world shard0)) = 100000
  /\ Z.of_nat (length (shard_rows w3 shard0)) = 100001.
Proof. vm_compute. repeat split. Qed.

(** C3, at a file whose row 0 does not match the filter: 0 is a multiple
    of 1000, and yet no checkpoint is saved for the row; the same file
    with a matching row 0 has its checkpoint. *)
Theorem filtered_row_saves_no_checkpoint :
  let run row :=
    processFile (ext := sample_env) default_config sample_path 0
      (with_file sample_path (jsonl [row]) empty_world) in
  0 mod 1000 = 0
  /\ snd (run (post "funny" "a")) = Ok tt
  /\ fs (fst (run (post "funny" "a"))) !! progress_file default_config = None
  /\ saved_lines default_config (trace (fst (run (post "funny" "a")))) = []
  /\ saved_lines default_config (trace (fst (run (post "homelab" "a"))))
     = [progress_line sample_path 0].
Proof. vm_compute. repeat split. Qed.

Lemma stale_checkpoint_processes_nothing_witness :
  processFolder (ext := sample_env) default_config three_files
                (Some "/data/RS_2022-12.jsonl") 3000 empty_world
  = (empty_world, Ok tt).
Proof.
  apply (stale_checkpoint_processes_nothing (ext := sample_env)).
  intros f [<-|[<-|[<-|[]]]]; vm_compute; discriminate.
Defined.

Lemma bad_row_is_logged_and_skipped_witness :
  exists sfin,
    rows_loop default_config sample_path 0 0
              [post "homelab" "a"; null_row; post "selfhosted" "c"]
              (open_writer, started_world)
    = (sfin, Ok tt)
    /\ error_entries default_config (ptrace sfin) = [null_exn].
Proof.
  destruct (bad_row_is_logged_and_skipped default_config sample_path
              [post "homelab" "a"] null_row [post "selfhosted" "c"]
              (open_writer, started_world) after_first_row after_first_row null_exn)
    as (_ & sfin & H1 & _ & H3).
  - vm_compute. exact I.
  - vm_compute. reflexivity.
  - vm_compute. reflexivity.
  - vm_compute. exact I.
  - vm_compute. exact I.
  - exists sfin. split; [exact H1 | exact H3].
Defined.

Lemma one_file_world_fresh : fresh_output cfg2 one_file_world.
Proof.
  intros p Hp. unfold one_file_world, with_file; simpl.
  destruct (decide (p = sample_path)) as [->|Hne].
  - vm_compute in Hp. discriminate.
  - rewrite lookup_insert_ne by congruence. apply lookup_empty.
Qed.

Lemma one_file_world_shards (j : Z) :
  writable_at one_file_world (shard_name default_config "filtered_submissions" j).
Proof.
  unfold writable_at.
  rewrite (one_file_world_fresh
             (shard_name default_config "filtered_submissions" j) eq_refl).
  exact I.
Qed.

Lemma filter_writes_iff_target_witness :
  exists w' new,
    processFile (ext := sample_env) default_config sample_path 0 one_file_world
    = (w', Ok tt)
    /\ trace w' = trace one_file_world ++ new
    /\ map snd (json_writes new)
       = [post "selfhosting" "a"; post "HomeLab" "c"; post "homelab" "d"]
    /\ row_matches default_config (JDict [("title", JStr "z")]) = false.
Proof.
  destruct (filter_writes_iff_target (ext := sample_env) default_config sample_path 0
              true (map JsonLine five_rows) five_rows one_file_world
              "filtered_submissions")
    as (_ & (w' & new & E & Et & Hw & _) & _ & Hmiss & _).
  - exact no_empty_target.
  - vm_compute. reflexivity.
  - reflexivity.
  - vm_compute. reflexivity.
  - exact one_file_world_shards.
  - vm_compute. exact I.
  - exists w', new. split; [exact E|]. split; [exact Et|]. split.
    + rewrite Hw. vm_compute. reflexivity.
    + apply Hmiss. exists [("title", JStr "z")]. split; reflexivity.
Defined.

Lemma resume_world_fresh : fresh_output default_config resume_world.
Proof.
  intros p Hp. unfold resume_world, with_file; simpl.
  destruct (decide (p = "/data/RS_2023-01.jsonl")) as [->|N1];
    [vm_compute in Hp; discriminate|].
  destruct (decide (p = "/data/RS_2023-02.jsonl")) as [->|N2];
    [vm_compute in Hp; discriminate|].
  destruct (decide (p = "/data/RC_2023-01.jsonl")) as [->|N3];
    [vm_compute in Hp; discriminate|].
  rewrite !lookup_insert_ne by congruence. apply lookup_empty.
Qed.

Lemma resume_from_checkpoint_witness :
  exists w1 new,
    processFile (ext := sample_env) default_config "/data/RS_2023-02.jsonl" 2
                resume_world
    = (w1, Ok tt)
    /\ trace w1 = trace resume_world ++ new
    /\ map snd (json_writes new) = [post "HomeLab" "c"; post "homelab" "d"]
    /\ processFolder (ext := sample_env) default_config three_files
                     (Some "/data/RS_2023-02.jsonl") 2 resume_world
       = processFolder (ext := sample_env) default_config
                       ["/data/RC_2023-01.jsonl"] None 0 w1.
Proof.
  destruct (resume_from_checkpoint (ext := sample_env) default_config
              ["/data/RS_2023-01.jsonl"] "/data/RS_2023-02.jsonl"
              ["/data/RC_2023-01.jsonl"] "/data/RS_2023-02.jsonl" 2
              true (map JsonLine five_rows) five_rows "filtered_submissions"
              resume_world)
    as (_ & _ & _ & _ & _ & (w1 & new & E & Et & Hw & Hf) & _).
  - intros f [<-|[]]. vm_compute. discriminate.
  - reflexivity.
  - vm_compute. reflexivity.
  - reflexivity.
  - vm_compute. reflexivity.
  - intros j. unfold writable_at.
    rewrite (resume_world_fresh
               (shard_name default_config "filtered_submissions" j) eq_refl).
    exact I.
  - vm_compute. exact I.
  - exists w1, new. split; [exact E|]. split; [exact Et|]. split; [|exact Hf].
    rewrite Hw. vm_compute. reflexivity.
Defined.

Lemma three_rows_make_two_shards_witness :
  exists w',
    processFile (ext := sample_env) cfg2 sample_path 0 one_file_world = (w', Ok tt)
    /\ fs w' !! "../../filtered_output/filtered_submissions_0000.jsonl"
       = Some (File true [JsonLine (post "selfhosting" "a"); JsonLine (post "HomeLab" "c")])
    /\ fs w' !! "../../filtered_output/filtered_submissions_0001.jsonl"
       = Some (File true [JsonLine (post "homelab" "d")]).
Proof.
  destruct (three_rows_make_two_shards (ext := sample_env) cfg2 sample_path true
              (map JsonLine five_rows) five_rows
              (post "selfhosting" "a") (post "HomeLab" "c") (post "homelab" "d")
              one_file_world)
    as [H _]; try reflexivity.
  - exact one_file_world_fresh.
  - exact H.
Defined.

Lemma classification_by_base_name_witness :
  detect_file_type "../../testdata/RS_2023-01.jsonl" = "submission"
  /\ detect_file_type "/dumps/reddit/rc_2019-05.zst" = "comment"
  /\ detect_file_type "../../rs_archive/notes.txt" = "unknown"
  /\ processFile (ext := sample_env) default_config "../../rs_archive/notes.txt" 0
                 empty_world
     = (World ∅ [EvPrint "Skipping ../../rs_archive/notes.txt (not RC_ or RS_)"],
        Ok tt).
Proof.
  destruct (classification_by_base_name (ext := sample_env))
    as (_ & Hrs & Hrc & Hun & Hskip).
  assert (N1 : ~ occurs_any rs_variants (basename "/dumps/reddit/rc_2019-05.zst")).
  { rewrite <- (contains_lower_iff "rs_" rs_variants _ lower_rs). vm_compute. discriminate. }
  assert (N2 : ~ occurs_any rs_variants (basename "../../rs_archive/notes.txt")).
  { rewrite <- (contains_lower_iff "rs_" rs_variants _ lower_rs). vm_compute. discriminate. }
  assert (N3 : ~ occurs_any rc_variants (basename "../../rs_archive/notes.txt")).
  { rewrite <- (contains_lower_iff "rc_" rc_variants _ lower_rc). vm_compute. discriminate. }
  split; [|split; [|split]].
  - apply Hrs. exists "", "RS_", "2023-01.jsonl". split; [reflexivity|]. simpl. auto.
  - apply Hrc; [exact N1|].
    exists "", "rc_", "2019-05.zst". split; [reflexivity|]. simpl. auto.
  - apply Hun; assumption.
  - apply (Hskip default_config "../../rs_archive/notes.txt" 0 empty_world).
    apply Hun; assumption.
Defined.

Lemma checkpoint_round_trip_witness :
  snd (load_progress (ext := sample_env) default_config
         (fst (save_progress default_config sample_path 1000 empty_world)))
  = Ok (Some sample_path, 1000).
Proof.
  destruct (checkpoint_round_trip (ext := sample_env) default_config sample_path 1000
              empty_world
              (fst (save_progress default_config sample_path 1000 empty_world)))
    as (H & _ & _).
  - reflexivity.
  - vm_compute. reflexivity.
  - rewrite H. reflexivity.
Defined.

(** C8, as the claim has it, fails for a path with a tab: the line saved
    for it has three fields, and [load_progress] raises [ValueError]. *)
Lemma checkpoint_lost_on_tab_in_path :
  snd (save_progress default_config tab_path 1000 empty_world) = Ok tt
  /\ snd (load_progress (ext := sample_env) default_config
            (fst (save_progress default_config tab_path 1000 empty_world)))
     = Raise (ValueError "too many values to unpack (expected 2)").
Proof. vm_compute. split; reflexivity. Qed.

Lemma log_error_appends_or_propagates_witness :
  file_data (fst (log_error default_config sample_path 7 null_exn empty_world))
            (error_log_file default_config)
  = [Text (error_header sample_path 7 null_exn); Traceback null_exn]
  /\ exists e', snd (log_error default_config sample_path 7 null_exn
                               read_only_log_world) = Raise e'.
Proof.
  destruct (log_error_appends_or_propagates default_config sample_path 7 null_exn
              empty_world) as [Hok _].
  destruct (log_error_appends_or_propagates default_config sample_path 7 null_exn
              read_only_log_world) as [_ Hraise].
  split.
  - destruct Hok as (w' & E & D & _); [vm_compute; exact I|].
    rewrite E. exact D.
  - destruct Hraise as [e' E]; [vm_compute; tauto|].
    exists e'. rewrite E. reflexivity.
Defined.

(** C9, as the claim has it, fails when the error log may not be written:
    [log_error] raises [PermissionError] and appends nothing. *)
Lemma log_error_raises_on_read_only_log :
  snd (log_error default_config sample_path 7 null_exn read_only_log_world)
  = Raise (PermissionError "../../filtered_output/errors.log")
  /\ file_data (fst (log_error default_config sample_path 7 null_exn
                               read_only_log_world))
               (error_log_file default_config)
     = [].
Proof. vm_compute. split; reflexivity. Qed.

(* ================================================================== *)
(** * The further properties at sample inputs *)

Lemma open_writer_named : named_for default_config "filtered_submissions" open_writer.
Proof.
  split; [reflexivity|]. intros fo H. injection H as <-. exists 0. reflexivity.
Qed.

Lemma rows_loop_always_returns_witness :
  exists s',
    rows_loop default_config sample_path 0 0 five_rows (open_writer, started_world)
    = (s', Ok tt)
    /\ log_writes default_config (ptrace s')
       = log_entry sample_path
           (3, AttributeError "'int' object has no attribute 'get'").
Proof.
  destruct (rows_loop_always_returns default_config sample_path 0 0 five_rows
              (open_writer, started_world)) as (E & _ & L).
  - vm_compute. exact I.
  - eexists. split; [exact E|]. rewrite L. vm_compute. reflexivity.
Defined.

Lemma only_matching_rows_reach_the_shards_witness :
  exists new,
    ptrace (fst (rows_loop default_config sample_path 0 0 five_rows
                           (open_writer, started_world)))
    = ptrace (open_writer, started_world) ++ new
    /\ sublist (map snd (json_writes new))
               (List.filter (row_matches default_config) five_rows)
    /\ Forall (fun pr => exists j,
                  fst pr = shard_name default_config "filtered_submissions" j)
              (json_writes new).
Proof.
  apply only_matching_rows_reach_the_shards. exact open_writer_named.
Defined.

Lemma one_file_world_no_shard (j : nat) :
  fs one_file_world !! shard_name cfg2 "filtered_submissions" (Z.of_nat j) = None.
Proof. apply one_file_world_fresh. reflexivity. Qed.

Lemma fresh_run_fills_shards_in_order_witness :
  exists w',
    processFile (ext := sample_env) cfg2 sample_path 0 one_file_world = (w', Ok tt)
    /\ (forall j : nat,
          fs w' !! shard_name cfg2 "filtered_submissions" (Z.of_nat j)
          = if (j * 2 <=? length (List.filter (row_matches cfg2) five_rows))%nat
            then Some (File true
                         (JsonLine
                            <$> group 2 (List.filter (row_matches cfg2) five_rows) j))
            else None)
    /\ (forall j : nat,
          (length (file_data w' (shard_name cfg2 "filtered_submissions" (Z.of_nat j)))
           <= 2)%nat).
Proof.
  apply (fresh_run_fills_shards_in_order (ext := sample_env) cfg2 sample_path true
           (map JsonLine five_rows) five_rows one_file_world
           "filtered_submissions" 2%nat).
  - reflexivity.
  - lia.
  - vm_compute. reflexivity.
  - reflexivity.
  - vm_compute. reflexivity.
  - exact one_file_world_no_shard.
  - vm_compute. exact I.
  - vm_compute. exact I.
Defined.

Lemma write_keeps_the_row_count_in_bounds_witness :
  let s' := fst (SplitWriter_write cfg2 (post "homelab" "a")
                                   (open_writer, started_world)) in
  0 <= row_count (fst s') < rows_per_file cfg2
  /\ prefix (fst s') = prefix open_writer
  /\ (file_index (fst s') = file_index open_writer
      /\ row_count (fst s') = row_count open_writer + 1
      /\ out (fst s') = out open_writer
      \/ file_index (fst s') = file_index open_writer + 1
         /\ row_count (fst s') = 0
         /\ row_count open_writer + 1 = rows_per_file cfg2
         /\ out (fst s')
            = Some (FileObj (shard_name cfg2 (prefix open_writer)
                                        (file_index open_writer)) false)).
Proof.
  intros s'.
  apply (write_keeps_the_row_count_in_bounds cfg2 (post "homelab" "a")
           open_writer started_world (fst s') (snd s')).
  - vm_compute. split; [discriminate | reflexivity].
  - vm_compute. reflexivity.
Defined.

Lemma failed_rotation_closes_the_writer_witness :
  let s1 := fst (SplitWriter_write cfg1 (post "homelab" "a")
                                   (open_writer, blocked_world)) in
  json_writes (ptrace s1) = [(shard0, post "homelab" "a")]
  /\ out (fst s1) = Some (FileObj shard0 true)
  /\ forall row',
       SplitWriter_write cfg1 row' s1
       = (s1, Raise (ValueError "I/O operation on closed file.")).
Proof.
  intros s1.
  apply (failed_rotation_closes_the_writer cfg1 (post "homelab" "a") open_writer
           blocked_world shard0 s1 (IsADirectoryError shard1)).
  - reflexivity.
  - vm_compute. reflexivity.
Defined.

Lemma unstreamable_file_leaves_no_output_witness :
  processFile (ext := sample_env) default_config sample_path 0 empty_world
  = (World ∅ [EvPrint "Processing ../../testdata/RS_2023-01.jsonl [submission]";
              EvOpen sample_path ModeRB],
     Raise (FileNotFoundError sample_path)).
Proof.
  pose proof (unstreamable_file_leaves_no_output (ext := sample_env) default_config
                sample_path 0 empty_world) as H.
  cbv zeta in H. destruct H as [H _].
  - vm_compute. discriminate.
  - apply H. reflexivity.
Defined.

Lemma exception_in_a_file_ends_the_run_witness :
  processFolder (ext := sample_env) default_config
                ([notes_path] ++ sample_path :: three_files) None 0 empty_world
  = (World ∅ [EvPrint "Skipping ../../rs_archive/notes.txt (not RC_ or RS_)";
              EvPrint "Processing ../../testdata/RS_2023-01.jsonl [submission]";
              EvOpen sample_path ModeRB],
     Raise (FileNotFoundError sample_path)).
Proof.
  apply (exception_in_a_file_ends_the_run (ext := sample_env) default_config
           [notes_path] sample_path three_files empty_world
           (World ∅ [EvPrint "Skipping ../../rs_archive/notes.txt (not RC_ or RS_)"])).
  - vm_compute. reflexivity.
  - vm_compute. reflexivity.
Defined.

Lemma single_file_run_resumes_at_any_checkpoint_witness :
  main (ext := sample_env) default_config []
       (fst (save_progress default_config "/data/RC_2019-05.zst" 2000 empty_world))
  = (processFile (ext := sample_env) default_config "../../testdata" 2000 ;;
     print "Done :>")
      (World (<[progress_file default_config
                := File true [Text (progress_line "/data/RC_2019-05.zst" 2000)]]> ∅)
             [EvOpen (progress_file default_config) ModeW;
              EvWrite (progress_file default_config)
                      (Text (progress_line "/data/RC_2019-05.zst" 2000));
              EvOpen (progress_file default_config) ModeR]).
Proof.
  apply (single_file_run_resumes_at_any_checkpoint (ext := sample_env) default_config
           [] "/data/RC_2019-05.zst" 2000 empty_world).
  - vm_compute. reflexivity.
  - vm_compute. exact I.
  - vm_compute. discriminate.
Defined.

Lemma run_only_appends_witness :
  exists more,
    file_data (fst (script (ext := sample_env) cfg2 [] one_file_world)) sample_path
    = file_data one_file_world sample_path ++ more.
Proof.
  apply (run_only_appends (ext := sample_env)). vm_compute. discriminate.
Defined.

Lemma shard_names_are_distinct_witness :
  int (fmt04 12345) = Some 12345
  /\ int (fmt04 (-7)) = Some (-7)
  /\ shard_name default_config "filtered_comments" 3
     <> shard_name default_config "filtered_comments" 30.
Proof.
  destruct shard_names_are_distinct as [H1 H2].
  split; [apply H1|]. split; [apply H1|].
  intros E. apply H2 in E. discriminate.
Defined.

Lemma load_progress_edge_cases_witness :
  snd (load_progress (ext := sample_env) default_config blank_checkpoint_world)
  = Ok (None, 0)
  /\ snd (load_progress (ext := sample_env) default_config checkpoint_dir_world)
     = Raise (IsADirectoryError (progress_file default_config))
  /\ snd (load_progress (ext := sample_env) default_config bad_ordinal_world)
     = Raise (ValueError "invalid literal for int() with base 10: '\x1f5'").
Proof.
  destruct (load_progress_edge_cases (ext := sample_env) default_config
              blank_checkpoint_world) as (_ & H1 & _).
  destruct (load_progress_edge_cases (ext := sample_env) default_config
              checkpoint_dir_world) as (_ & _ & _ & _ & H2).
  destruct (load_progress_edge_cases (ext := sample_env) default_config
              bad_ordinal_world) as (_ & _ & _ & H3 & _).
  split; [|split].
  - apply (H1 true [Text ("   " +:+ nl)]); [reflexivity | vm_compute; reflexivity].
  - apply H2. reflexivity.
  - apply (H3 true [Text (sample_path +:+ tab +:+ bad_ordinal +:+ nl)]
              sample_path bad_ordinal); vm_compute; reflexivity.
Defined.
